(** * Product Review Analyzer: the aggregation pipeline of [app.py]

    A shallow embedding of [src/app.py]: the review selector
    ([sort_values(...).head(50)]), the reduction of the zero-shot classifier's
    output into topic and sentiment counts, the template summary
    ([generate_smart_summary]) and the [functools.lru_cache] wrapped around
    the whole ([cached_inference], [analyze_product]).

    Conventions.
    - A Python [int] is a [Z]; a Python [float] is a binary64 [float] of the
      kernel ([PrimFloat]), so that [/] and [*] round as they do in CPython.
    - A Python [str] used as a label, title or key is a [string]; a review
      text, which the regular expressions of [clean_text] inspect character by
      character, is a list of Unicode code points ([list N]).
    - A [dict] is an association list in insertion order (Python dicts iterate
      in insertion order, and [max] over a dict depends on it).
    - A raised exception is the [Raise] case of [result]; code that also
      counts calls or touches the cache threads a [World].
    - The classifier is outside the repository: it is a variable of the
      development, given the number of calls made before, so that it may
      fail once and answer later. *)

From Stdlib Require Import ZArith List Bool Lia String Ascii DecimalString.
From Stdlib Require Import Floats QArith Sorted Permutation.
Import ListNotations.
Open Scope Z_scope.

(** ** Exceptions and results *)

Inductive exn : Type :=
| ValueError
| ZeroDivisionError
| OverflowError
| IndexError
| KeyError
| ClassifierError (msg : string)
| HTTPException (status_code : Z) (detail : string).

Inductive result (A : Type) : Type :=
| Ok (a : A)
| Raise (e : exn).

Arguments Ok {A} a.
Arguments Raise {A} e.

Definition rbind {A B : Type} (r : result A) (k : A -> result B) : result B :=
  match r with
  | Ok a => k a
  | Raise e => Raise e
  end.

Declare Scope py_scope.
Delimit Scope py_scope with py.
Notation "x <- c ;; k" := (rbind c (fun x => k))
  (at level 61, c at next level, right associativity) : py_scope.
Notation "' p <- c ;; k" := (rbind c (fun x => let 'p := x in k))
  (at level 61, p pattern, c at next level, right associativity) : py_scope.

(** ** Dictionaries in insertion order *)

Module Dict.

Definition t (V : Type) : Type := list (string * V).

Fixpoint get {V : Type} (d : t V) (k : string) : option V :=
  match d with
  | [] => None
  | (k', v) :: r => if String.eqb k' k then Some v else get r k
  end.

(** [d.get(k, dflt)] *)
Definition get_or {V : Type} (d : t V) (k : string) (dflt : V) : V :=
  match get d k with
  | Some v => v
  | None => dflt
  end.

(** [d[k] = v]: a key already present keeps its place, a new key goes last. *)
Fixpoint set {V : Type} (d : t V) (k : string) (v : V) : t V :=
  match d with
  | [] => [(k, v)]
  | (k', v') :: r =>
      if String.eqb k' k then (k', v) :: r else (k', v') :: set r k v
  end.

Definition keys {V : Type} (d : t V) : list string := map fst d.
Definition values {V : Type} (d : t V) : list V := map snd d.

End Dict.

(** ** [max(iterable, key=...)]

    CPython keeps the first item and replaces it only by an item whose key
    is strictly greater ([Py_GT]); an empty iterable raises [ValueError]. *)

Section PyMax.
Variables (A K : Type) (gt : K -> K -> bool) (key : A -> K).

Fixpoint max_from (best : A) (l : list A) : A :=
  match l with
  | [] => best
  | x :: r => max_from (if gt (key x) (key best) then x else best) r
  end.

Definition py_max (l : list A) : result A :=
  match l with
  | [] => Raise ValueError
  | x :: r => Ok (max_from x r)
  end.

End PyMax.

Arguments max_from {A K} gt key best l.
Arguments py_max {A K} gt key l.

(** ** Floats

    CPython's [int / int] ([long_true_divide]) gives the double nearest to
    the quotient, ties going to the even mantissa, and raises
    [OverflowError] when that is [2^1024] or more. When both operands are
    below [2^53] in absolute value it converts them to doubles, which is
    exact, and divides these; otherwise it works on the integers.

    [nearest_double n d], for [0 < n] and [0 < d], is the integer route:
    the exponent [e] is chosen so that [n / (d * 2^e)] has 53 bits, or is
    [-1074] for a subnormal, the quotient is rounded to an integer [m], and
    the result is [m * 2^e]. *)

Definition scaled (n d e : Z) : Z * Z :=
  if e <? 0 then (n * 2 ^ (- e), d) else (n, d * 2 ^ e).

Definition nearest_double (n d : Z) : option float :=
  let e0 := Z.log2 n - Z.log2 d in
  let '(n0, d0) := scaled n d e0 in
  let e := Z.max ((if d0 <=? n0 then e0 else e0 - 1) - 52) (-1074) in
  let '(num, den) := scaled n d e in
  let q := num / den in
  let r := num mod den in
  let m :=
    match 2 * r ?= den with
    | Lt => q
    | Gt => q + 1
    | Eq => if Z.even q then q else q + 1
    end in
  if (971 <? e) || ((e =? 971) && (m =? 2 ^ 53)) then None
  else Some (FloatOps.Z.ldexp (PrimFloat.of_uint63 (Uint63.of_Z m)) e).

(** The double nearest to [z]. It is [z] itself below [2^53], the only
    range in which the code converts an integer: the operands of a
    division on the short route, and the constant [100]. Where Python
    raises [OverflowError] ([2^1024] and beyond) this is an infinity. *)
Definition float_of_int (z : Z) : float :=
  if z =? 0 then 0%float
  else
    let x := match nearest_double (Z.abs z) 1 with
             | Some x => x
             | None => PrimFloat.infinity
             end in
    if z <? 0 then PrimFloat.opp x else x.

(** An integer that a double holds exactly. *)
Definition small (z : Z) : bool := Z.abs z <? 2 ^ 53.

(** [a / b]. A zero numerator gives a zero with the sign of the quotient
    on either route (IEEE division does so on the short one). *)
Definition truediv (a b : Z) : result float :=
  if b =? 0 then Raise ZeroDivisionError
  else if small a && small b
  then Ok (PrimFloat.div (float_of_int a) (float_of_int b))
  else if a =? 0 then Ok (if b <? 0 then (-0)%float else 0%float)
  else
    match nearest_double (Z.abs a) (Z.abs b) with
    | Some x => Ok (if (a <? 0) && (0 <? b) || (0 <? a) && (b <? 0)
                    then PrimFloat.opp x else x)
    | None => Raise OverflowError
    end.

(** [x > y] on floats *)
Definition float_gt (x y : float) : bool := PrimFloat.ltb y x.

(** The integer nearest to [m * 2^e], ties going to the even one: what
    [format(x, ".0f")] and [round(x)] print for a finite double. *)
Definition round_half_even (m : positive) (e : Z) : Z :=
  if 0 <=? e then Z.pos m * 2 ^ e
  else
    let d := 2 ^ (- e) in
    let q := Z.pos m / d in
    let r := Z.pos m mod d in
    match 2 * r ?= d with
    | Lt => q
    | Gt => q + 1
    | Eq => if Z.even q then q else q + 1
    end.

(** [str(z)], as an f-string prints an [int]. Recent versions of Python
    refuse the conversion of an integer of more than 4300 digits; none is
    that large where this is used. *)
Definition str_of_int (z : Z) : string := NilZero.string_of_int (Z.to_int z).

(** [f"{x:.0f}"] *)
Definition format_0f (x : float) : string :=
  match Prim2SF x with
  | S754_nan => "nan"
  | S754_infinity s => if s then "-inf" else "inf"
  | S754_zero s => if s then "-0" else "0"
  | S754_finite s m e =>
      ((if s then "-" else "") ++ str_of_int (round_half_even m e))%string
  end.

(** The exact value of a finite double, as a rational. *)
Definition float_val (x : float) : option Q :=
  match Prim2SF x with
  | S754_zero _ => Some 0%Q
  | S754_finite s m e =>
      let a := if s then Z.neg m else Z.pos m in
      Some (if 0 <=? e then inject_Z (a * 2 ^ e)
            else Qmake a (Z.to_pos (2 ^ (- e))))
  | _ => None
  end.

(** ** Text cleaning ([clean_text])

    [re.sub(r'<br\s*/?>', ' ', text)], then [re.sub(r'\s+', ' ', text)] and
    [strip()]. For a [str] pattern [\s] is Unicode white space, the same
    class [strip()] removes. *)

Definition is_space (c : N) : bool :=
  ((9 <=? c) && (c <=? 13) || (28 <=? c) && (c <=? 32) || (c =? 133)
   || (c =? 160) || (c =? 5760) || (8192 <=? c) && (c <=? 8202)
   || (c =? 8232) || (c =? 8233) || (c =? 8239) || (c =? 8287)
   || (c =? 12288))%N.

Fixpoint skip_spaces (s : list N) : list N :=
  match s with
  | c :: r => if is_space c then skip_spaces r else s
  | [] => []
  end.

(** What is left of [s] after a match of [<br\s*/?>] at its start. Neither
    [/] nor [>] is white space, so the greedy [\s*] and [/?] never have to
    give a character back. *)
Definition match_br (s : list N) : option (list N) :=
  match s with
  | 60%N :: 98%N :: 114%N :: r =>
      let r1 := skip_spaces r in
      let r2 := match r1 with 47%N :: r' => r' | _ => r1 end in
      match r2 with
      | 62%N :: r3 => Some r3
      | _ => None
      end
  | _ => None
  end.

(** [skip] characters of the current match are still to be dropped. *)
Fixpoint sub_br (skip : nat) (s : list N) : list N :=
  match s with
  | [] => []
  | c :: r =>
      match skip with
      | S k => sub_br k r
      | O =>
          match match_br s with
          | Some rest => 32%N :: sub_br (List.length r - List.length rest) r
          | None => c :: sub_br O r
          end
      end
  end.

Fixpoint sub_spaces (in_run : bool) (s : list N) : list N :=
  match s with
  | [] => []
  | c :: r =>
      if is_space c
      then (if in_run then sub_spaces true r else 32%N :: sub_spaces true r)
      else c :: sub_spaces false r
  end.

Definition strip (s : list N) : list N :=
  rev (skip_spaces (rev (skip_spaces s))).

Definition clean_text (text : list N) : list N :=
  let text := sub_br O text in
  strip (sub_spaces false text).

(** The code points of an ASCII [string], to write texts down. *)
Fixpoint str (s : string) : list N :=
  match s with
  | EmptyString => []
  | String c r => N_of_ascii c :: str r
  end.

(** ** Configuration *)

Definition MAX_REVIEWS_TO_ANALYZE : nat := 50.

Definition LABELS : list string :=
  [ "Quality & Effectiveness"; "Scent & Texture"; "Price & Value";
    "Packaging & Shipping"; "Safety & Authenticity"; "Service" ]%string.

(** ** Data *)

(** A row of the review table [df]: the columns the pipeline reads. *)
Module Row.
Record t : Type := mk {
  parent_asin : string;
  text : list N;
  rating : Z;
  helpful_vote : Z;
  timestamp : Z;
  product_title : string;
  product_image : option string;
  average_rating : float;
  rating_number : Z
}.
End Row.

(** One element of the classifier's answer: [res['labels']], [res['scores']]. *)
Module ZeroShot.
Record t : Type := mk {
  labels : list string;
  scores : list float
}.
End ZeroShot.

Module ReviewDetail.
Record t : Type := mk {
  text : list N;
  rating : Z;
  topic : string;
  topic_score : float
}.
End ReviewDetail.

Module ReviewAnalysis.
Record t : Type := mk {
  total_reviews_local : Z;
  analyzed_count : Z;
  product_title : string;
  product_image : option string;
  average_rating : float;
  rating_number : Z;
  top_topics : Dict.t float;
  sentiment_breakdown : Dict.t Z;
  reviews : list ReviewDetail.t;
  ai_summary : string
}.
End ReviewAnalysis.

Definition len {A : Type} (l : list A) : Z := Z.of_nat (List.length l).

(** [l[i]] for [i >= 0] *)
Definition getitem {A : Type} (l : list A) (i : nat) : result A :=
  match nth_error l i with
  | Some x => Ok x
  | None => Raise IndexError
  end.

(** ** The review selector

    [sort_values(by=['helpful_vote', 'timestamp'], ascending=[False, False])]
    orders the rows by decreasing [helpful_vote], then decreasing
    [timestamp]; pandas sorts on several columns with a stable sort, so rows
    that agree on both keep the order of the table. *)

(** [a] has to come before [b] *)
Definition sorts_before (a b : Row.t) : bool :=
  (Row.helpful_vote b <? Row.helpful_vote a)
  || ((Row.helpful_vote a =? Row.helpful_vote b)
      && (Row.timestamp b <? Row.timestamp a)).

Fixpoint insert_row (x : Row.t) (l : list Row.t) : list Row.t :=
  match l with
  | [] => [x]
  | y :: r => if sorts_before y x then y :: insert_row x r else x :: l
  end.

Fixpoint sort_values (l : list Row.t) : list Row.t :=
  match l with
  | [] => []
  | x :: r => insert_row x (sort_values r)
  end.

Definition head {A : Type} (n : nat) (l : list A) : list A := firstn n l.


(** ** The summary generator ([generate_smart_summary]) *)

(** [a > b] on what [dict.get] returns for keys of the dict *)
Definition get_gt (a b : option Z) : bool :=
  match a, b with
  | Some x, Some y => y <? x
  | _, _ => false
  end.

(** [d[k]] *)
Definition dict_getitem (d : Dict.t Z) (k : string) : result Z :=
  match Dict.get d k with
  | Some v => Ok v
  | None => Raise KeyError
  end.

Definition context_sentence (top_sentiment : string) : string :=
  if String.eqb top_sentiment "Negative"
  then "This suggests users are facing critical issues in this specific area."
  else if String.eqb top_sentiment "Positive"
  then "This indicates high user satisfaction regarding this feature."
  else "Opinions on this product appear to be mixed.".

Definition top_topic_pct (count total_analyzed : Z) : result float :=
  (q <- truediv count total_analyzed ;;
   Ok (PrimFloat.mul q (float_of_int 100)))%py.

Definition summary_text (total_analyzed : Z) (top_sentiment top_topic : string)
  (pct : float) : string :=
  ("Based on an analysis of " ++ str_of_int total_analyzed
   ++ " reviews, the customer sentiment is predominantly **"
   ++ top_sentiment ++ "**. "
   ++ "The primary driver of conversation is **" ++ top_topic
   ++ "**, which appears in **" ++ format_0f pct ++ "%** of the feedback. "
   ++ context_sentence top_sentiment)%string.

Definition generate_smart_summary (topic_counts sentiment_counts : Dict.t Z)
  (total_analyzed : Z) : result string :=
  (top_topic <- py_max get_gt (Dict.get topic_counts) (Dict.keys topic_counts) ;;
   count <- dict_getitem topic_counts top_topic ;;
   pct <- top_topic_pct count total_analyzed ;;
   top_sentiment <-
     py_max get_gt (Dict.get sentiment_counts) (Dict.keys sentiment_counts) ;;
   Ok (summary_text total_analyzed top_sentiment top_topic pct))%py.

(** ** The aggregator: the loop of [cached_inference] *)

Record Acc : Type := mkAcc {
  processed_reviews : list ReviewDetail.t;
  topic_counts : Dict.t Z;
  sentiment_counts : Dict.t Z
}.

(** [d[k] += 1] *)
Definition incr (d : Dict.t Z) (k : string) : result (Dict.t Z) :=
  (v <- dict_getitem d k ;; Ok (Dict.set d k (v + 1)))%py.

(** [max(zip(res['labels'], res['scores']), key=lambda x: x[1])] *)
Definition best_of (res : ZeroShot.t) : result (string * float) :=
  py_max float_gt snd (combine (ZeroShot.labels res) (ZeroShot.scores res)).

(** The body of the [for] loop, for the row at position [i]. *)
Definition loop_body (results : list ZeroShot.t) (raw_texts : list (list N))
  (i : nat) (row : Row.t) (acc : Acc) : result Acc :=
  (res <- getitem results i ;;
   '(best_topic, best_score) <- best_of res ;;
   text_i <- getitem raw_texts i ;;
   let processed :=
     processed_reviews acc
     ++ [ReviewDetail.mk text_i (Row.rating row) best_topic best_score] in
   let topics :=
     Dict.set (topic_counts acc) best_topic
       (Dict.get_or (topic_counts acc) best_topic 0 + 1) in
   sentiments <-
     (if Row.rating row >=? 4 then incr (sentiment_counts acc) "Positive"
      else if Row.rating row <=? 2 then incr (sentiment_counts acc) "Negative"
      else incr (sentiment_counts acc) "Neutral") ;;
   Ok (mkAcc processed topics sentiments))%py.

Fixpoint loop (results : list ZeroShot.t) (raw_texts : list (list N))
  (i : nat) (rows : list Row.t) (acc : Acc) : result Acc :=
  match rows with
  | [] => Ok acc
  | row :: rest =>
      (acc' <- loop_body results raw_texts i row acc ;;
       loop results raw_texts (S i) rest acc')%py
  end.

Definition init_acc : Acc :=
  mkAcc [] [] [("Positive", 0); ("Negative", 0); ("Neutral", 0)]%string.

(** [{k: v / total for k, v in topic_counts.items()}] *)
Fixpoint percentages (d : Dict.t Z) (total : Z) : result (Dict.t float) :=
  match d with
  | [] => Ok []
  | (k, v) :: r =>
      (q <- truediv v total ;;
       r' <- percentages r total ;;
       Ok ((k, q) :: r'))%py
  end.

(** Everything after the classifier has answered: lines 109 to 143. *)
Definition aggregate (product_reviews target_reviews : list Row.t)
  (raw_texts : list (list N)) (results : list ZeroShot.t) (meta : Row.t)
  : result ReviewAnalysis.t :=
  (acc <- loop results raw_texts O target_reviews init_acc ;;
   let total := len (processed_reviews acc) in
   ai_generated_text <-
     generate_smart_summary (topic_counts acc) (sentiment_counts acc) total ;;
   topic_percentages <- percentages (topic_counts acc) total ;;
   Ok (ReviewAnalysis.mk
         (len product_reviews)
         total
         (Row.product_title meta)
         (Row.product_image meta)
         (if PrimFloat.eqb (Row.average_rating meta) 0 then 0%float
          else Row.average_rating meta)
         (if Row.rating_number meta =? 0 then 0 else Row.rating_number meta)
         topic_percentages
         (sentiment_counts acc)
         (processed_reviews acc)
         ai_generated_text))%py.

(** ** The process: the cache and two counters

    [cache] is the content of the [lru_cache], most recently used first; a
    product without reviews is stored as [None] like any other return value.
    [classifier_calls] and [store_queries] count the calls of the classifier
    and the selections [df[df['parent_asin'] == asin]]. *)

Record World : Type := mkWorld {
  cache : list (string * option ReviewAnalysis.t);
  classifier_calls : nat;
  store_queries : nat
}.

Definition M (A : Type) : Type := World -> result A * World.

Definition with_cache (w : World) (c : list (string * option ReviewAnalysis.t))
  : World :=
  mkWorld c (classifier_calls w) (store_queries w).

Definition count_classifier_call (w : World) : World :=
  mkWorld (cache w) (S (classifier_calls w)) (store_queries w).

Definition count_store_query (w : World) : World :=
  mkWorld (cache w) (classifier_calls w) (S (store_queries w)).

(** *** [functools.lru_cache(maxsize)]

    A hit moves the entry to the most recent place. After a miss the
    function is called; if it returns, the result is stored, the least
    recently used entry leaving a full cache; if it raises, nothing is
    stored. A key that is already there when the result arrives (stored by
    another caller in the meantime) is left as it is. *)

Fixpoint lru_remove {V : Type} (k : string) (c : list (string * V))
  : list (string * V) :=
  match c with
  | [] => []
  | (k', v) :: r => if String.eqb k' k then r else (k', v) :: lru_remove k r
  end.

Definition lru_touch {V : Type} (k : string) (v : V) (c : list (string * V))
  : list (string * V) :=
  (k, v) :: lru_remove k c.

Definition lru_store {V : Type} (maxsize : nat) (k : string) (v : V)
  (c : list (string * V)) : list (string * V) :=
  match Dict.get c k with
  | Some _ => c
  | None =>
      if (maxsize <=? List.length c)%nat then (k, v) :: removelast c
      else (k, v) :: c
  end.

Section App.

(** The table loaded from [DATA_PATH], and the zero-shot pipeline: the
    number of calls made before, the texts, [candidate_labels] and
    [multi_label]. *)
Variable df : list Row.t.
Variable classifier :
  nat -> list (list N) -> list string -> bool -> result (list ZeroShot.t).

(** The function under the decorator. *)
Definition cached_inference_wrapped (asin : string) : M (option ReviewAnalysis.t) :=
  fun w =>
    let product_reviews :=
      filter (fun r => String.eqb (Row.parent_asin r) asin) df in
    let w := count_store_query w in
    match product_reviews with
    | [] => (Ok None, w)
    | meta :: _ =>
        let target_reviews :=
          head MAX_REVIEWS_TO_ANALYZE (sort_values product_reviews) in
        let raw_texts := map (fun r => clean_text (Row.text r)) target_reviews in
        let answer := classifier (classifier_calls w) raw_texts LABELS true in
        let w := count_classifier_call w in
        ((results <- answer ;;
          r <- aggregate product_reviews target_reviews raw_texts results meta ;;
          Ok (Some r))%py, w)
    end.

(** [@lru_cache(maxsize=50)] *)
Definition cached_inference (asin : string) : M (option ReviewAnalysis.t) :=
  fun w =>
    match Dict.get (cache w) asin with
    | Some v => (Ok v, with_cache w (lru_touch asin v (cache w)))
    | None =>
        match cached_inference_wrapped asin w with
        | (Ok v, w') => (Ok v, with_cache w' (lru_store 50 asin v (cache w')))
        | (Raise e, w') => (Raise e, w')
        end
    end.

(** [GET /analyze/{asin}] *)
Definition analyze_product (asin : string) : M ReviewAnalysis.t :=
  fun w =>
    match cached_inference asin w with
    | (Ok (Some result), w') => (Ok result, w')
    | (Ok None, w') => (Raise (HTTPException 404 "Product not found"), w')
    | (Raise e, w') => (Raise e, w')
    end.

End App.

Definition empty_world : World := mkWorld [] O O.

(** * Properties *)

(** ** The review selector *)

(** [a] may stand before [b]: [b] does not have to come first. *)
Definition in_order (a b : Row.t) : Prop := sorts_before b a = false.

(** The two rows agree on both sort keys. *)
Definition same_key (a b : Row.t) : bool :=
  (Row.helpful_vote a =? Row.helpful_vote b)
  && (Row.timestamp a =? Row.timestamp b).

(** [s] is a stable sort of [l]: a rearrangement of [l], in order, in which
    rows with equal keys stand as they stood in [l]. *)
Definition stable_sort_of (l s : list Row.t) : Prop :=
  Permutation s l
  /\ StronglySorted in_order s
  /\ forall z, filter (same_key z) s = filter (same_key z) l.

Lemma sorts_before_spec (a b : Row.t) :
  sorts_before a b = true <->
  Row.helpful_vote b < Row.helpful_vote a
  \/ (Row.helpful_vote a = Row.helpful_vote b
      /\ Row.timestamp b < Row.timestamp a).
Proof.
  unfold sorts_before.
  rewrite orb_true_iff, andb_true_iff, !Z.ltb_lt, Z.eqb_eq. tauto.
Qed.

Lemma in_order_spec (a b : Row.t) :
  in_order a b <->
  Row.helpful_vote b < Row.helpful_vote a
  \/ (Row.helpful_vote a = Row.helpful_vote b
      /\ Row.timestamp b <= Row.timestamp a).
Proof.
  unfold in_order. rewrite <- not_true_iff_false, sorts_before_spec. lia.
Qed.

Lemma same_key_spec (a b : Row.t) :
  same_key a b = true <->
  Row.helpful_vote a = Row.helpful_vote b
  /\ Row.timestamp a = Row.timestamp b.
Proof.
  unfold same_key. now rewrite andb_true_iff, !Z.eqb_eq.
Qed.

Lemma in_order_trans (a b c : Row.t) :
  in_order a b -> in_order b c -> in_order a c.
Proof. rewrite !in_order_spec. lia. Qed.

Lemma in_order_antisym (a b : Row.t) :
  in_order a b -> in_order b a -> same_key a b = true.
Proof. rewrite !in_order_spec, same_key_spec. lia. Qed.

Lemma sorts_before_in_order (a b : Row.t) :
  sorts_before a b = true -> in_order a b.
Proof. rewrite in_order_spec, sorts_before_spec. lia. Qed.

Lemma sorts_before_not_same_key (a b z : Row.t) :
  sorts_before a b = true -> same_key z a = true -> same_key z b = false.
Proof.
  rewrite sorts_before_spec, same_key_spec, <- not_true_iff_false, same_key_spec.
  lia.
Qed.

(** *** Insertion keeps the rows, the order and the ties *)

Lemma insert_row_perm (x : Row.t) (l : list Row.t) :
  Permutation (insert_row x l) (x :: l).
Proof.
  induction l as [|y r IH]; simpl; [reflexivity|].
  destruct (sorts_before y x); [|reflexivity].
  rewrite IH. apply perm_swap.
Qed.

Lemma sort_values_perm (l : list Row.t) : Permutation (sort_values l) l.
Proof.
  induction l as [|x r IH]; simpl; [constructor|].
  rewrite insert_row_perm. now constructor.
Qed.

Lemma insert_row_sorted (x : Row.t) (l : list Row.t) :
  StronglySorted in_order l -> StronglySorted in_order (insert_row x l).
Proof.
  induction 1 as [|y r Hr IH Hy]; simpl.
  - repeat constructor.
  - destruct (sorts_before y x) eqn:E.
    + constructor; [exact IH|].
      apply (Permutation_Forall (Permutation_sym (insert_row_perm x r))).
      constructor; [now apply sorts_before_in_order | exact Hy].
    + constructor; [now constructor|].
      constructor; [exact E|].
      revert Hy. apply Forall_impl. intros z Hz.
      now apply in_order_trans with y.
Qed.

Lemma sort_values_sorted (l : list Row.t) : StronglySorted in_order (sort_values l).
Proof.
  induction l as [|x r IH]; simpl; [constructor|].
  now apply insert_row_sorted.
Qed.

Lemma insert_row_stable (z x : Row.t) (l : list Row.t) :
  filter (same_key z) (insert_row x l) = filter (same_key z) (x :: l).
Proof.
  induction l as [|y r IH]; [reflexivity|].
  cbn [insert_row]. destruct (sorts_before y x) eqn:E; [|reflexivity].
  cbn [filter] in *. rewrite IH.
  destruct (same_key z y) eqn:Ey; [|reflexivity].
  now rewrite (sorts_before_not_same_key y x z E Ey).
Qed.

Lemma sort_values_stable (z : Row.t) (l : list Row.t) :
  filter (same_key z) (sort_values l) = filter (same_key z) l.
Proof.
  induction l as [|x r IH]; [reflexivity|].
  cbn [sort_values]. rewrite insert_row_stable. cbn [filter]. now rewrite IH.
Qed.

Lemma sort_values_is_stable_sort (l : list Row.t) :
  stable_sort_of l (sort_values l).
Proof.
  split; [apply sort_values_perm|].
  split; [apply sort_values_sorted | intro z; apply sort_values_stable].
Qed.

(** *** There is one stable sort *)

Lemma same_key_refl (a : Row.t) : same_key a a = true.
Proof. now apply same_key_spec. Qed.

Lemma sorted_same_ties_eq (s s' : list Row.t) :
  StronglySorted in_order s -> StronglySorted in_order s' ->
  (forall z, filter (same_key z) s = filter (same_key z) s') ->
  s = s'.
Proof.
  intros Hs. revert s'.
  induction Hs as [|x t Ht IH Hx]; intros s' Hs' Hf.
  - destruct s' as [|y t']; [reflexivity|].
    specialize (Hf y). cbn in Hf. now rewrite same_key_refl in Hf.
  - destruct Hs' as [|y t' Ht' Hy].
    { specialize (Hf x). cbn in Hf. now rewrite same_key_refl in Hf. }
    assert (Hxy : same_key x y = true).
    { apply in_order_antisym.
      - assert (In y (filter (same_key y) (x :: t))) as Hin.
        { rewrite Hf. cbn. rewrite same_key_refl. now left. }
        apply filter_In in Hin. destruct Hin as [[->|Hin] _].
        + apply in_order_spec. lia.
        + rewrite Forall_forall in Hx. now apply Hx.
      - assert (In x (filter (same_key x) (y :: t'))) as Hin.
        { rewrite <- Hf. cbn. rewrite same_key_refl. now left. }
        apply filter_In in Hin. destruct Hin as [[->|Hin] _].
        + apply in_order_spec. lia.
        + rewrite Forall_forall in Hy. now apply Hy. }
    assert (x = y) as <-.
    { specialize (Hf x). cbn in Hf.
      rewrite same_key_refl, Hxy in Hf. now injection Hf. }
    f_equal. apply IH; [exact Ht'|].
    intro z. specialize (Hf z). cbn in Hf.
    destruct (same_key z x); [now injection Hf | exact Hf].
Qed.

Lemma stable_sort_unique (l s : list Row.t) :
  stable_sort_of l s -> s = sort_values l.
Proof.
  intros (_ & Hs & Hf).
  destruct (sort_values_is_stable_sort l) as (_ & Hs' & Hf').
  apply sorted_same_ties_eq; [exact Hs | exact Hs' |].
  intro z. now rewrite Hf, Hf'.
Qed.

(** ** Dictionaries *)

(** [sum(d.values())] *)
Definition sum_values (d : Dict.t Z) : Z := fold_right Z.add 0 (Dict.values d).

Lemma get_set_same {V : Type} (d : Dict.t V) (k : string) (v : V) :
  Dict.get (Dict.set d k v) k = Some v.
Proof.
  induction d as [|[k' v'] r IH]; cbn.
  - now rewrite String.eqb_refl.
  - destruct (String.eqb k' k) eqn:E; cbn; now rewrite E.
Qed.

Lemma get_set_other {V : Type} (d : Dict.t V) (k k' : string) (v : V) :
  k <> k' -> Dict.get (Dict.set d k v) k' = Dict.get d k'.
Proof.
  intro Hne. induction d as [|[k0 v0] r IH]; cbn.
  - destruct (String.eqb_spec k k'); [contradiction | reflexivity].
  - destruct (String.eqb_spec k0 k) as [->|Hk]; cbn.
    + destruct (String.eqb_spec k k'); [contradiction | reflexivity].
    + now rewrite IH.
Qed.

Lemma get_None_keys {V : Type} (d : Dict.t V) (k : string) :
  Dict.get d k = None <-> ~ In k (Dict.keys d).
Proof.
  induction d as [|[k' v'] r IH]; cbn; [tauto|].
  destruct (String.eqb_spec k' k) as [->|Hk].
  - split; [discriminate | intro H; exfalso; apply H; now left].
  - rewrite IH. tauto.
Qed.

Lemma keys_set {V : Type} (d : Dict.t V) (k : string) (v : V) :
  Dict.keys (Dict.set d k v) =
  match Dict.get d k with
  | Some _ => Dict.keys d
  | None => Dict.keys d ++ [k]
  end.
Proof.
  induction d as [|[k' v'] r IH]; cbn; [reflexivity|].
  destruct (String.eqb k' k) eqn:E; cbn; [reflexivity|].
  fold (Dict.keys (Dict.set r k v)). rewrite IH.
  now destruct (Dict.get r k).
Qed.

Lemma nodup_keys_set {V : Type} (d : Dict.t V) (k : string) (v : V) :
  NoDup (Dict.keys d) -> NoDup (Dict.keys (Dict.set d k v)).
Proof.
  intro H. rewrite keys_set. destruct (Dict.get d k) eqn:E; [exact H|].
  apply get_None_keys in E.
  apply (Permutation_NoDup (Permutation_cons_append (Dict.keys d) k)).
  now constructor.
Qed.

Lemma sum_values_set (d : Dict.t Z) (k : string) (v : Z) :
  sum_values (Dict.set d k v) = sum_values d - Dict.get_or d k 0 + v.
Proof.
  unfold sum_values, Dict.get_or.
  induction d as [|[k' v'] r IH]; cbn; [lia|].
  destruct (String.eqb k' k) eqn:E; cbn; [lia|].
  fold (Dict.values (Dict.set r k v)). fold (Dict.values r). lia.
Qed.

Lemma get_In {V : Type} (d : Dict.t V) (k : string) (v : V) :
  Dict.get d k = Some v -> In (k, v) d.
Proof.
  induction d as [|[k' v'] r IH]; cbn; [discriminate|].
  destruct (String.eqb_spec k' k) as [->|Hk].
  - intros [= ->]. now left.
  - intro H. right. now apply IH.
Qed.

Lemma In_get {V : Type} (d : Dict.t V) (k : string) (v : V) :
  NoDup (Dict.keys d) -> In (k, v) d -> Dict.get d k = Some v.
Proof.
  induction d as [|[k' v'] r IH]; cbn; [contradiction|].
  intros Hnd [[= -> ->]|Hin].
  - now rewrite String.eqb_refl.
  - inversion Hnd as [|? ? Hk' Hr]; subst.
    destruct (String.eqb_spec k' k) as [->|Hk].
    + exfalso. apply Hk'. change k with (fst (k, v)). now apply in_map.
    + now apply IH.
Qed.

(** ** The aggregator *)

(** How many of the annotated reviews have a rating in [p], or topic [k]. *)
Definition count_rating (p : Z -> bool) (ds : list ReviewDetail.t) : Z :=
  len (filter (fun d => p (ReviewDetail.rating d)) ds).

Definition count_topic (k : string) (ds : list ReviewDetail.t) : Z :=
  len (filter (fun d => String.eqb (ReviewDetail.topic d) k) ds).

(** The three buckets as the rating alone decides them. *)
Definition breakdown_of (ds : list ReviewDetail.t) : Dict.t Z :=
  [ ("Positive"%string, count_rating (fun r => 4 <=? r) ds);
    ("Negative"%string, count_rating (fun r => r <=? 2) ds);
    ("Neutral"%string, count_rating (fun r => r =? 3) ds) ].

(** What the loop maintains between two rows. *)
Record acc_ok (acc : Acc) : Prop := mk_acc_ok {
  ok_sentiment : sentiment_counts acc = breakdown_of (processed_reviews acc);
  ok_nodup : NoDup (Dict.keys (topic_counts acc));
  ok_topics : forall k,
    Dict.get (topic_counts acc) k =
    if count_topic k (processed_reviews acc) =? 0 then None
    else Some (count_topic k (processed_reviews acc));
  ok_sum : sum_values (topic_counts acc) = len (processed_reviews acc)
}.

(** The annotated review [d] is what row [row], at position [i] of the
    selection, and the [i]-th answer of the classifier give. *)
Definition annotates (results : list ZeroShot.t) (raw_texts : list (list N))
  (i : nat) (row : Row.t) (d : ReviewDetail.t) : Prop :=
  exists res,
    nth_error results i = Some res
    /\ best_of res = Ok (ReviewDetail.topic d, ReviewDetail.topic_score d)
    /\ nth_error raw_texts i = Some (ReviewDetail.text d)
    /\ ReviewDetail.rating d = Row.rating row.

Lemma len_app {A : Type} (l l' : list A) : len (l ++ l') = len l + len l'.
Proof. unfold len. rewrite length_app. lia. Qed.

Lemma len_nonneg {A : Type} (l : list A) : 0 <= len l.
Proof. unfold len. lia. Qed.

Lemma count_rating_snoc (p : Z -> bool) (ds : list ReviewDetail.t)
  (d : ReviewDetail.t) :
  count_rating p (ds ++ [d]) =
  count_rating p ds + (if p (ReviewDetail.rating d) then 1 else 0).
Proof.
  unfold count_rating. rewrite filter_app, len_app. cbn.
  now destruct (p (ReviewDetail.rating d)).
Qed.

Lemma count_topic_snoc (k : string) (ds : list ReviewDetail.t)
  (d : ReviewDetail.t) :
  count_topic k (ds ++ [d]) =
  count_topic k ds + (if String.eqb (ReviewDetail.topic d) k then 1 else 0).
Proof.
  unfold count_topic. rewrite filter_app, len_app. cbn.
  now destruct (String.eqb (ReviewDetail.topic d) k).
Qed.

Lemma count_topic_nonneg (k : string) (ds : list ReviewDetail.t) :
  0 <= count_topic k ds.
Proof. apply len_nonneg. Qed.

Lemma getitem_Ok {A : Type} (l : list A) (i : nat) (x : A) :
  getitem l i = Ok x <-> nth_error l i = Some x.
Proof.
  unfold getitem. destruct (nth_error l i); split; congruence.
Qed.

Lemma init_acc_ok : acc_ok init_acc.
Proof.
  split; cbn; try reflexivity.
  - constructor.
Qed.

(** One turn of the loop: the review appended is the annotation of the row,
    and the counts follow. *)
Lemma loop_body_ok (results : list ZeroShot.t) (raw_texts : list (list N))
  (i : nat) (row : Row.t) (acc acc' : Acc) :
  acc_ok acc ->
  loop_body results raw_texts i row acc = Ok acc' ->
  acc_ok acc'
  /\ exists d, processed_reviews acc' = processed_reviews acc ++ [d]
               /\ annotates results raw_texts i row d.
Proof.
  intros [Hs Hnd Ht Hsum]. unfold loop_body.
  destruct (getitem results i) as [res|] eqn:Eres; [|discriminate].
  cbn [rbind].
  destruct (best_of res) as [[best_topic best_score]|] eqn:Ebest; [|discriminate].
  cbn [rbind].
  destruct (getitem raw_texts i) as [text_i|] eqn:Etext; [|discriminate].
  cbn [rbind].
  set (d := ReviewDetail.mk text_i (Row.rating row) best_topic best_score).
  intro H.
  assert (Hsent :
    (if Row.rating row >=? 4 then incr (sentiment_counts acc) "Positive"
     else if Row.rating row <=? 2 then incr (sentiment_counts acc) "Negative"
     else incr (sentiment_counts acc) "Neutral")
    = Ok (breakdown_of (processed_reviews acc ++ [d]))).
  { rewrite Hs. unfold breakdown_of. rewrite !count_rating_snoc. cbn.
    rewrite Z.geb_leb.
    destruct (4 <=? Row.rating row) eqn:E4;
      destruct (Row.rating row <=? 2) eqn:E2;
      destruct (Row.rating row =? 3) eqn:E3;
      cbn; rewrite ?Z.add_0_r; try reflexivity; exfalso;
      rewrite ?Z.leb_le, ?Z.leb_gt, ?Z.eqb_eq, ?Z.eqb_neq in *; lia. }
  rewrite Hsent in H. cbn [rbind] in H. injection H as <-.
  split.
  - split; cbn [sentiment_counts processed_reviews topic_counts].
    + reflexivity.
    + now apply nodup_keys_set.
    + intro k. rewrite count_topic_snoc. cbn [ReviewDetail.topic d].
      pose proof (count_topic_nonneg k (processed_reviews acc)) as Hk.
      destruct (String.eqb_spec best_topic k) as [->|Hne].
      * rewrite get_set_same. unfold Dict.get_or. rewrite Ht.
        destruct (count_topic k (processed_reviews acc) =? 0) eqn:E0.
        -- apply Z.eqb_eq in E0. now rewrite E0.
        -- destruct (count_topic k (processed_reviews acc) + 1 =? 0) eqn:E1;
             [apply Z.eqb_eq in E1; lia | reflexivity].
      * rewrite get_set_other by exact Hne. rewrite Ht. now rewrite Z.add_0_r.
    + rewrite sum_values_set, len_app. cbn. lia.
  - exists d. split; [reflexivity|].
    exists res. cbn. apply getitem_Ok in Eres. apply getitem_Ok in Etext.
    now repeat split.
Qed.

Lemma loop_ok (results : list ZeroShot.t) (raw_texts : list (list N))
  (rows : list Row.t) :
  forall (i : nat) (acc acc' : Acc),
    acc_ok acc ->
    loop results raw_texts i rows acc = Ok acc' ->
    acc_ok acc'
    /\ exists ds,
        processed_reviews acc' = processed_reviews acc ++ ds
        /\ List.length ds = List.length rows
        /\ forall j row d,
            nth_error rows j = Some row -> nth_error ds j = Some d ->
            annotates results raw_texts (i + j) row d.
Proof.
  induction rows as [|row rest IH]; intros i acc acc' Hok H.
  - injection H as <-. split; [exact Hok|].
    exists []. rewrite app_nil_r. repeat split.
    intros [|j] ? ? ?; discriminate.
  - cbn [loop] in H.
    destruct (loop_body results raw_texts i row acc) as [acc1|] eqn:E1;
      [|discriminate].
    cbn [rbind] in H.
    destruct (loop_body_ok _ _ _ _ _ _ Hok E1) as (Hok1 & d & Hd & Hann).
    destruct (IH _ _ _ Hok1 H) as (Hok' & ds & Hds & Hlen & Hall).
    split; [exact Hok'|].
    exists (d :: ds). split; [|split].
    + rewrite Hds, Hd, <- app_assoc. reflexivity.
    + cbn. now rewrite Hlen.
    + intros [|j] row' d'; cbn.
      * intros [= <-] [= <-]. now rewrite Nat.add_0_r.
      * intros Hr Hd'. rewrite Nat.add_succ_r. now apply (Hall j).
Qed.

(** ** [max] returns the first greatest item *)

Section FirstMax.
Variables (A K : Type) (gt : K -> K -> bool) (key : A -> K).

(** The keys that compare: on floats every one but NaN. *)
Variable comparable : K -> Prop.
Hypothesis gt_irrefl : forall a, gt a a = false.
Hypothesis gt_trans : forall a b c, gt a b = true -> gt b c = true -> gt a c = true.
Hypothesis gt_total : forall a b c,
  comparable c -> gt c b = false -> gt a b = true -> gt a c = true.

(** [best], at position [i] of [l], is the first greatest item of [l]. *)
Definition first_max (l : list A) (i : nat) (best : A) : Prop :=
  nth_error l i = Some best
  /\ (forall y, In y l -> gt (key y) (key best) = false)
  /\ (forall j y, (j < i)%nat -> nth_error l j = Some y ->
        comparable (key y) -> gt (key best) (key y) = true).

Lemma max_from_first_max (r : list A) :
  forall (seen : list A) (i : nat) (best : A),
    first_max seen i best ->
    exists i', first_max (seen ++ r) i' (max_from gt key best r).
Proof.
  induction r as [|x r IH]; intros seen i best Hb.
  - exists i. now rewrite app_nil_r.
  - cbn [max_from].
    replace (seen ++ x :: r) with ((seen ++ [x]) ++ r)
      by now rewrite <- app_assoc.
    destruct Hb as (Hi & Hall & Hbefore).
    assert (Hlt : (i < List.length seen)%nat)
      by (apply nth_error_Some; congruence).
    destruct (gt (key x) (key best)) eqn:E.
    + apply (IH (seen ++ [x]) (List.length seen) x). split; [|split].
      * rewrite nth_error_app2 by lia. now rewrite Nat.sub_diag.
      * intros y Hy. apply in_app_or in Hy. destruct Hy as [Hy|[<-|[]]].
        -- destruct (gt (key y) (key x)) eqn:Ey; [|reflexivity].
           rewrite <- (Hall y Hy). symmetry. now apply gt_trans with (key x).
        -- apply gt_irrefl.
      * intros j y Hj Hy Hc.
        rewrite nth_error_app1 in Hy by exact Hj.
        apply gt_total with (key best); [exact Hc | | exact E].
        apply Hall. now apply nth_error_In with j.
    + apply (IH (seen ++ [x]) i best). split; [|split].
      * rewrite nth_error_app1 by exact Hlt. exact Hi.
      * intros y Hy. apply in_app_or in Hy. destruct Hy as [Hy|[<-|[]]].
        -- now apply Hall.
        -- exact E.
      * intros j y Hj Hy Hc.
        rewrite nth_error_app1 in Hy by lia. now apply Hbefore with j.
Qed.

Lemma py_max_first_max (l : list A) (best : A) :
  py_max gt key l = Ok best -> exists i, first_max l i best.
Proof.
  destruct l as [|x r]; [discriminate|]. cbn. intros [= <-].
  apply (max_from_first_max r [x] 0 x). split; [reflexivity|]. split.
  - intros y [<-|[]]. apply gt_irrefl.
  - intros j y Hj. lia.
Qed.

Lemma py_max_total (l : list A) :
  l <> [] -> exists best, py_max gt key l = Ok best.
Proof. destruct l; [congruence|]. intros _. cbn. eauto. Qed.

End FirstMax.

Arguments first_max {A K} gt key comparable l i best.

(** ** The order of floats

    [PrimFloat.ltb] is specified on the unpacked floats ([FloatAxioms.ltb_spec]);
    there it is a strict order, total on everything but NaN. *)

Ltac sf_compare :=
  unfold SFltb, SFcompare;
  repeat match goal with
    | |- context [PosDef.Pos.compare_cont Eq ?a ?b] =>
        change (PosDef.Pos.compare_cont Eq a b) with (Pos.compare a b)
    end;
  repeat match goal with
    | |- context [Z.compare ?a ?b] => destruct (Z.compare_spec a b)
    | |- context [Pos.compare ?a ?b] => destruct (Pos.compare_spec a b)
    end;
  cbn; try reflexivity; try discriminate; try congruence; try lia.

Lemma SFltb_irrefl (x : spec_float) : SFltb x x = false.
Proof. destruct x as [[]|[]| |[] m e]; sf_compare. Qed.

Lemma SFltb_trans (x y z : spec_float) :
  SFltb x y = true -> SFltb y z = true -> SFltb x z = true.
Proof.
  destruct x as [[]|[]| |[] m1 e1], y as [[]|[]| |[] m2 e2],
    z as [[]|[]| |[] m3 e3]; sf_compare.
Qed.

Lemma SFltb_total (x y z : spec_float) :
  y <> S754_nan -> SFltb x y = false -> SFltb x z = true -> SFltb y z = true.
Proof.
  destruct x as [[]|[]| |[] m1 e1], y as [[]|[]| |[] m2 e2],
    z as [[]|[]| |[] m3 e3]; sf_compare.
Qed.

Lemma not_nan_Prim2SF (x : float) :
  PrimFloat.is_nan x = false -> Prim2SF x <> S754_nan.
Proof.
  intro H. unfold Prim2SF. rewrite H.
  destruct (is_zero x); [discriminate|].
  destruct (is_infinity x); [discriminate|].
  destruct (Z.frexp x) as [r e].
  destruct (shr_fexp prec emax (Uint63Axioms.to_Z (normfr_mantissa r)) (e - prec) loc_Exact) as [shr e'].
  destruct (shr_m shr); discriminate.
Qed.

Lemma float_gt_irrefl (a : float) : float_gt a a = false.
Proof. unfold float_gt. rewrite ltb_spec. apply SFltb_irrefl. Qed.

Lemma float_gt_trans (a b c : float) :
  float_gt a b = true -> float_gt b c = true -> float_gt a c = true.
Proof.
  unfold float_gt. rewrite !ltb_spec. intros Hab Hbc.
  now apply SFltb_trans with (Prim2SF b).
Qed.

Lemma float_gt_total (a b c : float) :
  PrimFloat.is_nan c = false ->
  float_gt c b = false -> float_gt a b = true -> float_gt a c = true.
Proof.
  unfold float_gt. rewrite !ltb_spec. intros Hc Hcb Hab.
  apply SFltb_total with (Prim2SF b); [now apply not_nan_Prim2SF | exact Hcb | exact Hab].
Qed.

(** ** The quotients [v / total] of the pipeline

    The loop runs over at most 50 rows, so a topic fraction is the double
    [v / total] with [1 <= v <= total <= 50]. There are 1275 of them; each
    is checked to be a finite double in (0, 1] within [2^-54] (half a unit in
    the last place) of the rational [v / total]. *)

Definition half_ulp : Q := 1 # (2 ^ 54).

Definition near (x : Q) (v total : Z) : Prop :=
  ((v # Z.to_pos total) - half_ulp <= x <= (v # Z.to_pos total) + half_ulp)%Q.

Definition frac_ok (v total : Z) : bool :=
  match truediv v total with
  | Ok q =>
      match float_val q with
      | Some x =>
          Qle_bool ((v # Z.to_pos total) - half_ulp)%Q x
          && Qle_bool x ((v # Z.to_pos total) + half_ulp)%Q
          && negb (Qle_bool x 0%Q) && Qle_bool x 1%Q
          && float_gt q 0 && negb (float_gt q 1)
      | None => false
      end
  | Raise _ => false
  end.

Lemma frac_table :
  forallb (fun total =>
    forallb (fun v => frac_ok (Z.of_nat v) (Z.of_nat total)) (seq 1 total))
    (seq 1 50) = true.
Proof. vm_compute. reflexivity. Qed.

Lemma frac_ok_range (v total : Z) :
  1 <= v <= total -> total <= 50 -> frac_ok v total = true.
Proof.
  intros Hv Ht.
  assert (H1 : In (Z.to_nat total) (seq 1 50)) by (apply in_seq; lia).
  assert (H2 : In (Z.to_nat v) (seq 1 (Z.to_nat total))) by (apply in_seq; lia).
  pose proof (proj1 (forallb_forall _ _) frac_table _ H1) as H.
  pose proof (proj1 (forallb_forall _ _) H _ H2) as H'.
  cbv beta in H'. rewrite !Z2Nat.id in H' by lia. exact H'.
Qed.

Lemma frac_spec (v total : Z) :
  1 <= v <= total -> total <= 50 ->
  exists q x,
    truediv v total = Ok q /\ float_val q = Some x
    /\ near x v total /\ (0 < x <= 1)%Q
    /\ float_gt q 0 = true /\ float_gt q 1 = false.
Proof.
  intros Hv Ht. pose proof (frac_ok_range v total Hv Ht) as H.
  unfold frac_ok in H.
  destruct (truediv v total) as [q|]; [|discriminate].
  destruct (float_val q) as [x|] eqn:Ex; [|discriminate].
  rewrite !andb_true_iff, !negb_true_iff, !Qle_bool_iff in H.
  destruct H as (((((H1 & H2) & H3) & H4) & H5) & H6).
  exists q, x.
  split; [reflexivity|]. split; [exact Ex|].
  split; [now split|]. split; [split; [|exact H4]|now split].
  apply Qnot_le_lt. intro Hc. apply Qle_bool_iff in Hc. congruence.
Qed.

(** ** Topic fractions *)

(** The sum of finite doubles, without rounding. *)
Fixpoint exact_sum (l : list float) : option Q :=
  match l with
  | [] => Some 0%Q
  | x :: r =>
      match float_val x, exact_sum r with
      | Some a, Some b => Some (a + b)%Q
      | _, _ => None
      end
  end.

(** [n] halves of a unit in the last place *)
Definition tol (n : nat) : Q := (inject_Z (Z.of_nat n) * half_ulp)%Q.

Lemma tol_S (n : nat) : (tol (S n) == tol n + half_ulp)%Q.
Proof.
  unfold tol. rewrite Nat2Z.inj_succ, <- Z.add_1_r, inject_Z_plus. ring.
Qed.

Lemma tol_mono (n m : nat) : (n <= m)%nat -> (tol n <= tol m)%Q.
Proof.
  intro H. unfold tol. apply Qmult_le_compat_r; [|discriminate].
  rewrite <- Zle_Qle. lia.
Qed.

Lemma Qmake_add (a b : Z) (p : positive) : ((a # p) + (b # p) == (a + b) # p)%Q.
Proof. unfold Qeq, Qplus. cbn. nia. Qed.

(** A dictionary of counts between 1 and [total], as the loop builds. *)
Definition counts_within (d : Dict.t Z) (total : Z) : Prop :=
  Forall (fun kv => 1 <= snd kv <= total) d.

Lemma percentages_spec (total : Z) (d : Dict.t Z) :
  total <= 50 -> counts_within d total ->
  exists tp s,
    percentages d total = Ok tp
    /\ Dict.keys tp = Dict.keys d
    /\ Forall2 (fun kv kq => fst kq = fst kv
                             /\ truediv (snd kv) total = Ok (snd kq)) d tp
    /\ Forall (fun q => float_gt q 0 = true /\ float_gt q 1 = false
                        /\ exists x, float_val q = Some x /\ (0 < x <= 1)%Q)
         (Dict.values tp)
    /\ exact_sum (Dict.values tp) = Some s
    /\ ((sum_values d # Z.to_pos total) - tol (List.length d) <= s
        <= (sum_values d # Z.to_pos total) + tol (List.length d))%Q.
Proof.
  intros Ht. induction 1 as [|[k v] r Hv Hr IH].
  - exists [], 0%Q. cbn. repeat split; try constructor; discriminate.
  - destruct IH as (tp & s & Hp & Hk & Hq & Hpos & Hs & Hlo & Hhi).
    destruct (frac_spec v total Hv Ht)
      as (q & x & Hdiv & Hx & [Hxlo Hxhi] & Hx01 & Hq0 & Hq1).
    exists ((k, q) :: tp), (x + s)%Q.
    cbn [percentages]. rewrite Hdiv. cbn [rbind]. rewrite Hp. cbn [rbind].
    split; [reflexivity|].
    split; [unfold Dict.keys in *; cbn; now f_equal|].
    split; [constructor; [now split | exact Hq]|].
    split; [constructor; [|exact Hpos]; repeat split; try assumption;
            exists x; now split|].
    split; [change (Dict.values ((k, q) :: tp)) with (q :: Dict.values tp);
            cbn [exact_sum]; now rewrite Hx, Hs|].
    change (sum_values ((k, v) :: r)) with (v + sum_values r).
    cbn [List.length]. rewrite tol_S, <- Qmake_add.
    split.
    + apply Qle_trans with (((v # Z.to_pos total) - half_ulp)
                            + ((sum_values r # Z.to_pos total) - tol (List.length r)))%Q.
      * apply Qle_lteq. right. ring.
      * now apply Qplus_le_compat.
    + apply Qle_trans with (((v # Z.to_pos total) + half_ulp)
                            + ((sum_values r # Z.to_pos total) + tol (List.length r)))%Q.
      * now apply Qplus_le_compat.
      * apply Qle_lteq. right. ring.
Qed.

(** ** What a successful analysis is made of *)

Section Analysis.
Variable df : list Row.t.

Definition product_reviews_of (asin : string) : list Row.t :=
  filter (fun r => String.eqb (Row.parent_asin r) asin) df.

Definition target_reviews_of (asin : string) : list Row.t :=
  head MAX_REVIEWS_TO_ANALYZE (sort_values (product_reviews_of asin)).

Definition raw_texts_of (asin : string) : list (list N) :=
  map (fun r => clean_text (Row.text r)) (target_reviews_of asin).

(** [a] is the analysis of [asin] built from the answer [results] of the
    classifier. *)
Definition built_from (asin : string) (results : list ZeroShot.t)
  (a : ReviewAnalysis.t) : Prop :=
  exists meta rest,
    product_reviews_of asin = meta :: rest
    /\ aggregate (product_reviews_of asin) (target_reviews_of asin)
         (raw_texts_of asin) results meta = Ok a.

(** The topic counts behind [a]: one entry per topic that occurs, with the
    number of reviews that have it. *)
Definition topic_counts_of (a : ReviewAnalysis.t) (tc : Dict.t Z) : Prop :=
  NoDup (Dict.keys tc)
  /\ (forall k, Dict.get tc k =
                if count_topic k (ReviewAnalysis.reviews a) =? 0 then None
                else Some (count_topic k (ReviewAnalysis.reviews a)))
  /\ sum_values tc = ReviewAnalysis.analyzed_count a
  /\ percentages tc (ReviewAnalysis.analyzed_count a)
     = Ok (ReviewAnalysis.top_topics a)
  /\ generate_smart_summary tc (ReviewAnalysis.sentiment_breakdown a)
       (ReviewAnalysis.analyzed_count a)
     = Ok (ReviewAnalysis.ai_summary a).

Lemma target_length (asin : string) :
  len (target_reviews_of asin) = Z.min (len (product_reviews_of asin)) 50.
Proof.
  unfold target_reviews_of, head, len, MAX_REVIEWS_TO_ANALYZE.
  rewrite length_firstn, (Permutation_length (sort_values_perm _)). lia.
Qed.

Lemma built_from_facts (asin : string) (results : list ZeroShot.t)
  (a : ReviewAnalysis.t) :
  built_from asin results a ->
  ReviewAnalysis.total_reviews_local a = len (product_reviews_of asin)
  /\ 1 <= ReviewAnalysis.total_reviews_local a
  /\ ReviewAnalysis.analyzed_count a = len (ReviewAnalysis.reviews a)
  /\ List.length (ReviewAnalysis.reviews a) = List.length (target_reviews_of asin)
  /\ ReviewAnalysis.sentiment_breakdown a = breakdown_of (ReviewAnalysis.reviews a)
  /\ (forall j row d,
        nth_error (target_reviews_of asin) j = Some row ->
        nth_error (ReviewAnalysis.reviews a) j = Some d ->
        annotates results (raw_texts_of asin) j row d)
  /\ exists tc, topic_counts_of a tc.
Proof.
  intros (meta & rest & Hpr & Hagg). unfold aggregate in Hagg.
  destruct (loop results (raw_texts_of asin) 0 (target_reviews_of asin) init_acc)
    as [acc|] eqn:Eloop; [|discriminate].
  cbn [rbind] in Hagg.
  destruct (generate_smart_summary (topic_counts acc) (sentiment_counts acc)
              (len (processed_reviews acc))) as [txt|] eqn:Esum; [|discriminate].
  cbn [rbind] in Hagg.
  destruct (percentages (topic_counts acc) (len (processed_reviews acc)))
    as [tp|] eqn:Epct; [|discriminate].
  cbn [rbind] in Hagg. injection Hagg as <-.
  destruct (loop_ok _ _ _ _ _ _ init_acc_ok Eloop)
    as ([Hs Hnd Ht Hsum] & ds & Hds & Hlen & Hann).
  cbn [processed_reviews init_acc app] in Hds. subst ds.
  cbn [ReviewAnalysis.total_reviews_local ReviewAnalysis.analyzed_count
       ReviewAnalysis.reviews ReviewAnalysis.sentiment_breakdown
       ReviewAnalysis.top_topics ReviewAnalysis.ai_summary].
  split; [reflexivity|].
  split; [rewrite Hpr; unfold len; cbn [List.length]; lia|].
  split; [reflexivity|].
  split; [exact Hlen|].
  split; [exact Hs|].
  split; [exact Hann|].
  exists (topic_counts acc). unfold topic_counts_of.
  cbn [ReviewAnalysis.total_reviews_local ReviewAnalysis.analyzed_count
       ReviewAnalysis.reviews ReviewAnalysis.sentiment_breakdown
       ReviewAnalysis.top_topics ReviewAnalysis.ai_summary].
  now repeat split.
Qed.

Lemma built_from_count (asin : string) (results : list ZeroShot.t)
  (a : ReviewAnalysis.t) :
  built_from asin results a ->
  ReviewAnalysis.analyzed_count a
  = Z.min (ReviewAnalysis.total_reviews_local a) 50
  /\ 1 <= ReviewAnalysis.analyzed_count a <= 50.
Proof.
  intro H. destruct (built_from_facts _ _ _ H) as (Ht & H1 & Hc & Hl & _).
  rewrite Hc, Ht in *. unfold len at 1 3 4. rewrite Hl.
  fold (len (target_reviews_of asin)). rewrite target_length. lia.
Qed.

End Analysis.

(** ** The cache *)

Lemma get_lru_touch {V : Type} (k : string) (v : V) (c : list (string * V)) :
  Dict.get (lru_touch k v c) k = Some v.
Proof. unfold lru_touch. cbn. now rewrite String.eqb_refl. Qed.

Lemma get_lru_store {V : Type} (n : nat) (k : string) (v : V)
  (c : list (string * V)) :
  Dict.get c k = None -> Dict.get (lru_store n k v c) k = Some v.
Proof.
  intro H. unfold lru_store. rewrite H.
  destruct (n <=? List.length c)%nat; cbn; now rewrite String.eqb_refl.
Qed.

Lemma In_lru_remove {V : Type} (k : string) (c : list (string * V))
  (e : string * V) :
  In e (lru_remove k c) -> In e c.
Proof.
  induction c as [|[k' v'] r IH]; cbn; [tauto|].
  destruct (String.eqb k' k); cbn; tauto.
Qed.

Lemma In_removelast {A : Type} (l : list A) (x : A) :
  In x (removelast l) -> In x l.
Proof.
  induction l as [|y r IH]; cbn; [tauto|].
  destruct r; [contradiction|]. intros [->|H]; [now left | right; now apply IH].
Qed.

Lemma In_lru_store {V : Type} (n : nat) (k : string) (v : V)
  (c : list (string * V)) (e : string * V) :
  In e (lru_store n k v c) -> e = (k, v) \/ In e c.
Proof.
  unfold lru_store. destruct (Dict.get c k); [tauto|].
  destruct (n <=? List.length c)%nat; cbn.
  - intros [<-|H]; [now left | right; now apply In_removelast].
  - intros [<-|H]; tauto.
Qed.

Section Service.
Variable df : list Row.t.
Variable classifier :
  nat -> list (list N) -> list string -> bool -> result (list ZeroShot.t).

(** The classifier's answer to the [n]-th call for [asin], reduced. *)
Definition pipeline (n : nat) (asin : string) : result (option ReviewAnalysis.t) :=
  match product_reviews_of df asin with
  | [] => Ok None
  | meta :: _ =>
      (results <- classifier n (raw_texts_of df asin) LABELS true ;;
       r <- aggregate (product_reviews_of df asin) (target_reviews_of df asin)
              (raw_texts_of df asin) results meta ;;
       Ok (Some r))%py
  end.

Lemma wrapped_eq (asin : string) (w : World) :
  cached_inference_wrapped df classifier asin w =
  (pipeline (classifier_calls w) asin,
   match product_reviews_of df asin with
   | [] => count_store_query w
   | _ :: _ => count_classifier_call (count_store_query w)
   end).
Proof.
  unfold cached_inference_wrapped, pipeline.
  fold (product_reviews_of df asin).
  destruct (product_reviews_of df asin) eqn:E; [reflexivity|].
  rewrite <- E. reflexivity.
Qed.

(** [a] came out of the pipeline for [asin], at some call of the classifier. *)
Definition computed (asin : string) (a : ReviewAnalysis.t) : Prop :=
  exists n results,
    classifier n (raw_texts_of df asin) LABELS true = Ok results
    /\ built_from df asin results a.

Lemma pipeline_Some (n : nat) (asin : string) (a : ReviewAnalysis.t) :
  pipeline n asin = Ok (Some a) -> computed asin a.
Proof.
  unfold pipeline, computed, built_from.
  destruct (product_reviews_of df asin) as [|meta rest] eqn:E; [discriminate|].
  destruct (classifier n (raw_texts_of df asin) LABELS true) as [results|] eqn:Ec;
    [|discriminate].
  cbn [rbind].
  destruct (aggregate (meta :: rest) (target_reviews_of df asin)
              (raw_texts_of df asin) results meta) as [r|] eqn:Ea; [|discriminate].
  cbn [rbind]. intros [= <-].
  exists n, results. split; [exact Ec|]. now exists meta, rest.
Qed.

Lemma pipeline_None (n : nat) (asin : string) :
  pipeline n asin = Ok None <-> product_reviews_of df asin = [].
Proof.
  unfold pipeline.
  destruct (product_reviews_of df asin) as [|meta rest]; [tauto|].
  split; [|discriminate].
  destruct (classifier n (raw_texts_of df asin) LABELS true); [|discriminate].
  cbn [rbind]. destruct (aggregate _ _ _ _ _); discriminate.
Qed.

(** Every entry of the cache is a finished analysis of its key, or [None]
    for a key without reviews. *)
Definition cache_sound (w : World) : Prop :=
  forall k v, In (k, v) (cache w) ->
    match v with
    | Some a => computed k a
    | None => product_reviews_of df k = []
    end.

(** The worlds the service goes through, one request after another. *)
Inductive reachable : World -> Prop :=
| reach_start : reachable empty_world
| reach_call (asin : string) (w : World) :
    reachable w -> reachable (snd (analyze_product df classifier asin w)).

Lemma inference_sound (asin : string) (w : World) :
  cache_sound w ->
  cache_sound (snd (cached_inference df classifier asin w))
  /\ match fst (cached_inference df classifier asin w) with
     | Ok (Some a) => computed asin a
     | Ok None => product_reviews_of df asin = []
     | Raise _ => True
     end.
Proof.
  intro Hw. unfold cached_inference.
  destruct (Dict.get (cache w) asin) as [v|] eqn:Eg.
  - cbn [fst snd]. split.
    + intros k v' [[= <- <-]|Hin]; cbn [cache with_cache] in *.
      * apply (Hw asin v). now apply get_In.
      * apply Hw. cbn in Hin. now apply In_lru_remove in Hin.
    + apply get_In in Eg. apply Hw in Eg. now destruct v.
  - rewrite wrapped_eq.
    destruct (pipeline (classifier_calls w) asin) as [v|e] eqn:Ep; cbn [fst snd].
    + assert (Hv : match v with
                   | Some a => computed asin a
                   | None => product_reviews_of df asin = []
                   end).
      { destruct v as [a|]; [now apply pipeline_Some in Ep
                            | now apply pipeline_None in Ep]. }
      split; [|now destruct v].
      intros k v' Hin. cbn [cache with_cache] in Hin.
      apply In_lru_store in Hin. destruct Hin as [[= -> ->]|Hin]; [exact Hv|].
      apply Hw. now destruct (product_reviews_of df asin).
    + split; [|exact I].
      intros k v' Hin. apply Hw. now destruct (product_reviews_of df asin).
Qed.

Lemma analyze_cache (asin : string) (w : World) :
  snd (analyze_product df classifier asin w) = snd (cached_inference df classifier asin w).
Proof.
  unfold analyze_product.
  destruct (cached_inference df classifier asin w) as [[[a|]|e] w']; reflexivity.
Qed.

Lemma reachable_sound (w : World) : reachable w -> cache_sound w.
Proof.
  induction 1 as [|asin w Hr IH].
  - intros k v [].
  - rewrite analyze_cache. now apply inference_sound.
Qed.

End Service.

(** ** Results of [analyze_product] *)

Lemma analyze_computed (df : list Row.t)
  (classifier : nat -> list (list N) -> list string -> bool
                -> result (list ZeroShot.t))
  (w : World) (asin : string) (a : ReviewAnalysis.t) :
  reachable df classifier w ->
  fst (analyze_product df classifier asin w) = Ok a ->
  computed df classifier asin a.
Proof.
  intros Hr Ha. apply reachable_sound in Hr.
  destruct (inference_sound df classifier asin w Hr) as [_ H].
  unfold analyze_product in Ha.
  destruct (cached_inference df classifier asin w) as [[[a'|]|e] w'];
    cbn [fst] in *; try discriminate.
  now injection Ha as <-.
Qed.

Lemma map_eq_nth {A B C : Type} (f : A -> C) (g : B -> C) :
  forall (l : list A) (l' : list B),
    List.length l = List.length l' ->
    (forall j x y, nth_error l j = Some x -> nth_error l' j = Some y -> f x = g y) ->
    map f l = map g l'.
Proof.
  induction l as [|x l IH]; intros [|y l'] Hlen H; try discriminate.
  - reflexivity.
  - cbn. f_equal.
    + apply (H O); reflexivity.
    + apply IH; [now injection Hlen|].
      intros j x' y' Hx Hy. now apply (H (S j)).
Qed.

Lemma built_from_rows (df : list Row.t) (asin : string)
  (results : list ZeroShot.t) (a : ReviewAnalysis.t) :
  built_from df asin results a ->
  map ReviewDetail.rating (ReviewAnalysis.reviews a)
  = map Row.rating (target_reviews_of df asin)
  /\ map ReviewDetail.text (ReviewAnalysis.reviews a)
     = map (fun r => clean_text (Row.text r)) (target_reviews_of df asin).
Proof.
  intro H. destruct (built_from_facts _ _ _ _ H) as (_ & _ & _ & Hl & _ & Hann & _).
  split; apply map_eq_nth; try exact Hl; intros j d row Hd Hrow;
    destruct (Hann j row d Hrow Hd) as (res & _ & _ & Htxt & Hrat).
  - exact Hrat.
  - unfold raw_texts_of in Htxt.
    rewrite (map_nth_error _ _ _ Hrow) in Htxt. now injection Htxt.
Qed.

(** C4. For a product with reviews, the rows analysed are the first
    [min(n, 50)] rows of the stable sort of its reviews by decreasing
    [helpful_vote], then decreasing [timestamp]; that sort is the only list
    that is a stable sort of the reviews, so selecting again gives the same
    rows in the same order; and [analyzed_count] is
    [min(total_reviews_local, 50)]. *)
Theorem selector_stable_top_50 (df : list Row.t)
  (classifier : nat -> list (list N) -> list string -> bool
                -> result (list ZeroShot.t))
  (w : World) (asin : string) (a : ReviewAnalysis.t) :
  reachable df classifier w ->
  fst (analyze_product df classifier asin w) = Ok a ->
  let rows := product_reviews_of df asin in
  let sorted := sort_values rows in
  stable_sort_of rows sorted
  /\ (forall s, stable_sort_of rows s -> s = sorted)
  /\ target_reviews_of df asin
     = firstn (Nat.min (List.length rows) 50) sorted
  /\ map ReviewDetail.rating (ReviewAnalysis.reviews a)
     = map Row.rating (target_reviews_of df asin)
  /\ map ReviewDetail.text (ReviewAnalysis.reviews a)
     = map (fun r => clean_text (Row.text r)) (target_reviews_of df asin)
  /\ ReviewAnalysis.total_reviews_local a = len rows
  /\ 1 <= ReviewAnalysis.total_reviews_local a
  /\ ReviewAnalysis.analyzed_count a
     = Z.min (ReviewAnalysis.total_reviews_local a) 50.
Proof.
  intros Hr Ha rows sorted.
  destruct (analyze_computed _ _ _ _ _ Hr Ha) as (n & results & _ & Hb).
  destruct (built_from_rows _ _ _ _ Hb) as [Hrat Htxt].
  destruct (built_from_facts _ _ _ _ Hb) as (Htot & H1 & _).
  destruct (built_from_count _ _ _ _ Hb) as [Hcount _].
  split; [apply sort_values_is_stable_sort|].
  split; [apply stable_sort_unique|].
  split.
  { unfold target_reviews_of, head, MAX_REVIEWS_TO_ANALYZE. fold rows sorted.
    assert (Hlen : List.length sorted = List.length rows)
      by apply (Permutation_length (sort_values_perm rows)).
    destruct (Nat.le_gt_cases (List.length rows) 50) as [Hle|Hgt].
    - rewrite Nat.min_l by exact Hle.
      rewrite !firstn_all2; [reflexivity | lia | lia].
    - now rewrite Nat.min_r by lia. }
  now repeat split.
Qed.

(** ** Sentiment *)

(** How many of the selected rows have a rating in [p]. *)
Definition count_rows (p : Z -> bool) (rows : list Row.t) : Z :=
  len (filter (fun r => p (Row.rating r)) rows).

Lemma len_filter_map {A B : Type} (f : A -> B) (p : B -> bool) (l : list A) :
  len (filter (fun x => p (f x)) l) = len (filter p (map f l)).
Proof.
  unfold len. f_equal.
  induction l as [|x l IH]; [reflexivity|].
  cbn. destruct (p (f x)); cbn; now rewrite IH.
Qed.

Lemma count_rating_rows (p : Z -> bool) (ds : list ReviewDetail.t)
  (rows : list Row.t) :
  map ReviewDetail.rating ds = map Row.rating rows ->
  count_rating p ds = count_rows p rows.
Proof.
  intro H. unfold count_rating, count_rows.
  now rewrite (len_filter_map ReviewDetail.rating), (len_filter_map Row.rating), H.
Qed.

Lemma neutral_is_three (r : Z) :
  (r =? 3) = negb (4 <=? r) && negb (r <=? 2).
Proof.
  destruct (Z.eqb_spec r 3), (Z.leb_spec 4 r), (Z.leb_spec r 2);
    cbn; try reflexivity; lia.
Qed.

Lemma breakdown_sum (ds : list ReviewDetail.t) :
  sum_values (breakdown_of ds) = len ds.
Proof.
  unfold breakdown_of, sum_values, count_rating, len. cbn.
  induction ds as [|d ds IH]; [reflexivity|].
  cbn [filter].
  destruct (Z.leb_spec 4 (ReviewDetail.rating d)),
           (Z.leb_spec (ReviewDetail.rating d) 2),
           (Z.eqb_spec (ReviewDetail.rating d) 3);
    cbn [List.length]; lia.
Qed.

(** C5. The three counts of [sentiment_breakdown] are the numbers of selected
    rows with rating at least 4, at most 2, and neither (for an integer
    rating: exactly 3). They are the same whatever classifier is used. *)
Theorem sentiment_from_rating_only (df : list Row.t)
  (classifier classifier' : nat -> list (list N) -> list string -> bool
                            -> result (list ZeroShot.t))
  (w w' : World) (asin : string) (a a' : ReviewAnalysis.t) :
  reachable df classifier w ->
  reachable df classifier' w' ->
  fst (analyze_product df classifier asin w) = Ok a ->
  fst (analyze_product df classifier' asin w') = Ok a' ->
  let rows := target_reviews_of df asin in
  ReviewAnalysis.sentiment_breakdown a
  = [ ("Positive"%string, count_rows (fun r => 4 <=? r) rows);
      ("Negative"%string, count_rows (fun r => r <=? 2) rows);
      ("Neutral"%string,
       count_rows (fun r => negb (4 <=? r) && negb (r <=? 2)) rows) ]
  /\ count_rows (fun r => negb (4 <=? r) && negb (r <=? 2)) rows
     = count_rows (fun r => r =? 3) rows
  /\ ReviewAnalysis.sentiment_breakdown a' = ReviewAnalysis.sentiment_breakdown a.
Proof.
  intros Hr Hr' Ha Ha' rows.
  assert (Hn : count_rows (fun r => negb (4 <=? r) && negb (r <=? 2)) rows
               = count_rows (fun r => r =? 3) rows).
  { unfold count_rows. f_equal. apply filter_ext.
    intro r. now rewrite neutral_is_three. }
  assert (Hgen : forall cl v b,
            reachable df cl v -> fst (analyze_product df cl asin v) = Ok b ->
            ReviewAnalysis.sentiment_breakdown b
            = [ ("Positive"%string, count_rows (fun r => 4 <=? r) rows);
                ("Negative"%string, count_rows (fun r => r <=? 2) rows);
                ("Neutral"%string, count_rows (fun r => r =? 3) rows) ]).
  { intros cl v b Hv Hb.
    destruct (analyze_computed _ _ _ _ _ Hv Hb) as (n & results & _ & Hbf).
    destruct (built_from_rows _ _ _ _ Hbf) as [Hrat _].
    destruct (built_from_facts _ _ _ _ Hbf) as (_ & _ & _ & _ & Hs & _).
    rewrite Hs. unfold breakdown_of.
    now rewrite !(count_rating_rows _ _ _ Hrat). }
  rewrite Hn. split; [now apply (Hgen classifier w)|].
  split; [reflexivity|].
  rewrite (Hgen classifier w a Hr Ha). now apply (Hgen classifier' w').
Qed.

(** ** Topics *)

Lemma best_of_first_max (res : ZeroShot.t) (best : string * float) :
  best_of res = Ok best ->
  exists i,
    first_max float_gt snd (fun s => PrimFloat.is_nan s = false)
      (combine (ZeroShot.labels res) (ZeroShot.scores res)) i best.
Proof.
  apply py_max_first_max.
  - apply float_gt_irrefl.
  - apply float_gt_trans.
  - apply float_gt_total.
Qed.

Lemma best_of_label (res : ZeroShot.t) (t : string) (s : float) :
  best_of res = Ok (t, s) -> In t (ZeroShot.labels res).
Proof.
  intro H. destruct (best_of_first_max _ _ H) as (i & Hi & _).
  apply nth_error_In in Hi. now apply in_combine_l in Hi.
Qed.

Lemma count_topic_pos (k : string) (ds : list ReviewDetail.t) :
  count_topic k ds <> 0 <-> exists d, In d ds /\ ReviewDetail.topic d = k.
Proof.
  unfold count_topic, len. split.
  - intro H.
    destruct (filter (fun d => String.eqb (ReviewDetail.topic d) k) ds)
      as [|d r] eqn:E; [now cbn in H|].
    assert (Hin : In d (filter (fun d => String.eqb (ReviewDetail.topic d) k) ds))
      by (rewrite E; now left).
    apply filter_In in Hin. destruct Hin as [Hin Hk].
    exists d. split; [exact Hin | now apply String.eqb_eq].
  - intros (d & Hin & Hk).
    assert (Hf : In d (filter (fun d => String.eqb (ReviewDetail.topic d) k) ds))
      by (apply filter_In; split; [exact Hin | now apply String.eqb_eq]).
    destruct (filter (fun d => String.eqb (ReviewDetail.topic d) k) ds);
      [contradiction | cbn; lia].
Qed.

Lemma count_topic_le (k : string) (ds : list ReviewDetail.t) :
  count_topic k ds <= len ds.
Proof.
  unfold count_topic, len. apply inj_le. apply filter_length_le.
Qed.

Lemma topic_counts_within (a : ReviewAnalysis.t) (tc : Dict.t Z) :
  topic_counts_of a tc ->
  ReviewAnalysis.analyzed_count a = len (ReviewAnalysis.reviews a) ->
  counts_within tc (ReviewAnalysis.analyzed_count a).
Proof.
  intros (Hnd & Hget & _) Hc. apply Forall_forall. intros [k v] Hin.
  apply (In_get _ _ _ Hnd) in Hin. rewrite Hget in Hin. cbn [snd].
  pose proof (count_topic_nonneg k (ReviewAnalysis.reviews a)).
  pose proof (count_topic_le k (ReviewAnalysis.reviews a)).
  destruct (Z.eqb_spec (count_topic k (ReviewAnalysis.reviews a)) 0);
    [discriminate|].
  injection Hin as <-. lia.
Qed.

Lemma counts_within_length (d : Dict.t Z) (total : Z) :
  counts_within d total -> len d <= sum_values d.
Proof.
  unfold len, sum_values.
  induction 1 as [|[k v] r Hv Hr IH]; cbn [List.length Dict.values map fold_right snd] in *;
    [reflexivity|].
  fold (Dict.values r). lia.
Qed.

Lemma tol_50_small : (tol 50 <= 1 # 1000000000)%Q.
Proof. unfold tol, half_ulp, Qle. cbn. lia. Qed.

Lemma Qmake_self (z : Z) : 0 < z -> (z # Z.to_pos z == 1)%Q.
Proof. intro H. unfold Qeq. cbn. rewrite Z2Pos.id by exact H. lia. Qed.

(** C6. In a returned analysis the three sentiment counts add up to
    [analyzed_count], which is the number of annotated reviews and is
    positive; every topic fraction is a finite double above 0 and not above
    1; and the fractions add up, as real numbers, to 1 within [1e-9]. *)
Theorem counts_and_fractions_add_up (df : list Row.t)
  (classifier : nat -> list (list N) -> list string -> bool
                -> result (list ZeroShot.t))
  (w : World) (asin : string) (a : ReviewAnalysis.t) :
  reachable df classifier w ->
  fst (analyze_product df classifier asin w) = Ok a ->
  0 < ReviewAnalysis.analyzed_count a
  /\ sum_values (ReviewAnalysis.sentiment_breakdown a)
     = ReviewAnalysis.analyzed_count a
  /\ ReviewAnalysis.analyzed_count a = len (ReviewAnalysis.reviews a)
  /\ Forall (fun q => float_gt q 0 = true /\ float_gt q 1 = false
                      /\ exists x, float_val q = Some x /\ (0 < x <= 1)%Q)
       (Dict.values (ReviewAnalysis.top_topics a))
  /\ exists s,
       exact_sum (Dict.values (ReviewAnalysis.top_topics a)) = Some s
       /\ (1 - (1 # 1000000000) <= s <= 1 + (1 # 1000000000))%Q.
Proof.
  intros Hr Ha.
  destruct (analyze_computed _ _ _ _ _ Hr Ha) as (n & results & _ & Hb).
  destruct (built_from_facts _ _ _ _ Hb) as (_ & _ & Hc & _ & Hs & _ & tc & Htc).
  destruct (built_from_count _ _ _ _ Hb) as [_ [H1 H50]].
  pose proof (topic_counts_within _ _ Htc Hc) as Hw.
  destruct Htc as (Hnd & Hget & Hsum & Hpct & _).
  destruct (percentages_spec (ReviewAnalysis.analyzed_count a) tc H50 Hw)
    as (tp & s & Hp & _ & _ & Hpos & Hes & Hlo & Hhi).
  rewrite Hpct in Hp. injection Hp as <-.
  split; [lia|].
  split; [rewrite Hs, Hc; apply breakdown_sum|].
  split; [exact Hc|].
  split; [exact Hpos|].
  exists s. split; [exact Hes|].
  assert (Hlen : (tol (List.length tc) <= 1 # 1000000000)%Q).
  { apply Qle_trans with (tol 50); [|apply tol_50_small].
    apply tol_mono. pose proof (counts_within_length _ _ Hw) as Hl.
    unfold len in Hl. lia. }
  rewrite Hsum, Qmake_self in Hlo, Hhi by lia.
  split.
  - apply Qle_trans with (1 - tol (List.length tc))%Q; [|exact Hlo].
    apply Qplus_le_r. now apply Qopp_le_compat.
  - apply Qle_trans with (1 + tol (List.length tc))%Q; [exact Hhi|].
    now apply Qplus_le_r.
Qed.

Lemma built_from_review (df : list Row.t) (asin : string)
  (results : list ZeroShot.t) (a : ReviewAnalysis.t) (j : nat)
  (d : ReviewDetail.t) :
  built_from df asin results a ->
  nth_error (ReviewAnalysis.reviews a) j = Some d ->
  exists res,
    nth_error results j = Some res
    /\ best_of res = Ok (ReviewDetail.topic d, ReviewDetail.topic_score d).
Proof.
  intros Hb Hd.
  destruct (built_from_facts _ _ _ _ Hb) as (_ & _ & _ & Hl & _ & Hann & _).
  assert (Hj : (j < List.length (target_reviews_of df asin))%nat)
    by (rewrite <- Hl; apply nth_error_Some; congruence).
  destruct (nth_error (target_reviews_of df asin) j) as [row|] eqn:Erow;
    [|apply nth_error_None in Erow; lia].
  destruct (Hann j row d Erow Hd) as (res & Hres & Hbest & _).
  now exists res.
Qed.

Lemma Forall2_In_r {A B : Type} (R : A -> B -> Prop) (l : list A) (l' : list B)
  (y : B) :
  Forall2 R l l' -> In y l' -> exists x, In x l /\ R x y.
Proof.
  induction 1 as [|x y' l l' Hxy Hl IH]; [contradiction|].
  intros [<-|Hin].
  - exists x. split; [now left | exact Hxy].
  - destruct (IH Hin) as (x' & Hx' & HR). exists x'. split; [now right | exact HR].
Qed.

(** The classifier answers with labels taken from the candidates it was
    given, as the zero-shot pipeline does. *)
Definition answers_candidates
  (classifier : nat -> list (list N) -> list string -> bool
                -> result (list ZeroShot.t)) : Prop :=
  forall n texts labels multi_label results,
    classifier n texts labels multi_label = Ok results ->
    Forall (fun res => incl (ZeroShot.labels res) labels) results.

(** C10. [top_topics] has one key for each topic that is the best topic of
    some annotated review and no other key: a topic that no review has is
    absent. The value under a key is the double [count / analyzed_count],
    with [count >= 1] the number of reviews having the topic, and is above
    0. When the classifier answers with candidate labels only, every key is
    one of the six [LABELS]. *)
Theorem top_topics_keys_occur (df : list Row.t)
  (classifier : nat -> list (list N) -> list string -> bool
                -> result (list ZeroShot.t))
  (w : World) (asin : string) (a : ReviewAnalysis.t) :
  reachable df classifier w ->
  fst (analyze_product df classifier asin w) = Ok a ->
  NoDup (Dict.keys (ReviewAnalysis.top_topics a))
  /\ (forall k, In k (Dict.keys (ReviewAnalysis.top_topics a)) <->
                exists d, In d (ReviewAnalysis.reviews a)
                          /\ ReviewDetail.topic d = k)
  /\ (forall k, count_topic k (ReviewAnalysis.reviews a) = 0 ->
                Dict.get (ReviewAnalysis.top_topics a) k = None)
  /\ (forall k q, In (k, q) (ReviewAnalysis.top_topics a) ->
        1 <= count_topic k (ReviewAnalysis.reviews a)
        /\ truediv (count_topic k (ReviewAnalysis.reviews a))
             (ReviewAnalysis.analyzed_count a) = Ok q
        /\ float_gt q 0 = true)
  /\ (answers_candidates classifier ->
      List.length LABELS = 6%nat
      /\ forall k, In k (Dict.keys (ReviewAnalysis.top_topics a)) -> In k LABELS).
Proof.
  intros Hr Ha.
  destruct (analyze_computed _ _ _ _ _ Hr Ha) as (n & results & Hcl & Hb).
  destruct (built_from_facts _ _ _ _ Hb) as (_ & _ & Hc & _ & _ & _ & tc & Htc).
  destruct (built_from_count _ _ _ _ Hb) as [_ [H1 H50]].
  pose proof (topic_counts_within _ _ Htc Hc) as Hw.
  destruct Htc as (Hnd & Hget & Hsum & Hpct & _).
  destruct (percentages_spec (ReviewAnalysis.analyzed_count a) tc H50 Hw)
    as (tp & s & Hp & Hkeys & Hq & Hpos & _).
  rewrite Hpct in Hp. injection Hp as <-.
  assert (Hkey : forall k, In k (Dict.keys tc) <->
                 exists d, In d (ReviewAnalysis.reviews a)
                           /\ ReviewDetail.topic d = k).
  { intro k. rewrite <- count_topic_pos.
    pose proof (get_None_keys tc k) as Hn. rewrite Hget in Hn.
    destruct (Z.eqb_spec (count_topic k (ReviewAnalysis.reviews a)) 0) as [E|E].
    - split; [intro Hin; exfalso; now apply (proj1 Hn) | contradiction].
    - split; [intros _; exact E|].
      intros _. destruct (in_dec string_dec k (Dict.keys tc)) as [Hin|Hout];
        [exact Hin|]. apply Hn in Hout. discriminate. }
  split; [now rewrite Hkeys|].
  split; [intro k; now rewrite Hkeys|].
  split.
  { intros k Hk. apply get_None_keys. rewrite Hkeys, Hkey, <- count_topic_pos.
    intro H. now apply H. }
  split.
  { intros k q Hin.
    destruct (Forall2_In_r _ _ _ _ Hq Hin) as ([k' v] & Hv & Hk' & Hdiv).
    cbn [fst snd] in *. subst k'.
    pose proof (In_get _ _ _ Hnd Hv) as Hg. rewrite Hget in Hg.
    destruct (Z.eqb_spec (count_topic k (ReviewAnalysis.reviews a)) 0);
      [discriminate|]. injection Hg as <-.
    pose proof (count_topic_nonneg k (ReviewAnalysis.reviews a)).
    split; [lia|]. split; [exact Hdiv|].
    rewrite Forall_forall in Hpos.
    apply (Hpos q). change q with (snd (k, q)). now apply in_map. }
  intro Hcand. split; [reflexivity|].
  intros k Hk. rewrite Hkeys in Hk. apply Hkey in Hk.
  destruct Hk as (d & Hd & <-).
  apply In_nth_error in Hd. destruct Hd as [j Hj].
  destruct (built_from_review _ _ _ _ _ _ Hb Hj) as (res & Hres & Hbest).
  apply best_of_label in Hbest.
  pose proof (Hcand _ _ _ _ _ Hcl) as Hall. rewrite Forall_forall in Hall.
  apply (Hall res); [now apply nth_error_In with j | exact Hbest].
Qed.

(** ** The best topic of a review *)

(** The rule as the specification words it: among the labels of greatest
    score, the one that comes first in the fixed list [LABELS]. *)
Definition has_max_score (res : ZeroShot.t) (l : string) : bool :=
  let pairs := combine (ZeroShot.labels res) (ZeroShot.scores res) in
  existsb (fun p =>
             String.eqb (fst p) l
             && forallb (fun p' => negb (float_gt (snd p') (snd p))) pairs)
    pairs.

Definition first_in_LABELS (res : ZeroShot.t) : option string :=
  find (has_max_score res) LABELS.

(** An answer in the order the zero-shot pipeline gives: by decreasing
    score, here with two labels at the top. *)
Definition tied_answer : ZeroShot.t :=
  ZeroShot.mk
    [ "Service"; "Quality & Effectiveness"; "Scent & Texture";
      "Price & Value"; "Packaging & Shipping"; "Safety & Authenticity" ]%string
    [ 0.5; 0.5; 0.25; 0.25; 0.125; 0.125 ]%float.

Definition one_review_df : list Row.t :=
  [ Row.mk "B01" (str "Kind staff, solid product") 5 3 1700000000
      "Hand cream" None 4.5%float 120 ].

Definition tied_classifier (n : nat) (texts : list (list N))
  (labels : list string) (multi_label : bool) : result (list ZeroShot.t) :=
  Ok (map (fun _ => tied_answer) texts).

(** C7, as stated, fails: "Service" and "Quality & Effectiveness" share the
    greatest score, the classifier lists "Service" first, and the review gets
    "Service", although "Quality & Effectiveness" comes first in [LABELS]. *)
Lemma tie_follows_answer_order :
  best_of tied_answer = Ok ("Service"%string, 0.5%float)
  /\ first_in_LABELS tied_answer = Some "Quality & Effectiveness"%string
  /\ (exists a,
        fst (analyze_product one_review_df tied_classifier "B01" empty_world)
        = Ok a
        /\ map ReviewDetail.topic (ReviewAnalysis.reviews a) = ["Service"%string])
  /\ ~ (forall res t s, best_of res = Ok (t, s) -> first_in_LABELS res = Some t).
Proof.
  split; [reflexivity|]. split; [reflexivity|]. split.
  - eexists. split; vm_compute; reflexivity.
  - intro H. specialize (H tied_answer _ _ eq_refl). discriminate.
Qed.

Lemma find_first {A : Type} (P : A -> bool) (l : list A) :
  forall i x,
    nth_error l i = Some x -> P x = true ->
    (forall j y, (j < i)%nat -> nth_error l j = Some y -> P y = false) ->
    find P l = Some x.
Proof.
  induction l as [|a l IH]; intros [|i] x Hx Hp Hbefore; try discriminate.
  - cbn in Hx. injection Hx as ->. cbn. now rewrite Hp.
  - cbn. rewrite (Hbefore O a) by (reflexivity || lia).
    apply (IH i); [exact Hx | exact Hp|].
    intros j y Hj Hy. apply (Hbefore (S j)); [lia | exact Hy].
Qed.

Lemma nth_error_combine {A B : Type} (l : list A) (l' : list B) :
  forall k a b,
    nth_error (combine l l') k = Some (a, b) ->
    nth_error l k = Some a /\ nth_error l' k = Some b.
Proof.
  revert l'. induction l as [|x l IH]; intros [|y l'] [|k] a b H;
    try discriminate.
  - cbn in H. injection H as -> ->. now split.
  - cbn in H |- *. now apply IH.
Qed.

(** When the classifier lists the labels in the order of [LABELS] (and no
    score is NaN), the first pair of greatest score is the label the
    specification's rule names. *)
Lemma best_of_in_LABELS_order (res : ZeroShot.t) (t : string) (s : float) :
  ZeroShot.labels res = LABELS ->
  Forall (fun x => PrimFloat.is_nan x = false) (ZeroShot.scores res) ->
  best_of res = Ok (t, s) ->
  first_in_LABELS res = Some t.
Proof.
  intros Hl Hnan Hbest.
  destruct (best_of_first_max _ _ Hbest) as (i & Hi & Hall & Hbefore).
  rewrite Hl in Hi, Hall, Hbefore.
  assert (Hnd : NoDup LABELS).
  { unfold LABELS. repeat constructor; cbn; intro H;
      repeat (destruct H as [H|H]; [discriminate|]); exact H. }
  destruct (nth_error_combine _ _ _ _ _ Hi) as [Hti Hsi].
  unfold first_in_LABELS. apply (find_first _ _ i); [exact Hti | |].
  - unfold has_max_score. rewrite Hl. apply existsb_exists.
    exists (t, s). split; [now apply nth_error_In with i|].
    cbn [fst snd]. rewrite String.eqb_refl. cbn [andb].
    apply forallb_forall. intros p Hp. apply negb_true_iff. now apply Hall.
  - intros j l Hj Hlj. unfold has_max_score. rewrite Hl.
    apply not_true_iff_false. intro Hex. apply existsb_exists in Hex.
    destruct Hex as ([l' s'] & Hin & Hp). cbn [fst snd] in Hp.
    apply andb_true_iff in Hp. destruct Hp as [Heq Hfor].
    apply String.eqb_eq in Heq. subst l'.
    apply In_nth_error in Hin. destruct Hin as [k Hk].
    destruct (nth_error_combine _ _ _ _ _ Hk) as [Hlk Hsk].
    assert (k = j).
    { apply (proj1 (NoDup_nth_error LABELS) Hnd).
      - apply nth_error_Some. congruence.
      - congruence. }
    subst k.
    assert (Hgt : float_gt s s' = true).
    { apply (Hbefore j (l, s') Hj Hk). cbn [snd].
      rewrite Forall_forall in Hnan. apply Hnan. now apply nth_error_In with j. }
    rewrite forallb_forall in Hfor.
    specialize (Hfor (t, s) (nth_error_In _ _ Hi)). cbn [snd] in Hfor.
    rewrite Hgt in Hfor. discriminate.
Qed.

(** C7, amended. Each annotated review carries the label and score of the
    first pair of greatest score in the classifier's answer for it, in the
    order of that answer: no pair has a greater score, and every pair before
    it (NaN aside) has a smaller one. *)
Theorem best_topic_first_in_answer (df : list Row.t)
  (classifier : nat -> list (list N) -> list string -> bool
                -> result (list ZeroShot.t))
  (w : World) (asin : string) (a : ReviewAnalysis.t) :
  reachable df classifier w ->
  fst (analyze_product df classifier asin w) = Ok a ->
  exists n results,
    classifier n (raw_texts_of df asin) LABELS true = Ok results
    /\ forall j d,
        nth_error (ReviewAnalysis.reviews a) j = Some d ->
        exists res i,
          nth_error results j = Some res
          /\ first_max float_gt snd (fun s => PrimFloat.is_nan s = false)
               (combine (ZeroShot.labels res) (ZeroShot.scores res)) i
               (ReviewDetail.topic d, ReviewDetail.topic_score d).
Proof.
  intros Hr Ha.
  destruct (analyze_computed _ _ _ _ _ Hr Ha) as (n & results & Hcl & Hb).
  exists n, results. split; [exact Hcl|].
  intros j d Hd.
  destruct (built_from_review _ _ _ _ _ _ Hb Hd) as (res & Hres & Hbest).
  destruct (best_of_first_max _ _ Hbest) as [i Hi].
  now exists res, i.
Qed.

(** ** The summary *)

Lemma get_gt_irrefl (a : option Z) : get_gt a a = false.
Proof. destruct a; cbn; [apply Z.ltb_irrefl | reflexivity]. Qed.

Lemma get_gt_trans (a b c : option Z) :
  get_gt a b = true -> get_gt b c = true -> get_gt a c = true.
Proof.
  destruct a, b, c; cbn; try discriminate. rewrite !Z.ltb_lt. lia.
Qed.

Lemma get_gt_total (a b c : option Z) :
  c <> None -> get_gt c b = false -> get_gt a b = true -> get_gt a c = true.
Proof.
  destruct a, b, c; cbn; try discriminate; try congruence.
  rewrite Z.ltb_ge, !Z.ltb_lt. lia.
Qed.

(** [k], with count [v], is the first key of [d] with the greatest count. *)
Definition first_argmax (d : Dict.t Z) (k : string) (v : Z) : Prop :=
  exists i,
    nth_error (Dict.keys d) i = Some k
    /\ Dict.get d k = Some v
    /\ (forall k' v', Dict.get d k' = Some v' -> v' <= v)
    /\ (forall j k' v', (j < i)%nat -> nth_error (Dict.keys d) j = Some k' ->
          Dict.get d k' = Some v' -> v' < v).

Lemma max_key_first_argmax (d : Dict.t Z) :
  d <> [] ->
  exists k v,
    py_max get_gt (Dict.get d) (Dict.keys d) = Ok k /\ first_argmax d k v.
Proof.
  intro Hd.
  destruct (py_max_total _ _ get_gt (Dict.get d) (Dict.keys d)) as [k Hk].
  { destruct d; [congruence | discriminate]. }
  destruct (py_max_first_max _ _ get_gt (Dict.get d) (fun o => o <> None)
              get_gt_irrefl get_gt_trans get_gt_total _ _ Hk)
    as (i & Hi & Hall & Hbefore).
  assert (Hin : In k (Dict.keys d)) by now apply nth_error_In with i.
  destruct (Dict.get d k) as [v|] eqn:Ev;
    [|now apply get_None_keys in Ev].
  exists k, v. split; [exact Hk|]. exists i.
  split; [exact Hi|]. split; [exact Ev|]. split.
  - intros k' v' Hk'.
    assert (Hin' : In k' (Dict.keys d)).
    { destruct (in_dec string_dec k' (Dict.keys d)) as [H|H]; [exact H|].
      apply get_None_keys in H. congruence. }
    specialize (Hall k' Hin'). rewrite Hk' in Hall. cbn in Hall.
    now apply Z.ltb_ge in Hall.
  - intros j k' v' Hj Hk' Hv'.
    specialize (Hbefore j k' Hj Hk'). rewrite Hv' in Hbefore. cbn in Hbefore.
    apply Z.ltb_lt. apply Hbefore. discriminate.
Qed.

(** The integer nearest to [a / b], ties going to the even one: the
    specification's [round(100 * count / analyzed_count)] with [a] the
    product. *)
Definition round_div (a b : Z) : Z :=
  let q := a / b in
  let r := a mod b in
  match 2 * r ?= b with
  | Lt => q
  | Gt => q + 1
  | Eq => if Z.even q then q else q + 1
  end.

(** The percentage the summary prints for [count] out of [total]. *)
Definition printed_pct (count total : Z) : Z :=
  if (count =? 23) && (total =? 40) then 57
  else round_div (100 * count) total.

Definition pct_ok (count total : Z) : bool :=
  match top_topic_pct count total with
  | Ok pct => String.eqb (format_0f pct) (str_of_int (printed_pct count total))
  | Raise _ => false
  end.

Lemma pct_table :
  forallb (fun total =>
    forallb (fun count => pct_ok (Z.of_nat count) (Z.of_nat total))
      (seq 0 (S total)))
    (seq 1 50) = true.
Proof. vm_compute. reflexivity. Qed.

Lemma pct_ok_range (count total : Z) :
  0 <= count <= total -> 1 <= total <= 50 -> pct_ok count total = true.
Proof.
  intros Hc Ht.
  assert (H1 : In (Z.to_nat total) (seq 1 50)) by (apply in_seq; lia).
  assert (H2 : In (Z.to_nat count) (seq 0 (S (Z.to_nat total))))
    by (apply in_seq; lia).
  pose proof (proj1 (forallb_forall _ _) pct_table _ H1) as H.
  pose proof (proj1 (forallb_forall _ _) H _ H2) as H'.
  cbv beta in H'. rewrite !Z2Nat.id in H' by lia. exact H'.
Qed.

(** A dictionary whose counts a double holds exactly. *)
Definition small_counts (d : Dict.t Z) : Prop :=
  Forall (fun kv => Z.abs (snd kv) < 2 ^ 53) d.

Lemma small_spec (z : Z) : Z.abs z < 2 ^ 53 -> small z = true.
Proof. intro H. unfold small. now apply Z.ltb_lt. Qed.

Lemma truediv_small (a b : Z) :
  Z.abs a < 2 ^ 53 -> Z.abs b < 2 ^ 53 -> b <> 0 ->
  truediv a b = Ok (PrimFloat.div (float_of_int a) (float_of_int b)).
Proof.
  intros Ha Hb Hn. unfold truediv.
  rewrite (small_spec a Ha), (small_spec b Hb).
  now destruct (Z.eqb_spec b 0).
Qed.

(** Beyond [2^53]: a tie goes to the even mantissa, a quotient of two
    large integers is as exact as a double can be, a quotient below the
    smallest double is zero with its sign, and one that rounds to [2^1024]
    raises. *)
Lemma truediv_of_large_integers :
  truediv (2 ^ 53 + 1) 1 = Ok 9007199254740992%float
  /\ truediv (2 ^ 53 + 3) 1 = Ok 9007199254740996%float
  /\ truediv (10 ^ 400) (10 ^ 399) = Ok 10%float
  /\ truediv (- 2 ^ 63) 1 = Ok (-9223372036854775808)%float
  /\ truediv 1 (10 ^ 400) = Ok 0%float
  /\ truediv 0 (- 2 ^ 60) = Ok (-0)%float
  /\ truediv (2 ^ 1024 - 2 ^ 970 - 1) 1 = Ok 0x1.fffffffffffffp+1023%float
  /\ truediv (2 ^ 1024 - 2 ^ 970) 1 = Raise OverflowError
  /\ truediv (10 ^ 400) 1 = Raise OverflowError
  /\ truediv (10 ^ 400) 0 = Raise ZeroDivisionError.
Proof. repeat split; vm_compute; reflexivity. Qed.

Lemma small_counts_get (d : Dict.t Z) (k : string) (v : Z) :
  small_counts d -> Dict.get d k = Some v -> Z.abs v < 2 ^ 53.
Proof.
  intros Hd Hg. apply get_In in Hg.
  exact (proj1 (Forall_forall _ _) Hd (k, v) Hg).
Qed.

Lemma generate_smart_summary_Ok (topic_counts sentiment_counts : Dict.t Z)
  (total_analyzed : Z) :
  topic_counts <> [] -> sentiment_counts <> [] -> total_analyzed <> 0 ->
  small_counts topic_counts -> Z.abs total_analyzed < 2 ^ 53 ->
  exists text,
    generate_smart_summary topic_counts sentiment_counts total_analyzed = Ok text.
Proof.
  intros Ht Hs Hn Hsm Hst.
  destruct (max_key_first_argmax topic_counts Ht) as (k & v & Hk & _ & _ & Hv & _).
  destruct (max_key_first_argmax sentiment_counts Hs) as (k' & v' & Hk' & _).
  unfold generate_smart_summary, dict_getitem, top_topic_pct.
  rewrite Hk. cbn [rbind]. rewrite Hv. cbn [rbind].
  rewrite (truediv_small _ _ (small_counts_get _ _ _ Hsm Hv) Hst Hn).
  cbn [rbind]. rewrite Hk'. cbn [rbind]. eauto.
Qed.

(** C8, as stated, fails on the percentage: for 23 reviews out of 40 the
    summary prints 57, the double [(23 / 40) * 100] being just under 57.5,
    where [round(100 * 23 / 40)] is 58. *)
Lemma summary_prints_57_for_23_of_40 :
  generate_smart_summary
    [("Service", 23); ("Price & Value", 17)]%string
    [("Positive", 25); ("Negative", 10); ("Neutral", 5)]%string 40
  = Ok ("Based on an analysis of 40 reviews, the customer sentiment is "
        ++ "predominantly **Positive**. The primary driver of conversation "
        ++ "is **Service**, which appears in **57%** of the feedback. "
        ++ "This indicates high user satisfaction regarding this feature.")%string
  /\ round_div (100 * 23) 40 = 58
  /\ (exists pct, top_topic_pct 23 40 = Ok pct
                  /\ format_0f pct <> str_of_int (round_div (100 * 23) 40)).
Proof.
  split; [vm_compute; reflexivity|]. split; [reflexivity|].
  eexists. split; [reflexivity|]. vm_compute. discriminate.
Qed.

(** Beyond [2^53] the division works on the integers: [2^63] out of 1 is
    printed in full, and a quotient no double can hold raises
    [OverflowError]. *)
Lemma summary_of_large_counts :
  generate_smart_summary [("Service"%string, 2 ^ 63)]
    [("Positive"%string, 1)] 1
  = Ok ("Based on an analysis of 1 reviews, the customer sentiment is "
        ++ "predominantly **Positive**. The primary driver of conversation "
        ++ "is **Service**, which appears in **922337203685477580800%** of "
        ++ "the feedback. "
        ++ "This indicates high user satisfaction regarding this feature.")%string
  /\ generate_smart_summary [("Service"%string, 10 ^ 400)]
       [("Positive"%string, 1)] 1
     = Raise OverflowError
  /\ generate_smart_summary [("Service"%string, 10 ^ 400)] [] 1
     = Raise OverflowError.
Proof. repeat split; vm_compute; reflexivity. Qed.

(** C8, amended. On a non-empty [topic_counts] and [sentiment_counts] and a
    non-zero [total_analyzed], all integers being below [2^53] in absolute
    value, the summary is the three-sentence template
    filled with the first key of greatest count of each dictionary, the
    percentage being the double [(count / total_analyzed) * 100] printed
    without decimals, and the last sentence chosen by the top sentiment.
    For [0 <= count <= total_analyzed <= 50], which is what the pipeline
    passes, the percentage printed is [round(100 * count / total_analyzed)],
    except for 23 out of 40, where it is 57. *)
Theorem summary_template (topic_counts sentiment_counts : Dict.t Z)
  (total_analyzed : Z) :
  topic_counts <> [] -> sentiment_counts <> [] -> total_analyzed <> 0 ->
  small_counts topic_counts -> Z.abs total_analyzed < 2 ^ 53 ->
  exists top_topic count top_sentiment votes pct,
    generate_smart_summary topic_counts sentiment_counts total_analyzed
    = Ok ("Based on an analysis of " ++ str_of_int total_analyzed
          ++ " reviews, the customer sentiment is predominantly **"
          ++ top_sentiment ++ "**. "
          ++ "The primary driver of conversation is **" ++ top_topic
          ++ "**, which appears in **" ++ format_0f pct
          ++ "%** of the feedback. "
          ++ context_sentence top_sentiment)%string
    /\ first_argmax topic_counts top_topic count
    /\ first_argmax sentiment_counts top_sentiment votes
    /\ pct = PrimFloat.mul
               (PrimFloat.div (float_of_int count) (float_of_int total_analyzed))
               (float_of_int 100)
    /\ (0 <= count <= total_analyzed -> total_analyzed <= 50 ->
        format_0f pct = str_of_int (printed_pct count total_analyzed))
    /\ context_sentence "Negative"
       = "This suggests users are facing critical issues in this specific area."%string
    /\ context_sentence "Positive"
       = "This indicates high user satisfaction regarding this feature."%string
    /\ (top_sentiment <> "Negative"%string -> top_sentiment <> "Positive"%string ->
        context_sentence top_sentiment
        = "Opinions on this product appear to be mixed."%string).
Proof.
  intros Ht Hs Hn Hsm Hst.
  destruct (max_key_first_argmax topic_counts Ht) as (top_topic & count & Hmt & Hat).
  destruct (max_key_first_argmax sentiment_counts Hs)
    as (top_sentiment & votes & Hms & Has).
  assert (Hdiv : top_topic_pct count total_analyzed
                 = Ok (PrimFloat.mul
                         (PrimFloat.div (float_of_int count)
                            (float_of_int total_analyzed))
                         (float_of_int 100))).
  { destruct Hat as (i & _ & Hget & _). unfold top_topic_pct.
    now rewrite (truediv_small _ _ (small_counts_get _ _ _ Hsm Hget) Hst Hn). }
  exists top_topic, count, top_sentiment, votes.
  eexists. split; [|split; [exact Hat|split; [exact Has|split; [reflexivity|]]]].
  - unfold generate_smart_summary. rewrite Hmt. cbn [rbind].
    destruct Hat as (i & _ & Hget & _).
    unfold dict_getitem. rewrite Hget. cbn [rbind].
    rewrite Hdiv. cbn [rbind]. rewrite Hms. cbn [rbind]. reflexivity.
  - split.
    { intros Hc H50. pose proof (pct_ok_range count total_analyzed Hc) as H.
      unfold pct_ok in H. rewrite Hdiv in H.
      apply String.eqb_eq. apply H. lia. }
    split; [reflexivity|]. split; [reflexivity|].
    intros Hneg Hpos. unfold context_sentence.
    destruct (String.eqb_spec top_sentiment "Negative"); [contradiction|].
    destruct (String.eqb_spec top_sentiment "Positive"); [contradiction|].
    reflexivity.
Qed.

(** ** Requests and the cache *)

Section Requests.
Variable df : list Row.t.
Variable classifier :
  nat -> list (list N) -> list string -> bool -> result (list ZeroShot.t).

(** What [analyze_product] makes of the value [cached_inference] returns. *)
Definition response (v : option ReviewAnalysis.t) : result ReviewAnalysis.t :=
  match v with
  | Some a => Ok a
  | None => Raise (HTTPException 404 "Product not found")
  end.

Lemma analyze_hit (asin : string) (w : World) (v : option ReviewAnalysis.t) :
  Dict.get (cache w) asin = Some v ->
  analyze_product df classifier asin w
  = (response v, with_cache w (lru_touch asin v (cache w))).
Proof.
  intro H. unfold analyze_product, cached_inference. rewrite H.
  now destruct v.
Qed.

Lemma analyze_miss (asin : string) (w : World) :
  Dict.get (cache w) asin = None ->
  analyze_product df classifier asin w
  = match pipeline df classifier (classifier_calls w) asin with
    | Ok v =>
        (response v,
         with_cache (snd (cached_inference_wrapped df classifier asin w))
           (lru_store 50 asin v (cache w)))
    | Raise e => (Raise e, snd (cached_inference_wrapped df classifier asin w))
    end.
Proof.
  intro H. unfold analyze_product, cached_inference. rewrite H, wrapped_eq.
  destruct (pipeline df classifier (classifier_calls w) asin) as [[a|]|e];
    cbn [snd]; now destruct (product_reviews_of df asin).
Qed.

Lemma analyze_Ok_cached (asin : string) (w : World) (a : ReviewAnalysis.t) :
  fst (analyze_product df classifier asin w) = Ok a ->
  Dict.get (cache (snd (analyze_product df classifier asin w))) asin
  = Some (Some a).
Proof.
  destruct (Dict.get (cache w) asin) as [v|] eqn:E.
  - rewrite (analyze_hit _ _ _ E). cbn [fst snd with_cache cache].
    destruct v as [a'|]; [|discriminate]. intros [= <-]. apply get_lru_touch.
  - rewrite (analyze_miss _ _ E).
    destruct (pipeline df classifier (classifier_calls w) asin) as [[a'|]|e];
      cbn [fst snd with_cache cache response]; try discriminate.
    intros [= <-]. now apply get_lru_store.
Qed.

Lemma inference_Raise_cache (asin : string) (w : World) (e : exn) :
  fst (cached_inference df classifier asin w) = Raise e ->
  cache (snd (cached_inference df classifier asin w)) = cache w.
Proof.
  unfold cached_inference.
  destruct (Dict.get (cache w) asin) as [v|]; [discriminate|].
  rewrite wrapped_eq.
  destruct (pipeline df classifier (classifier_calls w) asin); [discriminate|].
  intros _. cbn [snd]. now destruct (product_reviews_of df asin).
Qed.

Lemma computed_has_reviews (asin : string) (a : ReviewAnalysis.t) :
  computed df classifier asin a -> product_reviews_of df asin <> [].
Proof.
  intros (n & results & _ & meta & rest & E & _). congruence.
Qed.

End Requests.

Definition no_classifier (n : nat) (texts : list (list N))
  (labels : list string) (multi_label : bool) : result (list ZeroShot.t) :=
  Raise (ClassifierError "unavailable").

(** C1, as stated, fails: on an empty table the request for "UNKNOWN_ASIN" is
    answered 404, and the cache then holds the key, bound to [None]; the
    same request again is answered from the cache, the table not being
    read a second time. *)
Lemma unknown_asin_is_cached :
  let first := analyze_product [] no_classifier "UNKNOWN_ASIN" empty_world in
  let second := analyze_product [] no_classifier "UNKNOWN_ASIN" (snd first) in
  fst first = Raise (HTTPException 404 "Product not found")
  /\ cache (snd first) = [("UNKNOWN_ASIN"%string, None)]
  /\ Dict.get (cache (snd first)) "UNKNOWN_ASIN" <> None
  /\ store_queries (snd first) = 1%nat
  /\ store_queries (snd second) = 1%nat.
Proof. cbv zeta. repeat split. cbn. discriminate. Qed.

(** C1, amended. For an ASIN without reviews [analyze_product] answers 404
    without calling the classifier, and [lru_cache] keeps the [None] it got
    like any other value: after the call the key is in the cache, bound to
    [None], and the same request again is answered 404 from the cache,
    without reading the table or calling the classifier. *)
Theorem not_found_is_cached (df : list Row.t)
  (classifier : nat -> list (list N) -> list string -> bool
                -> result (list ZeroShot.t))
  (w : World) (asin : string) :
  reachable df classifier w ->
  product_reviews_of df asin = [] ->
  let first := analyze_product df classifier asin w in
  let second := analyze_product df classifier asin (snd first) in
  fst first = Raise (HTTPException 404 "Product not found")
  /\ classifier_calls (snd first) = classifier_calls w
  /\ Dict.get (cache (snd first)) asin = Some None
  /\ fst second = Raise (HTTPException 404 "Product not found")
  /\ store_queries (snd second) = store_queries (snd first)
  /\ classifier_calls (snd second) = classifier_calls (snd first)
  /\ Dict.get (cache (snd second)) asin = Some None.
Proof.
  intros Hr Hnone first second.
  assert (H1 : fst first = Raise (HTTPException 404 "Product not found")
               /\ classifier_calls (snd first) = classifier_calls w
               /\ Dict.get (cache (snd first)) asin = Some None).
  { subst first. destruct (Dict.get (cache w) asin) as [v|] eqn:E.
    - rewrite (analyze_hit _ _ _ _ _ E). cbn [fst snd with_cache cache classifier_calls].
      destruct v as [a|].
      + exfalso. apply get_In in E. apply (reachable_sound _ _ _ Hr) in E.
        now apply computed_has_reviews in E.
      + repeat split. apply get_lru_touch.
    - rewrite (analyze_miss _ _ _ _ E).
      rewrite (proj2 (pipeline_None df classifier _ asin) Hnone).
      rewrite wrapped_eq, Hnone.
      cbn [fst snd with_cache cache classifier_calls response count_store_query].
      repeat split. now apply get_lru_store. }
  destruct H1 as (Hf & Hc & Hg).
  split; [exact Hf|]. split; [exact Hc|]. split; [exact Hg|].
  subst second. rewrite (analyze_hit _ _ _ _ _ Hg).
  cbn [fst snd with_cache cache classifier_calls store_queries response].
  repeat split. apply get_lru_touch.
Qed.

(** C2. When [analyze_product] has returned an analysis for an ASIN, the
    same request made next returns the same analysis without calling the
    classifier or reading the table; and so does any request for a key that
    the cache holds, the key staying in the cache: while the entry remains,
    the pipeline is not run again for it. In the worlds the service goes
    through, such an ASIN has at least one review. *)
Theorem second_call_from_cache (df : list Row.t)
  (classifier : nat -> list (list N) -> list string -> bool
                -> result (list ZeroShot.t))
  (w : World) (asin : string) (a : ReviewAnalysis.t) :
  fst (analyze_product df classifier asin w) = Ok a ->
  let first := analyze_product df classifier asin w in
  let second := analyze_product df classifier asin (snd first) in
  fst second = Ok a
  /\ classifier_calls (snd second) = classifier_calls (snd first)
  /\ store_queries (snd second) = store_queries (snd first)
  /\ (forall v, Dict.get (cache v) asin = Some (Some a) ->
        let next := analyze_product df classifier asin v in
        fst next = Ok a
        /\ classifier_calls (snd next) = classifier_calls v
        /\ store_queries (snd next) = store_queries v
        /\ Dict.get (cache (snd next)) asin = Some (Some a))
  /\ (reachable df classifier w -> product_reviews_of df asin <> []).
Proof.
  intros Ha first second.
  assert (Hhit : forall v, Dict.get (cache v) asin = Some (Some a) ->
            let next := analyze_product df classifier asin v in
            fst next = Ok a
            /\ classifier_calls (snd next) = classifier_calls v
            /\ store_queries (snd next) = store_queries v
            /\ Dict.get (cache (snd next)) asin = Some (Some a)).
  { intros v Hv next. subst next. rewrite (analyze_hit _ _ _ _ _ Hv).
    cbn [fst snd with_cache cache classifier_calls store_queries response].
    repeat split. apply get_lru_touch. }
  pose proof (analyze_Ok_cached _ _ _ _ _ Ha) as Hc.
  destruct (Hhit _ Hc) as (H1 & H2 & H3 & _).
  split; [exact H1|]. split; [exact H2|]. split; [exact H3|].
  split; [exact Hhit|].
  intro Hr. apply (computed_has_reviews df classifier asin a).
  now apply analyze_computed with w.
Qed.

(** C9. When the key is not in the cache and the classifier raises, the
    request fails with that error and the cache is left as it was; the next
    request for the key reads the table and calls the classifier again, and
    its answer is the pipeline's on that new call. More generally no call of
    [cached_inference] that raises changes the cache, and every analysis the
    cache holds in a world the service goes through is a finished one:
    built from a complete answer of the classifier. *)
Theorem classifier_failure_not_cached (df : list Row.t)
  (classifier : nat -> list (list N) -> list string -> bool
                -> result (list ZeroShot.t))
  (w : World) (asin : string) (e : exn) :
  Dict.get (cache w) asin = None ->
  product_reviews_of df asin <> [] ->
  classifier (classifier_calls w) (raw_texts_of df asin) LABELS true = Raise e ->
  let first := analyze_product df classifier asin w in
  let second := analyze_product df classifier asin (snd first) in
  fst first = Raise e
  /\ cache (snd first) = cache w
  /\ classifier_calls (snd first) = S (classifier_calls w)
  /\ fst second
     = match pipeline df classifier (S (classifier_calls w)) asin with
       | Ok v => response v
       | Raise e' => Raise e'
       end
  /\ classifier_calls (snd second) = S (S (classifier_calls w))
  /\ store_queries (snd second) = S (S (store_queries w))
  /\ (forall asin' v e',
        fst (cached_inference df classifier asin' v) = Raise e' ->
        cache (snd (cached_inference df classifier asin' v)) = cache v)
  /\ (forall v k a,
        reachable df classifier v -> In (k, Some a) (cache v) ->
        computed df classifier k a).
Proof.
  intros Hmiss Hrows Hcl first second.
  assert (Hp : pipeline df classifier (classifier_calls w) asin = Raise e).
  { unfold pipeline. destruct (product_reviews_of df asin); [congruence|].
    now rewrite Hcl. }
  assert (Hfirst : first = (Raise e, count_classifier_call (count_store_query w))).
  { subst first. rewrite (analyze_miss _ _ _ _ Hmiss), Hp, wrapped_eq.
    now destruct (product_reviews_of df asin). }
  subst second. rewrite Hfirst. cbn [fst snd cache classifier_calls
    count_classifier_call count_store_query].
  split; [reflexivity|]. split; [reflexivity|]. split; [reflexivity|].
  rewrite analyze_miss by exact Hmiss.
  rewrite wrapped_eq.
  cbn [cache classifier_calls store_queries count_classifier_call
       count_store_query].
  split; [|split; [|split; [|split]]].
  - now destruct (pipeline df classifier (S (classifier_calls w)) asin).
  - destruct (pipeline df classifier (S (classifier_calls w)) asin);
      destruct (product_reviews_of df asin); try congruence; reflexivity.
  - destruct (pipeline df classifier (S (classifier_calls w)) asin);
      destruct (product_reviews_of df asin); try congruence; reflexivity.
  - intros asin' v e'. apply inference_Raise_cache.
  - intros v k a Hv Hin. apply (reachable_sound _ _ _ Hv) in Hin. exact Hin.
Qed.

(** ** Concurrent requests

    FastAPI runs a [def] endpoint in a thread pool, so several calls of
    [cached_inference] can be in flight. [lru_cache] keeps its own
    bookkeeping consistent but calls the wrapped function outside of it: a
    call is three steps, each of them atomic, and the steps of different
    calls interleave. *)

Inductive Thread : Type :=
| Start
| Missed
| Computed (v : option ReviewAnalysis.t)
| Returned (r : result (option ReviewAnalysis.t)).

Fixpoint set_nth {A : Type} (i : nat) (x : A) (l : list A) : list A :=
  match l, i with
  | [], _ => []
  | _ :: r, O => x :: r
  | y :: r, S j => y :: set_nth j x r
  end.

Section Concurrent.
Variable df : list Row.t.
Variable classifier :
  nat -> list (list N) -> list string -> bool -> result (list ZeroShot.t).
Variable asin : string.

(** One step of a call for [asin]: the lookup, the wrapped function, or the
    store. *)
Definition thread_step (t : Thread) (w : World) : Thread * World :=
  match t with
  | Start =>
      match Dict.get (cache w) asin with
      | Some v => (Returned (Ok v), with_cache w (lru_touch asin v (cache w)))
      | None => (Missed, w)
      end
  | Missed =>
      match cached_inference_wrapped df classifier asin w with
      | (Ok v, w') => (Computed v, w')
      | (Raise e, w') => (Returned (Raise e), w')
      end
  | Computed v =>
      (Returned (Ok v), with_cache w (lru_store 50 asin v (cache w)))
  | Returned r => (Returned r, w)
  end.

(** Thread [i] takes its next step. *)
Definition sys_step (i : nat) (st : list Thread * World) : list Thread * World :=
  match nth_error (fst st) i with
  | Some t =>
      let (t', w') := thread_step t (snd st) in (set_nth i t' (fst st), w')
  | None => st
  end.

Fixpoint run (schedule : list nat) (st : list Thread * World)
  : list Thread * World :=
  match schedule with
  | [] => st
  | i :: rest => run rest (sys_step i st)
  end.

(** A call alone is [cached_inference]. *)
Lemma run_alone (w : World) :
  run [0; 0; 0]%nat ([Start], w)
  = ([Returned (fst (cached_inference df classifier asin w))],
     snd (cached_inference df classifier asin w)).
Proof.
  unfold cached_inference, run, sys_step. cbn [fst snd nth_error thread_step].
  destruct (Dict.get (cache w) asin) as [v|] eqn:E;
    cbn [fst snd nth_error set_nth thread_step]; [reflexivity|].
  destruct (cached_inference_wrapped df classifier asin w) as [[v|e] w'];
    cbn [fst snd nth_error set_nth thread_step]; reflexivity.
Qed.

Definition is_returned (t : Thread) : Prop :=
  match t with
  | Returned _ => True
  | _ => False
  end.

Definition past_call (t : Thread) : bool :=
  match t with
  | Computed _ | Returned _ => true
  | _ => false
  end.

Definition count_past (ts : list Thread) : nat :=
  List.length (filter past_call ts).

End Concurrent.

Lemma set_nth_length {A : Type} (i : nat) (x : A) (l : list A) :
  List.length (set_nth i x l) = List.length l.
Proof.
  revert i. induction l as [|y r IH]; intros [|i]; cbn; try reflexivity.
  now rewrite IH.
Qed.

Lemma set_nth_same {A : Type} (i : nat) (x : A) (l : list A) :
  nth_error l i = Some x -> set_nth i x l = l.
Proof.
  revert i. induction l as [|y r IH]; intros [|i]; cbn; try discriminate.
  - now intros [= ->].
  - intro H. now rewrite IH.
Qed.

Lemma Forall_set_nth {A : Type} (P : A -> Prop) (i : nat) (x : A) (l : list A) :
  Forall P l -> P x -> Forall P (set_nth i x l).
Proof.
  intros Hl Hx. revert i.
  induction Hl as [|y r Hy Hr IH]; intros [|i]; cbn; constructor; auto.
Qed.

Lemma count_past_set_nth (i : nat) (t t' : Thread) (ts : list Thread) :
  nth_error ts i = Some t ->
  (count_past (set_nth i t' ts) + (if past_call t then 1 else 0)
   = count_past ts + (if past_call t' then 1 else 0))%nat.
Proof.
  unfold count_past. revert i.
  induction ts as [|y r IH]; intros [|i]; cbn [nth_error set_nth filter];
    try discriminate.
  - intros [= ->]. destruct (past_call t), (past_call t'); cbn; lia.
  - intro H. specialize (IH i H). destruct (past_call y); cbn; lia.
Qed.

Lemma count_past_pos (i : nat) (t : Thread) (ts : list Thread) :
  nth_error ts i = Some t -> past_call t = true -> (0 < count_past ts)%nat.
Proof.
  intros Hi Ht. unfold count_past.
  assert (Hin : In t (filter past_call ts))
    by (apply filter_In; split; [now apply nth_error_In with i | exact Ht]).
  destruct (filter past_call ts); [contradiction | cbn; lia].
Qed.

Lemma get_lru_touch_other {V : Type} (k : string) (v : V)
  (c : list (string * V)) (v' : V) :
  Dict.get (lru_touch k v c) k = Some v' -> v' = v.
Proof. rewrite get_lru_touch. now intros [= <-]. Qed.

Lemma get_lru_store_inv {V : Type} (n : nat) (k : string) (v v' : V)
  (c : list (string * V)) :
  Dict.get (lru_store n k v c) k = Some v' ->
  Dict.get c k = Some v' \/ v' = v.
Proof.
  destruct (Dict.get c k) as [v0|] eqn:E.
  - unfold lru_store. rewrite E. rewrite E. now left.
  - rewrite get_lru_store by exact E. intros [= <-]. now right.
Qed.

Section Interleavings.
Variable df : list Row.t.
Variable classifier :
  nat -> list (list N) -> list string -> bool -> result (list ZeroShot.t).
Variable asin : string.
Variable w0 : World.
Variable callers : nat.
Hypothesis has_reviews : product_reviews_of df asin <> [].

(** The classifier has been called at least once as soon as a caller is
    past the wrapped function or the key is in the cache, and at most once
    for each caller that is past it. *)
Definition calls_bounded (st : list Thread * World) : Prop :=
  List.length (fst st) = callers
  /\ (classifier_calls w0 <= classifier_calls (snd st)
      <= classifier_calls w0 + count_past (fst st))%nat
  /\ ((0 < count_past (fst st))%nat \/ Dict.get (cache (snd st)) asin <> None ->
      (classifier_calls w0 < classifier_calls (snd st))%nat).

Lemma wrapped_counts (w : World) :
  cache (snd (cached_inference_wrapped df classifier asin w)) = cache w
  /\ classifier_calls (snd (cached_inference_wrapped df classifier asin w))
     = S (classifier_calls w).
Proof.
  rewrite wrapped_eq. cbn [snd].
  destruct (product_reviews_of df asin); [contradiction|]. now split.
Qed.

Lemma sys_step_calls_bounded (i : nat) (st : list Thread * World) :
  calls_bounded st -> calls_bounded (sys_step df classifier asin i st).
Proof.
  destruct st as [ts w]. intros (Hlen & Hcalls & Hlow).
  unfold sys_step. cbn [fst snd] in *.
  destruct (nth_error ts i) as [t|] eqn:Ei; [|now repeat split].
  destruct t as [| |v|r]; cbn [thread_step].
  - destruct (Dict.get (cache w) asin) as [v|] eqn:Eg.
    + pose proof (count_past_set_nth i _ (Returned (Ok v)) ts Ei) as Hc.
      cbn [past_call] in Hc.
      split; [cbn [fst]; now rewrite set_nth_length|].
      cbn [fst snd with_cache classifier_calls cache].
      assert (classifier_calls w0 < classifier_calls w)%nat
        by (apply Hlow; right; congruence).
      split; [lia|]. intros _. lia.
    + pose proof (count_past_set_nth i _ Missed ts Ei) as Hc.
      cbn [past_call] in Hc.
      split; [cbn [fst]; now rewrite set_nth_length|].
      cbn [fst snd]. split; [lia|].
      intros [H|H]; [apply Hlow; left; lia | congruence].
  - destruct (wrapped_counts w) as [Hcache Hcount].
    destruct (cached_inference_wrapped df classifier asin w) as [[v|e] w'];
      cbn [snd] in Hcache, Hcount;
      [pose proof (count_past_set_nth i _ (Computed v) ts Ei) as Hc
      |pose proof (count_past_set_nth i _ (Returned (Raise e)) ts Ei) as Hc];
      cbn [past_call] in Hc;
      (split; [cbn [fst]; now rewrite set_nth_length|]);
      cbn [fst snd]; (split; [lia|]); intros _; lia.
  - pose proof (count_past_set_nth i _ (Returned (Ok v)) ts Ei) as Hc.
    cbn [past_call] in Hc.
    pose proof (count_past_pos i _ ts Ei eq_refl) as Hpos.
    split; [cbn [fst]; now rewrite set_nth_length|].
    cbn [fst snd with_cache classifier_calls cache].
    assert (classifier_calls w0 < classifier_calls w)%nat
      by (apply Hlow; left; exact Hpos).
    split; [lia|]. intros _. lia.
  - rewrite (set_nth_same _ _ _ Ei). now repeat split.
Qed.

Lemma run_calls_bounded (schedule : list nat) :
  forall st, calls_bounded st ->
             calls_bounded (run df classifier asin schedule st).
Proof.
  induction schedule as [|i rest IH]; intros st Hst; [exact Hst|].
  cbn [run]. apply IH. now apply sys_step_calls_bounded.
Qed.

(** *** A classifier that answers the same whenever it is asked *)

Hypothesis deterministic :
  forall n m texts labels multi_label,
    classifier n texts labels multi_label
    = classifier m texts labels multi_label.

Lemma pipeline_deterministic (n : nat) :
  pipeline df classifier n asin = pipeline df classifier O asin.
Proof.
  unfold pipeline. destruct (product_reviews_of df asin); [reflexivity|].
  now rewrite (deterministic n O).
Qed.

(** Every caller past the wrapped function holds the one result of the
    pipeline, and so does the cache. *)
Definition agrees (t : Thread) : Prop :=
  match t with
  | Start | Missed => True
  | Computed v => pipeline df classifier O asin = Ok v
  | Returned r => r = pipeline df classifier O asin
  end.

Definition all_agree (st : list Thread * World) : Prop :=
  Forall agrees (fst st)
  /\ forall v, Dict.get (cache (snd st)) asin = Some v ->
               pipeline df classifier O asin = Ok v.

Lemma sys_step_all_agree (i : nat) (st : list Thread * World) :
  all_agree st -> all_agree (sys_step df classifier asin i st).
Proof.
  destruct st as [ts w]. intros [Hts Hc].
  unfold sys_step. cbn [fst snd] in *.
  destruct (nth_error ts i) as [t|] eqn:Ei; [|now split].
  assert (Ht : agrees t)
    by (rewrite Forall_forall in Hts; apply Hts; now apply nth_error_In with i).
  destruct t as [| |v|r]; cbn [thread_step].
  - destruct (Dict.get (cache w) asin) as [v|] eqn:Eg.
    + split; cbn [fst snd with_cache cache].
      * apply Forall_set_nth; [exact Hts|]. cbn. symmetry. now apply Hc.
      * intros v' Hv'. apply get_lru_touch_other in Hv'. subst v'. now apply Hc.
    + split; cbn [fst snd]; [|intros v Hv; congruence].
      apply Forall_set_nth; [exact Hts | exact I].
  - destruct (wrapped_counts w) as [Hcache _].
    pose proof (wrapped_eq df classifier asin w) as Hw.
    rewrite pipeline_deterministic in Hw.
    destruct (cached_inference_wrapped df classifier asin w) as [[v|e] w'];
      cbn [snd] in Hcache; injection Hw as Hp _;
      (split; cbn [fst snd];
       [apply Forall_set_nth; [exact Hts | cbn; now rewrite Hp]
       | now rewrite Hcache]).
  - split; cbn [fst snd with_cache cache].
    + apply Forall_set_nth; [exact Hts|]. cbn in *. now rewrite Ht.
    + intros v' Hv'. apply get_lru_store_inv in Hv'.
      destruct Hv' as [Hv'| ->]; [now apply Hc | exact Ht].
  - rewrite (set_nth_same _ _ _ Ei). now split.
Qed.

Lemma run_all_agree (schedule : list nat) :
  forall st, all_agree st -> all_agree (run df classifier asin schedule st).
Proof.
  induction schedule as [|i rest IH]; intros st Hst; [exact Hst|].
  cbn [run]. apply IH. now apply sys_step_all_agree.
Qed.

End Interleavings.

(** C3, as stated, fails: two callers ask for the same uncached ASIN; both
    look the key up before either has stored a result, both miss, and the
    classifier is called twice. *)
Lemma two_callers_two_classifier_calls :
  let st := run one_review_df tied_classifier "B01" [0; 1; 0; 1; 0; 1]%nat
              ([Start; Start], empty_world) in
  Dict.get (cache empty_world) "B01" = None
  /\ Forall is_returned (fst st)
  /\ classifier_calls (snd st) = 2%nat
  /\ classifier_calls (snd st) <> 1%nat.
Proof.
  cbv zeta. split; [reflexivity|]. split; [|split].
  - vm_compute. repeat constructor.
  - vm_compute. reflexivity.
  - vm_compute. discriminate.
Qed.

Lemma returned_past (ts : list Thread) :
  Forall is_returned ts -> (0 < List.length ts)%nat -> (0 < count_past ts)%nat.
Proof.
  intros H Hlen. destruct H as [|t ts Ht _]; [cbn in Hlen; lia|].
  apply (count_past_pos O t); [reflexivity | now destruct t].
Qed.

(** C3, amended. When [callers] calls for the same ASIN, which has reviews
    and is not in the cache, have all returned, whatever the interleaving
    of their steps, the classifier has been called at least once and at most
    once for each caller; there is no single flight. If the classifier
    answers the same whenever it is asked, all the callers got the same
    result, the pipeline's. *)
Theorem concurrent_calls_one_to_n (df : list Row.t)
  (classifier : nat -> list (list N) -> list string -> bool
                -> result (list ZeroShot.t))
  (asin : string) (w : World) (callers : nat) (schedule : list nat) :
  Dict.get (cache w) asin = None ->
  product_reviews_of df asin <> [] ->
  (1 <= callers)%nat ->
  let st := run df classifier asin schedule (repeat Start callers, w) in
  Forall is_returned (fst st) ->
  (classifier_calls w + 1 <= classifier_calls (snd st)
   <= classifier_calls w + callers)%nat
  /\ ((forall n m texts labels multi_label,
         classifier n texts labels multi_label
         = classifier m texts labels multi_label) ->
      fst st = repeat (Returned (pipeline df classifier O asin)) callers).
Proof.
  intros Hmiss Hrows Hn st Hret.
  assert (Hcount0 : count_past (repeat Start callers) = O).
  { unfold count_past. clear. induction callers as [|k IH]; [reflexivity | exact IH]. }
  assert (Hb : calls_bounded asin w callers st).
  { apply run_calls_bounded; [exact Hrows|].
    split; [cbn [fst]; apply repeat_length|]. cbn [fst snd]. rewrite Hcount0.
    split; [lia|]. intros [H|H]; [lia | contradiction]. }
  destruct Hb as (Hlen & [Hlo Hhi] & Hlow).
  assert (Hle : (count_past (fst st) <= callers)%nat).
  { rewrite <- Hlen. unfold count_past. apply filter_length_le. }
  assert (Hpos : (0 < count_past (fst st))%nat).
  { apply returned_past; [exact Hret | lia]. }
  split; [specialize (Hlow (or_introl Hpos)); lia|].
  intro Hdet.
  assert (Ha : all_agree df classifier asin st).
  { apply run_all_agree; [exact Hrows | exact Hdet|].
    split; cbn [fst snd]; [|intros v Hv; congruence].
    apply Forall_forall. intros t Ht. apply repeat_spec in Ht. now subst t. }
  destruct Ha as [Hall _]. rewrite <- Hlen.
  apply Forall_eq_repeat.
  rewrite Forall_forall in *. intros t Ht.
  specialize (Hall t Ht). specialize (Hret t Ht).
  destruct t; try contradiction. cbn in Hall. now rewrite Hall.
Qed.

(** ** The pipeline answers

    When the classifier gives one answer per text, each with at least one
    label and one score, the analysis is produced. *)

Definition answers_all (texts : list (list N)) (results : list ZeroShot.t)
  : Prop :=
  (List.length texts <= List.length results)%nat
  /\ Forall (fun res => ZeroShot.labels res <> [] /\ ZeroShot.scores res <> [])
       results.

Lemma best_of_total (res : ZeroShot.t) :
  ZeroShot.labels res <> [] -> ZeroShot.scores res <> [] ->
  exists best, best_of res = Ok best.
Proof.
  intros Hl Hs. unfold best_of.
  destruct (ZeroShot.labels res); [congruence|].
  destruct (ZeroShot.scores res); [congruence|]. cbn. eauto.
Qed.

Lemma loop_total (results : list ZeroShot.t) (raw_texts : list (list N))
  (rows : list Row.t) :
  Forall (fun res => ZeroShot.labels res <> [] /\ ZeroShot.scores res <> [])
    results ->
  forall (i : nat) (acc : Acc),
    acc_ok acc ->
    (i + List.length rows <= List.length results)%nat ->
    (i + List.length rows <= List.length raw_texts)%nat ->
    exists acc', loop results raw_texts i rows acc = Ok acc'.
Proof.
  intro Hres. induction rows as [|row rest IH]; intros i acc Hok Hr Ht.
  - now exists acc.
  - cbn [List.length] in Hr, Ht. cbn [loop].
    assert (Hbody : exists acc1, loop_body results raw_texts i row acc = Ok acc1).
    { unfold loop_body, getitem.
      destruct (nth_error results i) as [res|] eqn:Eres;
        [|apply nth_error_None in Eres; lia].
      destruct (nth_error raw_texts i) as [txt|] eqn:Etxt;
        [|apply nth_error_None in Etxt; lia].
      cbn [rbind]. rewrite Forall_forall in Hres.
      destruct (Hres res (nth_error_In _ _ Eres)) as [Hl Hs].
      destruct (best_of_total res Hl Hs) as [[t s] ->]. cbn [rbind].
      rewrite (ok_sentiment _ Hok). unfold breakdown_of, incr, dict_getitem.
      destruct (Row.rating row >=? 4); [cbn; eauto|].
      destruct (Row.rating row <=? 2); cbn; eauto. }
    destruct Hbody as [acc1 Hbody]. rewrite Hbody. cbn [rbind].
    destruct (loop_body_ok _ _ _ _ _ _ Hok Hbody) as [Hok1 _].
    apply IH; [exact Hok1 | lia | lia].
Qed.

Lemma pipeline_total (df : list Row.t)
  (classifier : nat -> list (list N) -> list string -> bool
                -> result (list ZeroShot.t))
  (n : nat) (asin : string) (results : list ZeroShot.t) :
  product_reviews_of df asin <> [] ->
  classifier n (raw_texts_of df asin) LABELS true = Ok results ->
  answers_all (raw_texts_of df asin) results ->
  exists a, pipeline df classifier n asin = Ok (Some a).
Proof.
  intros Hrows Hcl [Hlen Hres]. unfold pipeline.
  destruct (product_reviews_of df asin) as [|meta rest] eqn:Erows; [congruence|].
  rewrite Hcl. cbn [rbind]. unfold aggregate.
  assert (Hraw : List.length (raw_texts_of df asin)
                 = List.length (target_reviews_of df asin))
    by apply length_map.
  destruct (loop_total results (raw_texts_of df asin) (target_reviews_of df asin)
              Hres O init_acc init_acc_ok) as [acc Hacc]; [lia | lia|].
  rewrite Hacc. cbn [rbind].
  destruct (loop_ok _ _ _ _ _ _ init_acc_ok Hacc)
    as (Hok & ds & Hds & Hdl & _).
  cbn [processed_reviews init_acc app] in Hds.
  assert (Hpos : 1 <= len (processed_reviews acc) <= 50).
  { rewrite Hds. unfold len. rewrite Hdl.
    fold (len (target_reviews_of df asin)). rewrite target_length, Erows.
    unfold len. cbn [List.length]. lia. }
  assert (Htc : topic_counts acc <> []).
  { destruct (processed_reviews acc) as [|d r] eqn:Ep; [cbn in Hpos; lia|].
    pose proof (ok_topics _ Hok (ReviewDetail.topic d)) as Hg. rewrite Ep in Hg.
    intro Hnil. rewrite Hnil in Hg. cbn [Dict.get] in Hg.
    destruct (Z.eqb_spec (count_topic (ReviewDetail.topic d) (d :: r)) 0)
      as [E|E]; [|discriminate].
    apply (proj2 (count_topic_pos (ReviewDetail.topic d) (d :: r))); [|exact E].
    exists d. split; [now left | reflexivity]. }
  assert (Hsc : sentiment_counts acc <> [])
    by (rewrite (ok_sentiment _ Hok); discriminate).
  assert (Hw : counts_within (topic_counts acc) (len (processed_reviews acc))).
  { apply Forall_forall. intros [k v] Hin.
    apply (In_get _ _ _ (ok_nodup _ Hok)) in Hin.
    rewrite (ok_topics _ Hok) in Hin. cbn [snd].
    pose proof (count_topic_nonneg k (processed_reviews acc)).
    pose proof (count_topic_le k (processed_reviews acc)).
    destruct (Z.eqb_spec (count_topic k (processed_reviews acc)) 0);
      [discriminate|]. injection Hin as <-. lia. }
  destruct (generate_smart_summary_Ok (topic_counts acc) (sentiment_counts acc)
              (len (processed_reviews acc)) Htc Hsc) as [text Hsum];
    [lia | | lia |].
  { revert Hw. apply Forall_impl. intros kv Hkv. lia. }
  rewrite Hsum. cbn [rbind].
  destruct (percentages_spec (len (processed_reviews acc)) (topic_counts acc))
    as (tp & s & Hp & _); [lia | exact Hw|].
  rewrite Hp. cbn [rbind]. eauto.
Qed.

(** * A worked example

    Four reviews of two products, and a classifier that answers with the
    candidate labels rotated by the length of the text. *)

Definition sample_df : list Row.t :=
  [ Row.mk "B01" (str "Great smell,<br/>arrived   fast ") 5 10 1700000100
      "Soap" None 4.5%float 12;
    Row.mk "B02" (str "meh") 3 0 1700000000
      "Brush" (Some "img/2.jpg"%string) 3.5%float 7;
    Row.mk "B01" (str "Broke on arrival, unsafe") 1 2 1700000200
      "Soap" None 4.5%float 12;
    Row.mk "B01" (str "Fine for the price") 3 10 1700000100
      "Soap" None 4.5%float 12 ].

Definition rotate {A : Type} (k : nat) (l : list A) : list A :=
  skipn k l ++ firstn k l.

Definition sample_classifier (n : nat) (texts : list (list N))
  (labels : list string) (multi_label : bool) : result (list ZeroShot.t) :=
  Ok (map (fun t =>
             ZeroShot.mk (rotate (List.length t mod 6) labels)
               [0.875; 0.5; 0.5; 0.25; 0.125; 0.125]%float)
        texts).

(** The classifier is down for the first call. *)
Definition flaky_classifier (n : nat) (texts : list (list N))
  (labels : list string) (multi_label : bool) : result (list ZeroShot.t) :=
  match n with
  | O => Raise (ClassifierError "timeout")
  | S _ => sample_classifier n texts labels multi_label
  end.

Definition sample_analysis : ReviewAnalysis.t :=
  Eval vm_compute in
    match fst (analyze_product sample_df sample_classifier "B01" empty_world) with
    | Ok a => a
    | Raise _ => ReviewAnalysis.mk 0 0 "" None 0 0 [] [] [] ""
    end.

Lemma sample_analysis_returned :
  fst (analyze_product sample_df sample_classifier "B01" empty_world)
  = Ok sample_analysis.
Proof. vm_compute. reflexivity. Defined.

Lemma sample_answers_candidates : answers_candidates sample_classifier.
Proof.
  intros n texts labels multi_label results [= <-].
  apply Forall_forall. intros res Hres. apply in_map_iff in Hres.
  destruct Hres as (t & <- & _). cbn [ZeroShot.labels].
  intros x Hx. unfold rotate in Hx. apply in_app_or in Hx.
  rewrite <- (firstn_skipn (List.length t mod 6) labels).
  apply in_or_app. tauto.
Defined.

Definition tied_analysis : ReviewAnalysis.t :=
  Eval vm_compute in
    match fst (analyze_product sample_df tied_classifier "B01" empty_world) with
    | Ok a => a
    | Raise _ => ReviewAnalysis.mk 0 0 "" None 0 0 [] [] [] ""
    end.

Lemma tied_analysis_returned :
  fst (analyze_product sample_df tied_classifier "B01" empty_world)
  = Ok tied_analysis.
Proof. vm_compute. reflexivity. Defined.

Lemma not_found_is_cached_witness :
  reachable sample_df sample_classifier empty_world
  /\ product_reviews_of sample_df "UNKNOWN_ASIN" = []
  /\ fst (analyze_product sample_df sample_classifier "UNKNOWN_ASIN" empty_world)
     = Raise (HTTPException 404 "Product not found")
  /\ Dict.get
       (cache (snd (analyze_product sample_df sample_classifier "UNKNOWN_ASIN"
                      empty_world))) "UNKNOWN_ASIN" = Some None.
Proof.
  pose proof (not_found_is_cached sample_df sample_classifier empty_world
                "UNKNOWN_ASIN" (reach_start _ _) eq_refl) as H.
  cbv zeta in H. destruct H as (H1 & _ & H3 & _).
  exact (conj (reach_start _ _) (conj eq_refl (conj H1 H3))).
Defined.

Lemma second_call_from_cache_witness :
  fst (analyze_product sample_df sample_classifier "B01" empty_world)
  = Ok sample_analysis
  /\ fst (analyze_product sample_df sample_classifier "B01"
            (snd (analyze_product sample_df sample_classifier "B01" empty_world)))
     = Ok sample_analysis
  /\ classifier_calls
       (snd (analyze_product sample_df sample_classifier "B01"
               (snd (analyze_product sample_df sample_classifier "B01"
                       empty_world))))
     = classifier_calls
         (snd (analyze_product sample_df sample_classifier "B01" empty_world)).
Proof.
  pose proof (second_call_from_cache sample_df sample_classifier empty_world
                "B01" sample_analysis sample_analysis_returned) as H.
  cbv zeta in H. destruct H as (H1 & H2 & _).
  exact (conj sample_analysis_returned (conj H1 H2)).
Defined.

Lemma concurrent_calls_one_to_n_witness :
  Dict.get (cache empty_world) "B01" = None
  /\ product_reviews_of sample_df "B01" <> []
  /\ (1 <= 3)%nat
  /\ Forall is_returned
       (fst (run sample_df sample_classifier "B01"
               [0; 1; 2; 0; 1; 2; 0; 1; 2]%nat (repeat Start 3, empty_world)))
  /\ (1 <= classifier_calls
             (snd (run sample_df sample_classifier "B01"
                     [0; 1; 2; 0; 1; 2; 0; 1; 2]%nat
                     (repeat Start 3, empty_world))) <= 3)%nat.
Proof.
  assert (H2 : product_reviews_of sample_df "B01" <> []) by discriminate.
  assert (H3 : (1 <= 3)%nat) by lia.
  assert (H4 : Forall is_returned
                 (fst (run sample_df sample_classifier "B01"
                         [0; 1; 2; 0; 1; 2; 0; 1; 2]%nat
                         (repeat Start 3, empty_world))))
    by (vm_compute; repeat constructor).
  pose proof (concurrent_calls_one_to_n sample_df sample_classifier "B01"
                empty_world 3 [0; 1; 2; 0; 1; 2; 0; 1; 2]%nat eq_refl H2 H3 H4)
    as [H _].
  exact (conj eq_refl (conj H2 (conj H3 (conj H4 H)))).
Defined.

Lemma selector_stable_top_50_witness :
  reachable sample_df sample_classifier empty_world
  /\ fst (analyze_product sample_df sample_classifier "B01" empty_world)
     = Ok sample_analysis
  /\ target_reviews_of sample_df "B01"
     = firstn (Nat.min (List.length (product_reviews_of sample_df "B01")) 50)
         (sort_values (product_reviews_of sample_df "B01"))
  /\ ReviewAnalysis.analyzed_count sample_analysis
     = Z.min (ReviewAnalysis.total_reviews_local sample_analysis) 50.
Proof.
  pose proof (selector_stable_top_50 sample_df sample_classifier empty_world
                "B01" sample_analysis (reach_start _ _) sample_analysis_returned)
    as H.
  cbv zeta in H. destruct H as (_ & _ & H3 & _ & _ & _ & _ & H8).
  exact (conj (reach_start _ _) (conj sample_analysis_returned (conj H3 H8))).
Defined.

Lemma sentiment_from_rating_only_witness :
  reachable sample_df sample_classifier empty_world
  /\ reachable sample_df tied_classifier empty_world
  /\ fst (analyze_product sample_df sample_classifier "B01" empty_world)
     = Ok sample_analysis
  /\ fst (analyze_product sample_df tied_classifier "B01" empty_world)
     = Ok tied_analysis
  /\ ReviewAnalysis.sentiment_breakdown tied_analysis
     = ReviewAnalysis.sentiment_breakdown sample_analysis.
Proof.
  pose proof (sentiment_from_rating_only sample_df sample_classifier
                tied_classifier empty_world empty_world "B01" sample_analysis
                tied_analysis (reach_start _ _) (reach_start _ _)
                sample_analysis_returned tied_analysis_returned) as H.
  cbv zeta in H. destruct H as (_ & _ & H3).
  exact (conj (reach_start _ _) (conj (reach_start _ _)
           (conj sample_analysis_returned (conj tied_analysis_returned H3)))).
Defined.

Lemma counts_and_fractions_add_up_witness :
  reachable sample_df sample_classifier empty_world
  /\ fst (analyze_product sample_df sample_classifier "B01" empty_world)
     = Ok sample_analysis
  /\ sum_values (ReviewAnalysis.sentiment_breakdown sample_analysis)
     = ReviewAnalysis.analyzed_count sample_analysis
  /\ exists s,
       exact_sum (Dict.values (ReviewAnalysis.top_topics sample_analysis))
       = Some s
       /\ (1 - (1 # 1000000000) <= s <= 1 + (1 # 1000000000))%Q.
Proof.
  pose proof (counts_and_fractions_add_up sample_df sample_classifier
                empty_world "B01" sample_analysis (reach_start _ _)
                sample_analysis_returned) as H.
  destruct H as (_ & H2 & _ & _ & H5).
  exact (conj (reach_start _ _) (conj sample_analysis_returned (conj H2 H5))).
Defined.

Lemma best_topic_first_in_answer_witness :
  reachable sample_df sample_classifier empty_world
  /\ fst (analyze_product sample_df sample_classifier "B01" empty_world)
     = Ok sample_analysis
  /\ exists n results,
       sample_classifier n (raw_texts_of sample_df "B01") LABELS true
       = Ok results
       /\ forall j d,
           nth_error (ReviewAnalysis.reviews sample_analysis) j = Some d ->
           exists res i,
             nth_error results j = Some res
             /\ first_max float_gt snd (fun s => PrimFloat.is_nan s = false)
                  (combine (ZeroShot.labels res) (ZeroShot.scores res)) i
                  (ReviewDetail.topic d, ReviewDetail.topic_score d).
Proof.
  pose proof (best_topic_first_in_answer sample_df sample_classifier
                empty_world "B01" sample_analysis (reach_start _ _)
                sample_analysis_returned) as H.
  exact (conj (reach_start _ _) (conj sample_analysis_returned H)).
Defined.

Lemma summary_template_witness :
  [("Service"%string, 23); ("Price & Value"%string, 17)] <> []
  /\ [("Positive"%string, 25); ("Negative"%string, 10); ("Neutral"%string, 5)]
     <> []
  /\ 40 <> 0
  /\ small_counts [("Service"%string, 23); ("Price & Value"%string, 17)]
  /\ Z.abs 40 < 2 ^ 53
  /\ exists top_topic count top_sentiment votes,
       first_argmax [("Service"%string, 23); ("Price & Value"%string, 17)]
         top_topic count
       /\ first_argmax
            [("Positive"%string, 25); ("Negative"%string, 10);
             ("Neutral"%string, 5)] top_sentiment votes.
Proof.
  assert (H1 : [("Service"%string, 23); ("Price & Value"%string, 17)] <> [])
    by discriminate.
  assert (H2 : [("Positive"%string, 25); ("Negative"%string, 10);
                ("Neutral"%string, 5)] <> []) by discriminate.
  assert (H3 : 40 <> 0) by discriminate.
  assert (H4 : small_counts
                 [("Service"%string, 23); ("Price & Value"%string, 17)])
    by (repeat constructor).
  assert (H5 : Z.abs 40 < 2 ^ 53) by reflexivity.
  destruct (summary_template _ _ 40 H1 H2 H3 H4 H5)
    as (top_topic & count & top_sentiment & votes & pct & _ & Ht & Hs & _).
  refine (conj H1 (conj H2 (conj H3 (conj H4 (conj H5 _))))).
  exists top_topic, count, top_sentiment, votes. exact (conj Ht Hs).
Defined.

Lemma classifier_failure_not_cached_witness :
  Dict.get (cache empty_world) "B01" = None
  /\ product_reviews_of sample_df "B01" <> []
  /\ flaky_classifier (classifier_calls empty_world)
       (raw_texts_of sample_df "B01") LABELS true
     = Raise (ClassifierError "timeout")
  /\ fst (analyze_product sample_df flaky_classifier "B01" empty_world)
     = Raise (ClassifierError "timeout")
  /\ cache (snd (analyze_product sample_df flaky_classifier "B01" empty_world))
     = cache empty_world
  /\ classifier_calls
       (snd (analyze_product sample_df flaky_classifier "B01"
               (snd (analyze_product sample_df flaky_classifier "B01"
                       empty_world))))
     = 2%nat.
Proof.
  assert (H2 : product_reviews_of sample_df "B01" <> []) by discriminate.
  pose proof (classifier_failure_not_cached sample_df flaky_classifier
                empty_world "B01" (ClassifierError "timeout") eq_refl H2 eq_refl)
    as H.
  cbv zeta in H. destruct H as (Ha & Hb & _ & _ & He & _).
  exact (conj eq_refl (conj H2 (conj eq_refl (conj Ha (conj Hb He))))).
Defined.

Lemma top_topics_keys_occur_witness :
  reachable sample_df sample_classifier empty_world
  /\ fst (analyze_product sample_df sample_classifier "B01" empty_world)
     = Ok sample_analysis
  /\ answers_candidates sample_classifier
  /\ NoDup (Dict.keys (ReviewAnalysis.top_topics sample_analysis))
  /\ forall k, In k (Dict.keys (ReviewAnalysis.top_topics sample_analysis)) ->
               In k LABELS.
Proof.
  pose proof (top_topics_keys_occur sample_df sample_classifier empty_world
                "B01" sample_analysis (reach_start _ _) sample_analysis_returned)
    as H.
  destruct H as (H1 & _ & _ & _ & H5).
  destruct (H5 sample_answers_candidates) as [_ H6].
  exact (conj (reach_start _ _) (conj sample_analysis_returned
           (conj sample_answers_candidates (conj H1 H6)))).
Defined.

(** * More of the code

    ** [clean_text]: what a cleaned text looks like *)

(** Every white space character of [s] is a plain space, and no two stand
    side by side; [prev_space] tells whether a space stands just before. *)
Fixpoint single_spaced (prev_space : bool) (s : list N) : Prop :=
  match s with
  | [] => True
  | c :: r =>
      if is_space c
      then c = 32%N /\ prev_space = false /\ single_spaced true r
      else single_spaced false r
  end.

(** A text in the form [clean_text] gives: single spaces only, none at
    either end. *)
Definition cleaned (t : list N) : Prop :=
  single_spaced false t
  /\ (forall c r, t = c :: r -> is_space c = false)
  /\ (forall l c, t = l ++ [c] -> is_space c = false).

Lemma sub_spaces_single_spaced (s : list N) :
  forall b, single_spaced b (sub_spaces b s).
Proof.
  induction s as [|c r IH]; intro b; cbn; [exact I|].
  destruct (is_space c) eqn:Ec.
  - destruct b; [apply IH|]. cbn. change (is_space 32) with true. cbn.
    repeat split. apply IH.
  - cbn. rewrite Ec. apply IH.
Qed.

Lemma single_spaced_head (s : list N) (b : bool) :
  single_spaced b s -> (forall c r, s = c :: r -> is_space c = false) ->
  single_spaced false s.
Proof.
  destruct s as [|c r]; [trivial|]. intros H Hc. cbn in *.
  now rewrite (Hc c r eq_refl) in *.
Qed.

Lemma skip_spaces_split (s : list N) :
  exists sp, s = sp ++ skip_spaces s
             /\ Forall (fun c => is_space c = true) sp
             /\ (forall c r, skip_spaces s = c :: r -> is_space c = false).
Proof.
  induction s as [|c r (sp & Hs & Hsp & Hhead)]; cbn.
  - exists []. repeat split; [constructor | discriminate].
  - destruct (is_space c) eqn:Ec.
    + exists (c :: sp). cbn. split; [now f_equal|].
      split; [now constructor | exact Hhead].
    + exists []. split; [reflexivity|]. split; [constructor|].
      now intros c' r' [= <- _].
Qed.

Lemma single_spaced_suffix (sp s : list N) (b : bool) :
  single_spaced b (sp ++ s) -> exists b', single_spaced b' s.
Proof.
  revert b. induction sp as [|c sp IH]; intros b H; [now exists b|].
  cbn in H. destruct (is_space c); [destruct H as (_ & _ & H)|]; now apply IH in H.
Qed.

Lemma single_spaced_prefix (p q : list N) (b : bool) :
  single_spaced b (p ++ q) -> single_spaced b p.
Proof.
  revert b. induction p as [|c p IH]; intros b H; [exact I|].
  cbn in *. destruct (is_space c).
  - destruct H as (H1 & H2 & H3). repeat split; try assumption. now apply IH.
  - now apply IH.
Qed.

Lemma skip_spaces_id (s : list N) :
  (forall c r, s = c :: r -> is_space c = false) -> skip_spaces s = s.
Proof.
  destruct s as [|c r]; [reflexivity|]. intro H. cbn.
  now rewrite (H c r eq_refl).
Qed.

Lemma strip_cleaned (s : list N) (b : bool) :
  single_spaced b s -> cleaned (strip s).
Proof.
  intro Hs. unfold strip.
  destruct (skip_spaces_split s) as (sp & Es & _ & Hhead).
  rewrite Es in Hs. apply single_spaced_suffix in Hs. destruct Hs as [b' Hs].
  apply single_spaced_head in Hs; [|exact Hhead].
  set (u := skip_spaces s) in *.
  destruct (skip_spaces_split (rev u)) as (tp & Eu & Htp & Hlast).
  set (v := skip_spaces (rev u)) in *.
  assert (Eu' : u = rev v ++ rev tp).
  { rewrite <- rev_app_distr, <- Eu. now rewrite rev_involutive. }
  split; [|split].
  - rewrite Eu' in Hs. now apply single_spaced_prefix in Hs.
  - intros c r Hv. destruct (is_space c) eqn:Ec; [|reflexivity].
    destruct (rev tp) as [|t tp'] eqn:Etp.
    + rewrite app_nil_r in Eu'. rewrite Eu', Hv in Hhead.
      now rewrite (Hhead c r eq_refl) in Ec.
    + rewrite Hv in Eu'. cbn in Eu'.
      now rewrite (Hhead c (r ++ t :: tp') Eu') in Ec.
  - intros l c Hv. apply (Hlast c (rev l)).
    rewrite <- (rev_involutive v), Hv, rev_app_distr. reflexivity.
Qed.

Lemma single_spaced_facts (t : list N) :
  single_spaced false t ->
  (forall c, In c t -> is_space c = true -> c = 32%N)
  /\ (forall l a b r, t = l ++ a :: b :: r ->
        ~ (is_space a = true /\ is_space b = true)).
Proof.
  assert (H : forall t p, single_spaced p t ->
            (forall c, In c t -> is_space c = true -> c = 32%N)
            /\ (forall l a b r, t = l ++ a :: b :: r ->
                  ~ (is_space a = true /\ is_space b = true))).
  { clear t. induction t as [|c t IH]; intros p Hp.
    - split; [intros c []|]. intros [|? ?] ? ? ? ?; discriminate.
    - cbn in Hp. destruct (is_space c) eqn:Ec.
      + destruct Hp as (-> & _ & Ht). destruct (IH _ Ht) as [H1 H2].
        split.
        * intros c [<-|Hin] Hs; [reflexivity | now apply H1].
        * intros [|x l] a b r E [Ha Hb].
          -- cbn in E. injection E as <- ->. cbn in Ht. rewrite Hb in Ht.
             now destruct Ht as (_ & Hf & _).
          -- cbn in E. injection E as _ ->. now apply (H2 l a b r eq_refl).
      + destruct (IH _ Hp) as [H1 H2]. split.
        * intros c' [<-|Hin] Hs; [congruence | now apply H1].
        * intros [|x l] a b r E [Ha Hb].
          -- cbn in E. injection E as <- _. congruence.
          -- cbn in E. injection E as _ ->. now apply (H2 l a b r eq_refl). }
  apply H.
Qed.

(** X1. Whatever the text, [clean_text] returns a text whose only white
    space is the plain space, never two in a row, and none at the start or
    at the end. *)
Theorem clean_text_single_spaced (text : list N) :
  let t := clean_text text in
  (forall c, In c t -> is_space c = true -> c = 32%N)
  /\ (forall l a b r, t = l ++ a :: b :: r ->
        ~ (is_space a = true /\ is_space b = true))
  /\ (forall c r, t = c :: r -> is_space c = false)
  /\ (forall l c, t = l ++ [c] -> is_space c = false).
Proof.
  intro t.
  assert (Hc : cleaned t).
  { unfold t, clean_text.
    apply (strip_cleaned _ false). apply sub_spaces_single_spaced. }
  destruct Hc as (H1 & H2 & H3).
  destruct (single_spaced_facts t H1) as [Ha Hb].
  repeat split; assumption.
Qed.

Lemma sub_spaces_id (t : list N) :
  forall b, single_spaced b t -> sub_spaces b t = t.
Proof.
  induction t as [|c t IH]; intros b H; [reflexivity|].
  cbn in *. destruct (is_space c).
  - destruct H as (-> & -> & Ht). f_equal. now apply IH.
  - f_equal. now apply IH.
Qed.

Lemma strip_id (t : list N) :
  (forall c r, t = c :: r -> is_space c = false) ->
  (forall l c, t = l ++ [c] -> is_space c = false) ->
  strip t = t.
Proof.
  intros Hhead Hlast. unfold strip. rewrite (skip_spaces_id t Hhead).
  rewrite skip_spaces_id; [apply rev_involutive|].
  intros c r E. apply (Hlast (rev r) c).
  rewrite <- (rev_involutive t), E. reflexivity.
Qed.

Lemma sub_br_no_lt (s : list N) :
  ~ In 60%N s -> sub_br O s = s.
Proof.
  induction s as [|c r IH]; intro H; [reflexivity|].
  cbn [sub_br].
  assert (Hc : c <> 60%N) by (intro E; apply H; now left).
  assert (Hm : match_br (c :: r) = None).
  { unfold match_br. destruct c as [|p]; [reflexivity|].
    repeat (destruct p as [p|p|]; try reflexivity). congruence. }
  rewrite Hm. f_equal. apply IH. intro Hin. apply H. now right.
Qed.

Lemma In_skip_spaces (s : list N) (c : N) : In c (skip_spaces s) -> In c s.
Proof.
  induction s as [|x r IH]; cbn; [tauto|].
  destruct (is_space x); [intro H; right; now apply IH | tauto].
Qed.

Lemma In_sub_spaces (s : list N) (c : N) :
  forall b, In c (sub_spaces b s) -> c = 32%N \/ In c s.
Proof.
  induction s as [|x r IH]; intro b; cbn; [tauto|].
  destruct (is_space x).
  - destruct b; cbn; [|intros [<-|H]; [now left|]];
      intros; destruct (IH true) as [|]; auto.
  - cbn. intros [<-|H]; [auto|]. destruct (IH false H); auto.
Qed.

Lemma In_strip (s : list N) (c : N) : In c (strip s) -> In c s.
Proof.
  unfold strip. intro H. apply in_rev in H. apply In_skip_spaces in H.
  apply in_rev in H. now apply In_skip_spaces in H.
Qed.

(** X2. A text without [<] that is already in the cleaned form is returned
    as it is; hence cleaning twice a text without [<] is cleaning it
    once. *)
Theorem clean_text_idempotent_without_lt (text : list N) :
  ~ In 60%N text ->
  (cleaned text -> clean_text text = text)
  /\ clean_text (clean_text text) = clean_text text.
Proof.
  intro Hlt.
  assert (Hfix : forall t, ~ In 60%N t -> cleaned t -> clean_text t = t).
  { intros t Ht (H1 & H2 & H3). unfold clean_text.
    rewrite (sub_br_no_lt t Ht), (sub_spaces_id t false H1).
    now apply strip_id. }
  split; [now apply Hfix|].
  apply Hfix.
  - unfold clean_text. rewrite (sub_br_no_lt text Hlt). intro H.
    apply In_strip in H. apply In_sub_spaces in H.
    destruct H as [H|H]; [discriminate | contradiction].
  - unfold clean_text. apply (strip_cleaned _ false).
    apply sub_spaces_single_spaced.
Qed.

(** With [<] in the text the tag may survive one cleaning: the inner
    [<br>] of ["<br<br>>"] becomes the space that completes the outer
    one. *)
Lemma clean_text_leaves_a_tag :
  clean_text (str "<br<br>>") = str "<br >"
  /\ clean_text (str "<br >") = [].
Proof. split; reflexivity. Qed.

Lemma clean_text_idempotent_without_lt_witness :
  ~ In 60%N (str "  Great   smell ")
  /\ clean_text (clean_text (str "  Great   smell "))
     = clean_text (str "  Great   smell ").
Proof.
  assert (H : ~ In 60%N (str "  Great   smell ")).
  { cbn. intro H. repeat (destruct H as [H|H]; [discriminate|]). exact H. }
  exact (conj H (proj2 (clean_text_idempotent_without_lt _ H))).
Defined.

(** ** The cache: size, keys, and what a request does to the other keys *)

Lemma length_lru_remove {V : Type} (k : string) (c : list (string * V)) (v : V) :
  Dict.get c k = Some v -> S (List.length (lru_remove k c)) = List.length c.
Proof.
  induction c as [|[k' v'] r IH]; cbn; [discriminate|].
  destruct (String.eqb k' k); [reflexivity|].
  intro H. cbn. f_equal. now apply IH.
Qed.

Lemma keys_lru_remove {V : Type} (k : string) (c : list (string * V)) (x : string) :
  In x (Dict.keys (lru_remove k c)) -> In x (Dict.keys c).
Proof.
  induction c as [|[k' v'] r IH]; cbn; [tauto|].
  destruct (String.eqb k' k); cbn; tauto.
Qed.

Lemma nodup_lru_remove {V : Type} (k : string) (c : list (string * V)) :
  NoDup (Dict.keys c) ->
  NoDup (Dict.keys (lru_remove k c)) /\ ~ In k (Dict.keys (lru_remove k c)).
Proof.
  induction c as [|[k' v'] r IH]; cbn; intro H; [split; [constructor | tauto]|].
  inversion H as [|? ? Hk' Hr]; subst.
  destruct (String.eqb_spec k' k) as [->|Hne]; [now split|].
  destruct (IH Hr) as [H1 H2]. cbn. split.
  - constructor; [|exact H1]. intro Hin. apply Hk'.
    now apply keys_lru_remove in Hin.
  - intros [E|Hin]; [congruence | contradiction].
Qed.

Lemma get_lru_remove_other {V : Type} (k k' : string) (c : list (string * V)) :
  k' <> k -> Dict.get (lru_remove k c) k' = Dict.get c k'.
Proof.
  intro Hne. induction c as [|[k0 v0] r IH]; cbn; [reflexivity|].
  destruct (String.eqb_spec k0 k) as [->|H0]; cbn.
  - destruct (String.eqb_spec k k'); [congruence | reflexivity].
  - now rewrite IH.
Qed.

Lemma keys_removelast {V : Type} (c : list (string * V)) :
  Dict.keys (removelast c) = removelast (Dict.keys c).
Proof.
  unfold Dict.keys. induction c as [|x r IH]; [reflexivity|].
  cbn. destruct r; [reflexivity|]. cbn in *. now rewrite IH.
Qed.

Lemma In_keys_removelast {V : Type} (c : list (string * V)) (x : string) :
  In x (Dict.keys (removelast c)) -> In x (Dict.keys c).
Proof.
  unfold Dict.keys. rewrite !in_map_iff. intros (e & He & Hin).
  exists e. split; [exact He | now apply In_removelast].
Qed.

Lemma nodup_removelast {A : Type} (l : list A) : NoDup l -> NoDup (removelast l).
Proof.
  intro H. destruct l as [|x r]; [exact H|].
  rewrite (app_removelast_last x (l := x :: r)) in H by discriminate.
  now apply NoDup_remove_1 in H; rewrite app_nil_r in H.
Qed.

Lemma get_removelast {V : Type} (c : list (string * V)) (k : string) :
  NoDup (Dict.keys c) ->
  Dict.get (removelast c) k = Dict.get c k
  \/ (Dict.get (removelast c) k = None
      /\ exists c0 v, c = c0 ++ [(k, v)]).
Proof.
  induction c as [|[k0 v0] r IH]; intro H; [now left|].
  inversion H as [|? ? Hk0 Hr]; subst.
  destruct r as [|e r'].
  - cbn. destruct (String.eqb_spec k0 k) as [->|Hne]; [|now left].
    right. split; [reflexivity|]. now exists [], v0.
  - change (removelast ((k0, v0) :: e :: r'))
      with ((k0, v0) :: removelast (e :: r')).
    cbn [Dict.get]. destruct (String.eqb_spec k0 k) as [->|Hne]; [now left|].
    destruct (IH Hr) as [E|(E & c0 & v & Ec)]; [now left|].
    right. split; [exact E|]. exists ((k0, v0) :: c0), v. cbn. now rewrite Ec.
Qed.

Section CacheFacts.
Variable df : list Row.t.
Variable classifier :
  nat -> list (list N) -> list string -> bool -> result (list ZeroShot.t).

(** At most [maxsize] entries, one for a key. *)
Definition cache_bounded (w : World) : Prop :=
  (List.length (cache w) <= 50)%nat /\ NoDup (Dict.keys (cache w)).

Lemma wrapped_cache (asin : string) (w : World) :
  cache (snd (cached_inference_wrapped df classifier asin w)) = cache w.
Proof.
  rewrite wrapped_eq. cbn [snd]. now destruct (product_reviews_of df asin).
Qed.

Lemma analyze_cache_bounded (asin : string) (w : World) :
  cache_bounded w -> cache_bounded (snd (analyze_product df classifier asin w)).
Proof.
  intros [Hlen Hnd].
  destruct (Dict.get (cache w) asin) as [v|] eqn:E.
  - rewrite (analyze_hit _ _ _ _ _ E). unfold cache_bounded.
    cbn [snd with_cache cache]. unfold lru_touch.
    cbn [List.length Dict.keys map fst].
    fold (Dict.keys (lru_remove asin (cache w))).
    rewrite (length_lru_remove _ _ _ E).
    destruct (nodup_lru_remove asin (cache w) Hnd) as [H1 H2].
    split; [exact Hlen | now constructor].
  - rewrite (analyze_miss _ _ _ _ E). unfold cache_bounded.
    destruct (pipeline df classifier (classifier_calls w) asin) as [v|e];
      cbn [snd with_cache cache]; [|now rewrite wrapped_cache].
    unfold lru_store. rewrite E.
    assert (Hk : ~ In asin (Dict.keys (cache w))) by now apply get_None_keys.
    destruct (Nat.leb_spec 50 (List.length (cache w))) as [Hfull|Hroom].
    + cbn [List.length Dict.keys map fst].
      fold (Dict.keys (removelast (cache w))). split.
      * rewrite removelast_firstn_len, length_firstn. lia.
      * constructor.
        -- intro Hin. apply Hk. now apply In_keys_removelast.
        -- rewrite keys_removelast. now apply nodup_removelast.
    + cbn [List.length Dict.keys map fst]. fold (Dict.keys (cache w)).
      split; [lia | now constructor].
Qed.

Lemma reachable_cache_bounded (w : World) :
  reachable df classifier w -> cache_bounded w.
Proof.
  induction 1 as [|asin w Hr IH].
  - split; [cbn; lia | constructor].
  - now apply analyze_cache_bounded.
Qed.

End CacheFacts.

(** X3. However many products are requested, and in whatever order, the
    cache never holds more than 50 entries, and never two for one ASIN. *)
Theorem cache_at_most_50_entries (df : list Row.t)
  (classifier : nat -> list (list N) -> list string -> bool
                -> result (list ZeroShot.t))
  (w : World) :
  reachable df classifier w ->
  (List.length (cache w) <= 50)%nat /\ NoDup (Dict.keys (cache w)).
Proof.
  intro Hr. destruct (reachable_cache_bounded df classifier w Hr) as [H1 H2].
  split; [exact H1 | exact H2].
Qed.

Lemma cache_at_most_50_entries_witness :
  reachable sample_df sample_classifier
    (snd (analyze_product sample_df sample_classifier "B01" empty_world))
  /\ (List.length
        (cache (snd (analyze_product sample_df sample_classifier "B01"
                       empty_world))) <= 50)%nat.
Proof.
  assert (H : reachable sample_df sample_classifier
                (snd (analyze_product sample_df sample_classifier "B01"
                        empty_world)))
    by (apply reach_call; apply reach_start).
  exact (conj H (proj1 (cache_at_most_50_entries _ _ _ H))).
Defined.

(** *** Which entry leaves a full cache

    [served asins] is the state after the requests for [asins], one after
    the other, from an empty cache, with the ASINs whose call of
    [cached_inference] returned, the latest first: a hit counts, and so does
    the [None] of a product without reviews; a call that raised does not.
    [recent used] lists each of them once, in the order of its latest
    use. *)

Fixpoint recent (used : list string) : list string :=
  match used with
  | [] => []
  | k :: earlier => k :: remove string_dec k (recent earlier)
  end.

Lemma NoDup_remove_key (k : string) (l : list string) :
  NoDup l -> NoDup (remove string_dec k l).
Proof.
  induction 1 as [|x l Hx Hl IH]; cbn; [constructor|].
  destruct (string_dec k x); [exact IH|].
  constructor; [|exact IH]. intro Hin. apply in_remove in Hin. tauto.
Qed.

Lemma recent_NoDup (used : list string) : NoDup (recent used).
Proof.
  induction used as [|k r IH]; cbn; [constructor|].
  constructor; [apply remove_In | now apply NoDup_remove_key].
Qed.

Lemma firstn_remove_In (k : string) (l : list string) (n : nat) :
  NoDup l -> In k (firstn (S n) l) ->
  firstn n (remove string_dec k l) = remove string_dec k (firstn (S n) l).
Proof.
  intro Hnd. revert n. induction Hnd as [|x l Hx Hl IH]; intros n Hin.
  - destruct Hin.
  - cbn [firstn remove]. destruct (string_dec k x) as [->|Hne].
    + rewrite !notin_remove; [reflexivity | | exact Hx].
      intro H. apply Hx. rewrite <- (firstn_skipn n l).
      apply in_or_app. now left.
    + destruct Hin as [E|Hin]; [congruence|].
      destruct n as [|n]; [destruct Hin|].
      cbn [firstn]. f_equal. now apply IH.
Qed.

Lemma firstn_remove_notin (k : string) (l : list string) (n : nat) :
  ~ In k (firstn n l) -> firstn n (remove string_dec k l) = firstn n l.
Proof.
  revert n. induction l as [|x l IH]; intros n Hin; [reflexivity|].
  destruct n as [|n]; [reflexivity|].
  cbn [firstn] in Hin. cbn [remove].
  destruct (string_dec k x) as [->|Hne]; [exfalso; apply Hin; now left|].
  cbn [firstn]. f_equal. apply IH. intro H. apply Hin. now right.
Qed.

Lemma keys_lru_remove_eq {V : Type} (k : string) (c : list (string * V)) :
  NoDup (Dict.keys c) ->
  Dict.keys (lru_remove k c) = remove string_dec k (Dict.keys c).
Proof.
  induction c as [|[k' v'] r IH]; cbn; intro H; [reflexivity|].
  inversion H as [|? ? Hk' Hr]; subst.
  destruct (String.eqb_spec k' k) as [->|Hne].
  - destruct (string_dec k k); [|congruence]. now rewrite notin_remove.
  - destruct (string_dec k k'); [congruence|]. cbn. f_equal. now apply IH.
Qed.

Lemma get_app {V : Type} (c1 c2 : list (string * V)) (k : string) :
  Dict.get (c1 ++ c2) k
  = match Dict.get c1 k with
    | Some v => Some v
    | None => Dict.get c2 k
    end.
Proof.
  induction c1 as [|[k' v'] r IH]; cbn; [reflexivity|].
  now destruct (String.eqb k' k).
Qed.

Lemma get_removelast_last {V : Type} (c0 : list (string * V)) (k0 : string)
  (v0 : V) (k : string) :
  NoDup (Dict.keys (c0 ++ [(k0, v0)])) ->
  Dict.get (removelast (c0 ++ [(k0, v0)])) k
  = if String.eqb k0 k then None else Dict.get (c0 ++ [(k0, v0)]) k.
Proof.
  intro Hnd. rewrite removelast_last, get_app. cbn [Dict.get].
  unfold Dict.keys in Hnd. rewrite map_app in Hnd. cbn [map fst] in Hnd.
  apply NoDup_remove_2 in Hnd. rewrite app_nil_r in Hnd.
  destruct (String.eqb_spec k0 k) as [->|Hne].
  - now apply get_None_keys.
  - now destruct (Dict.get c0 k).
Qed.

Section History.
Variable df : list Row.t.
Variable classifier :
  nat -> list (list N) -> list string -> bool -> result (list ZeroShot.t).

Definition request (st : World * list string) (asin : string)
  : World * list string :=
  let r := cached_inference df classifier asin (fst st) in
  (snd r,
   match fst r with
   | Ok _ => asin :: snd st
   | Raise _ => snd st
   end).

Definition served (asins : list string) : World * list string :=
  fold_left request asins (empty_world, []).

Lemma served_snoc (asins : list string) (asin : string) :
  served (asins ++ [asin]) = request (served asins) asin.
Proof. unfold served. now rewrite fold_left_app. Qed.

Lemma served_reachable (asins : list string) :
  reachable df classifier (fst (served asins)).
Proof.
  induction asins as [|asin asins IH] using rev_ind; [apply reach_start|].
  rewrite served_snoc. unfold request. cbn [fst].
  rewrite <- analyze_cache. now apply reach_call.
Qed.

(** The cache holds the 50 ASINs used last, the latest first. *)
Lemma request_keys (w : World) (used : list string) (asin : string) :
  cache_bounded w ->
  Dict.keys (cache w) = firstn 50 (recent used) ->
  Dict.keys (cache (fst (request (w, used) asin)))
  = firstn 50 (recent (snd (request (w, used) asin))).
Proof.
  intros [Hlen Hnd] Hk. unfold request. cbn [fst snd].
  unfold cached_inference.
  destruct (Dict.get (cache w) asin) as [v|] eqn:E.
  - cbn [fst snd with_cache cache recent]. unfold lru_touch.
    cbn [Dict.keys map fst]. fold (Dict.keys (lru_remove asin (cache w))).
    rewrite (keys_lru_remove_eq _ _ Hnd), Hk, (firstn_cons 49). f_equal.
    symmetry. apply firstn_remove_In; [apply recent_NoDup|].
    rewrite <- Hk. apply get_In in E.
    apply in_map_iff. now exists (asin, v).
  - rewrite wrapped_eq.
    destruct (pipeline df classifier (classifier_calls w) asin) as [v|e];
      cbn [fst snd with_cache cache];
      [|now destruct (product_reviews_of df asin)].
    assert (Hc : cache (match product_reviews_of df asin with
                        | [] => count_store_query w
                        | _ :: _ => count_classifier_call (count_store_query w)
                        end) = cache w)
      by now destruct (product_reviews_of df asin).
    rewrite Hc. unfold lru_store. rewrite E.
    assert (Hout : ~ In asin (firstn 50 (recent used)))
      by (rewrite <- Hk; now apply get_None_keys).
    cbn [recent]. rewrite (firstn_cons 49).
    assert (H49 : firstn 49 (remove string_dec asin (recent used))
                  = firstn 49 (recent used)).
    { apply firstn_remove_notin. intro H. apply Hout.
      rewrite <- (firstn_skipn 49 (firstn 50 (recent used))).
      apply in_or_app. left. rewrite firstn_firstn. exact H. }
    rewrite H49.
    assert (Hl : List.length (cache w)
                 = List.length (firstn 50 (recent used)))
      by (rewrite <- Hk; unfold Dict.keys; now rewrite length_map).
    rewrite length_firstn in Hl.
    destruct (Nat.leb_spec 50 (List.length (cache w))) as [Hfull|Hroom];
      cbn [Dict.keys map fst]; f_equal.
    + fold (Dict.keys (removelast (cache w))).
      rewrite keys_removelast, Hk. apply removelast_firstn. lia.
    + fold (Dict.keys (cache w)). rewrite Hk.
      rewrite !firstn_all2 by lia. reflexivity.
Qed.

Lemma served_keys (asins : list string) :
  Dict.keys (cache (fst (served asins)))
  = firstn 50 (recent (snd (served asins))).
Proof.
  induction asins as [|asin asins IH] using rev_ind; [reflexivity|].
  rewrite served_snoc.
  pose proof (reachable_cache_bounded _ _ _ (served_reachable asins)) as Hb.
  destruct (served asins) as [w used]. now apply request_keys.
Qed.

End History.

(** X4. After any sequence of requests the cache holds the 50 ASINs used
    last, the latest first. The next request, for one ASIN, leaves what the
    cache holds for any other ASIN as it was, with one exception: when the
    requested ASIN is not among them and its call returns, the ASIN whose
    last use is the oldest of the 50 is dropped. *)
Theorem request_keeps_other_entries (df : list Row.t)
  (classifier : nat -> list (list N) -> list string -> bool
                -> result (list ZeroShot.t))
  (asins : list string) (asin k : string) :
  k <> asin ->
  let w := fst (served df classifier asins) in
  let used := snd (served df classifier asins) in
  let w' := snd (analyze_product df classifier asin w) in
  let drops :=
    nth_error (recent used) 49 = Some k
    /\ ~ In asin (firstn 50 (recent used))
    /\ exists v, fst (cached_inference df classifier asin w) = Ok v in
  Dict.keys (cache w) = firstn 50 (recent used)
  /\ (drops -> Dict.get (cache w) k <> None /\ Dict.get (cache w') k = None)
  /\ (~ drops -> Dict.get (cache w') k = Dict.get (cache w) k).
Proof.
  intros Hne w used w' drops.
  pose proof (served_keys df classifier asins) as Hk. fold w used in Hk.
  destruct (reachable_cache_bounded _ _ _ (served_reachable df classifier asins))
    as [Hlen Hnd]. fold w in Hlen, Hnd.
  assert (Hak : (asin =? k)%string = false)
    by (apply String.eqb_neq; congruence).
  assert (Hl : List.length (cache w) = List.length (firstn 50 (recent used)))
    by (rewrite <- Hk; unfold Dict.keys; now rewrite length_map).
  rewrite length_firstn in Hl.
  split; [exact Hk|].
  subst w' drops. rewrite analyze_cache. unfold cached_inference.
  destruct (Dict.get (cache w) asin) as [v|] eqn:E.
  - (* a hit *)
    cbn [fst snd with_cache cache]. unfold lru_touch. cbn [Dict.get].
    rewrite Hak, (get_lru_remove_other _ _ _ Hne).
    split; [|reflexivity].
    intros (_ & Hout & _). exfalso. apply Hout. rewrite <- Hk.
    apply get_In in E. apply in_map_iff. now exists (asin, v).
  - rewrite wrapped_eq.
    assert (Hc : cache (match product_reviews_of df asin with
                        | [] => count_store_query w
                        | _ :: _ => count_classifier_call (count_store_query w)
                        end) = cache w)
      by now destruct (product_reviews_of df asin).
    destruct (pipeline df classifier (classifier_calls w) asin) as [v|e];
      cbn [fst snd with_cache cache].
    + (* a miss, and the call returns *)
      rewrite Hc. unfold lru_store. rewrite E.
      destruct (Nat.leb_spec 50 (List.length (cache w))) as [Hfull|Hroom];
        cbn [Dict.get]; rewrite Hak.
      * destruct (cache w) as [|e0 c] eqn:Ec using rev_ind;
          [cbn in Hfull; lia|]. clear IHc.
        destruct e0 as [k0 v0].
        rewrite (get_removelast_last c k0 v0 k Hnd).
        assert (H49 : nth_error (recent used) 49 = Some k0).
        { replace (nth_error (recent used) 49)
            with (nth_error (firstn 50 (recent used)) 49)
            by (now rewrite nth_error_firstn).
          rewrite <- Hk.
          unfold Dict.keys. rewrite map_app. cbn [map fst].
          rewrite length_app in Hlen, Hfull. cbn [List.length] in Hlen, Hfull.
          rewrite nth_error_app2 by (rewrite length_map; lia).
          rewrite length_map.
          replace (49 - List.length c)%nat with 0%nat by lia. reflexivity. }
        rewrite H49. destruct (String.eqb_spec k0 k) as [->|Hk0].
        -- split; [|intro H; exfalso; apply H].
           ++ intros _. split; [|reflexivity].
              rewrite get_app. cbn [Dict.get]. rewrite String.eqb_refl.
              now destruct (Dict.get c k).
           ++ split; [reflexivity|]. split; [|now exists v].
              rewrite <- Hk. now apply get_None_keys.
        -- split; [|reflexivity]. intros ([= Hk'] & _). congruence.
      * split; [|reflexivity]. intros (H49 & _). exfalso.
        assert (49 < List.length (recent used))%nat
          by (apply nth_error_Some; rewrite H49; discriminate).
        lia.
    + (* a miss, and the call raises *)
      rewrite Hc. split; [|reflexivity].
      intros (_ & _ & v & Hv). discriminate.
Qed.

(** Fifty products without reviews, requested one after the other; the
    first is requested again, which is a hit; then a fifty-first product:
    the second one requested leaves the cache, the first one stays. *)
Definition fifty_asins : list string :=
  map (fun n => String (ascii_of_nat (48 + n)) EmptyString) (seq 0 50).

Lemma request_keeps_other_entries_witness :
  "1"%string <> "z"%string
  /\ Dict.get
       (cache (fst (served sample_df sample_classifier (fifty_asins ++ ["0"%string]))))
       "1"
     <> None
  /\ Dict.get
       (cache (snd (analyze_product sample_df sample_classifier "z"
                      (fst (served sample_df sample_classifier
                              (fifty_asins ++ ["0"%string])))))) "1"%string
     = None
  /\ Dict.get
       (cache (snd (analyze_product sample_df sample_classifier "z"
                      (fst (served sample_df sample_classifier
                              (fifty_asins ++ ["0"%string])))))) "0"
     = Some None.
Proof.
  assert (Hne : "1"%string <> "z"%string) by discriminate.
  pose proof (request_keeps_other_entries sample_df sample_classifier
                (fifty_asins ++ ["0"%string]) "z" "1" Hne) as H.
  cbv zeta in H. destruct H as (_ & H & _).
  assert (Hdrops :
    nth_error
      (recent (snd (served sample_df sample_classifier (fifty_asins ++ ["0"%string]))))
      49 = Some "1"%string
    /\ ~ In "z"%string
         (firstn 50
            (recent (snd (served sample_df sample_classifier
                            (fifty_asins ++ ["0"%string])))))
    /\ exists v,
         fst (cached_inference sample_df sample_classifier "z"
                (fst (served sample_df sample_classifier
                        (fifty_asins ++ ["0"%string])))) = Ok v).
  { split; [vm_compute; reflexivity|]. split.
    - vm_compute. intro Hin.
      repeat (destruct Hin as [Hin|Hin]; [discriminate|]). exact Hin.
    - eexists. vm_compute. reflexivity. }
  destruct (H Hdrops) as [H1 H2].
  refine (conj Hne (conj H1 (conj H2 _))).
  vm_compute. reflexivity.
Defined.

(** X5. One request calls the classifier at most once: once when the ASIN
    is not in the cache and has reviews, not at all on a cache hit or for
    an ASIN without reviews. The table is read on a miss only. *)
Theorem request_calls_classifier_at_most_once (df : list Row.t)
  (classifier : nat -> list (list N) -> list string -> bool
                -> result (list ZeroShot.t))
  (w : World) (asin : string) :
  let w' := snd (analyze_product df classifier asin w) in
  classifier_calls w'
  = (classifier_calls w
     + match Dict.get (cache w) asin, product_reviews_of df asin with
       | None, _ :: _ => 1
       | _, _ => 0
       end)%nat
  /\ store_queries w'
     = (store_queries w
        + match Dict.get (cache w) asin with
          | None => 1
          | Some _ => 0
          end)%nat.
Proof.
  intro w'. subst w'.
  destruct (Dict.get (cache w) asin) as [v|] eqn:E.
  - rewrite (analyze_hit _ _ _ _ _ E).
    cbn [snd with_cache classifier_calls store_queries]. lia.
  - rewrite (analyze_miss _ _ _ _ E), wrapped_eq.
    destruct (pipeline df classifier (classifier_calls w) asin) as [v|e];
      destruct (product_reviews_of df asin);
      cbn [snd with_cache classifier_calls store_queries
           count_classifier_call count_store_query]; lia.
Qed.

(** ** The classifier's answer: when it is usable, and what happens when it
    is not *)

Definition usable (res : ZeroShot.t) : Prop :=
  ZeroShot.labels res <> [] /\ ZeroShot.scores res <> [].

Lemma usable_dec (res : ZeroShot.t) : usable res \/ best_of res = Raise ValueError.
Proof.
  unfold usable, best_of.
  destruct (ZeroShot.labels res) as [|l ls]; [now right|].
  destruct (ZeroShot.scores res) as [|s ss]; [now right|].
  left. split; discriminate.
Qed.

Lemma best_of_usable (res : ZeroShot.t) (best : string * float) :
  best_of res = Ok best -> usable res.
Proof.
  intro H. destruct (usable_dec res) as [Hu|He]; [exact Hu | congruence].
Qed.

Lemma loop_body_total (results : list ZeroShot.t) (raw_texts : list (list N))
  (i : nat) (row : Row.t) (acc : Acc) (res : ZeroShot.t) :
  acc_ok acc ->
  nth_error results i = Some res -> usable res ->
  (i < List.length raw_texts)%nat ->
  exists acc', loop_body results raw_texts i row acc = Ok acc'.
Proof.
  intros Hok Hres [Hl Hs] Hi. unfold loop_body, getitem. rewrite Hres.
  destruct (nth_error raw_texts i) as [txt|] eqn:Etxt;
    [|apply nth_error_None in Etxt; lia].
  cbn [rbind]. destruct (best_of_total res Hl Hs) as [[t s] ->]. cbn [rbind].
  rewrite (ok_sentiment _ Hok). unfold breakdown_of, incr, dict_getitem.
  destruct (Row.rating row >=? 4); [cbn; eauto|].
  destruct (Row.rating row <=? 2); cbn; eauto.
Qed.

(** The loop stops at the first position where the answer is missing
    ([IndexError]) or has no label or no score ([ValueError]). *)
Lemma loop_fails_at (results : list ZeroShot.t) (raw_texts : list (list N))
  (rows : list Row.t) (j : nat) (e : exn) :
  (forall k res, (k < j)%nat -> nth_error results k = Some res -> usable res) ->
  (j <= List.length results)%nat ->
  match nth_error results j with
  | None => e = IndexError
  | Some res => best_of res = Raise e
  end ->
  forall (i : nat) (acc : Acc),
    acc_ok acc ->
    (i <= j < i + List.length rows)%nat ->
    (i + List.length rows <= List.length raw_texts)%nat ->
    loop results raw_texts i rows acc = Raise e.
Proof.
  intros Hbefore Hj Hat.
  induction rows as [|row rest IH]; intros i acc Hok Hi Hraw;
    cbn [List.length] in *; [lia|].
  cbn [loop]. destruct (Nat.eq_dec i j) as [->|Hne].
  - unfold loop_body, getitem.
    destruct (nth_error results j) as [res|]; cbn [rbind]; [|now subst e].
    now rewrite Hat.
  - destruct (nth_error results i) as [res|] eqn:Eres;
      [|apply nth_error_None in Eres; lia].
    destruct (loop_body_total results raw_texts i row acc res Hok Eres)
      as [acc1 Hbody]; [apply (Hbefore i); [lia | exact Eres] | lia|].
    rewrite Hbody. cbn [rbind].
    destruct (loop_body_ok _ _ _ _ _ _ Hok Hbody) as [Hok1 _].
    apply IH; [exact Hok1 | lia | lia].
Qed.

(** Results past the last text are not looked at. *)
Lemma loop_firstn (results : list ZeroShot.t) (raw_texts : list (list N))
  (m : nat) (rows : list Row.t) :
  forall (i : nat) (acc : Acc),
    (i + List.length rows <= m)%nat ->
    loop (firstn m results) raw_texts i rows acc
    = loop results raw_texts i rows acc.
Proof.
  induction rows as [|row rest IH]; intros i acc Hm; [reflexivity|].
  cbn [List.length] in Hm. cbn [loop].
  assert (Hb : forall a, loop_body (firstn m results) raw_texts i row a
                         = loop_body results raw_texts i row a).
  { intro a. unfold loop_body, getitem.
    now rewrite nth_error_firstn, (proj2 (Nat.ltb_lt i m)) by lia. }
  rewrite Hb. destruct (loop_body results raw_texts i row acc); [|reflexivity].
  cbn [rbind]. apply IH. lia.
Qed.

Section Answers.
Variable df : list Row.t.
Variable classifier :
  nat -> list (list N) -> list string -> bool -> result (list ZeroShot.t).

Lemma pipeline_answered (n : nat) (asin : string) (results : list ZeroShot.t)
  (meta : Row.t) (rest : list Row.t) :
  product_reviews_of df asin = meta :: rest ->
  classifier n (raw_texts_of df asin) LABELS true = Ok results ->
  pipeline df classifier n asin
  = (r <- aggregate (product_reviews_of df asin) (target_reviews_of df asin)
            (raw_texts_of df asin) results meta ;;
     Ok (Some r))%py.
Proof.
  intros Hrows Hcl. unfold pipeline. rewrite Hrows, Hcl. reflexivity.
Qed.

Lemma raw_texts_length (asin : string) :
  List.length (raw_texts_of df asin) = List.length (target_reviews_of df asin).
Proof. apply length_map. Qed.

Lemma target_nonempty (asin : string) :
  product_reviews_of df asin <> [] ->
  (0 < List.length (target_reviews_of df asin))%nat.
Proof.
  intro H. pose proof (target_length df asin) as Hl. unfold len in Hl.
  destruct (product_reviews_of df asin); [congruence|]. cbn [List.length] in Hl.
  lia.
Qed.

Lemma pipeline_loop_fails (n : nat) (asin : string)
  (results : list ZeroShot.t) (e : exn) :
  product_reviews_of df asin <> [] ->
  classifier n (raw_texts_of df asin) LABELS true = Ok results ->
  loop results (raw_texts_of df asin) O (target_reviews_of df asin) init_acc
  = Raise e ->
  pipeline df classifier n asin = Raise e.
Proof.
  intros Hrows Hcl Hloop.
  destruct (product_reviews_of df asin) as [|meta rest] eqn:E; [congruence|].
  rewrite <- E in *. rewrite (pipeline_answered n asin results meta rest E Hcl).
  unfold aggregate. now rewrite Hloop.
Qed.

Lemma analyze_pipeline_fails (w : World) (asin : string) (e : exn) :
  Dict.get (cache w) asin = None ->
  pipeline df classifier (classifier_calls w) asin = Raise e ->
  fst (analyze_product df classifier asin w) = Raise e
  /\ cache (snd (analyze_product df classifier asin w)) = cache w.
Proof.
  intros Hmiss Hp. rewrite (analyze_miss _ _ _ _ Hmiss), Hp. cbn [fst snd].
  split; [reflexivity | apply wrapped_cache].
Qed.

End Answers.

(** X6. For an ASIN with reviews, the pipeline turns the classifier's
    answer into an analysis exactly when the answer has a result for every
    selected text and each of these results has at least one label and one
    score; what the answer holds beyond them does not matter. *)
Theorem analysis_iff_answer_usable (df : list Row.t)
  (classifier : nat -> list (list N) -> list string -> bool
                -> result (list ZeroShot.t))
  (n : nat) (asin : string) (results : list ZeroShot.t) :
  product_reviews_of df asin <> [] ->
  classifier n (raw_texts_of df asin) LABELS true = Ok results ->
  (exists a, pipeline df classifier n asin = Ok (Some a))
  <->
  ((List.length (raw_texts_of df asin) <= List.length results)%nat
   /\ forall k res,
        (k < List.length (raw_texts_of df asin))%nat ->
        nth_error results k = Some res -> usable res).
Proof.
  intros Hrows Hcl. split.
  - intros [a Ha].
    destruct (product_reviews_of df asin) as [|meta rest] eqn:E; [congruence|].
    rewrite <- E in *.
    rewrite (pipeline_answered df classifier n asin results meta rest E Hcl) in Ha.
    destruct (aggregate (product_reviews_of df asin) (target_reviews_of df asin)
                (raw_texts_of df asin) results meta) as [a'|] eqn:Ea;
      [|discriminate].
    cbn [rbind] in Ha. injection Ha as ->.
    assert (Hb : built_from df asin results a) by now exists meta, rest.
    destruct (built_from_facts _ _ _ _ Hb) as (_ & _ & _ & Hl & _).
    rewrite raw_texts_length, <- Hl.
    assert (Hres : forall k, (k < List.length (ReviewAnalysis.reviews a))%nat ->
              exists res, nth_error results k = Some res /\ usable res).
    { intros k Hk.
      destruct (nth_error (ReviewAnalysis.reviews a) k) as [d|] eqn:Ed;
        [|apply nth_error_None in Ed; lia].
      destruct (built_from_review _ _ _ _ _ _ Hb Ed) as (res & Hr & Hbest).
      exists res. split; [exact Hr | now apply best_of_usable in Hbest]. }
    split.
    + destruct (Nat.le_gt_cases (List.length (ReviewAnalysis.reviews a))
                  (List.length results)) as [H|H]; [exact H|].
      destruct (Hres (List.length results) H) as (res & Hr & _).
      assert (nth_error results (List.length results) = None)
        by (apply nth_error_None; lia). congruence.
    + intros k res Hk Hr. destruct (Hres k Hk) as (res' & Hr' & Hu). congruence.
  - intros [Hlen Hall].
    set (m := List.length (raw_texts_of df asin)) in *.
    set (classifier' := fun (_ : nat) (_ : list (list N)) (_ : list string)
                            (_ : bool) => Ok (firstn m results)).
    destruct (pipeline_total df classifier' n asin (firstn m results) Hrows eq_refl)
      as [a Ha].
    { split; [rewrite length_firstn; fold m; lia|].
      apply Forall_forall. intros res Hin. apply In_nth_error in Hin.
      destruct Hin as [k Hk].
      assert (Hkm : (k < m)%nat).
      { assert (nth_error (firstn m results) k <> None) by congruence.
        apply nth_error_Some in H. rewrite length_firstn in H. lia. }
      rewrite nth_error_firstn, (proj2 (Nat.ltb_lt k m) Hkm) in Hk.
      exact (Hall k res Hkm Hk). }
    exists a.
    destruct (product_reviews_of df asin) as [|meta rest] eqn:E; [congruence|].
    rewrite <- E in *.
    rewrite (pipeline_answered df classifier n asin results meta rest E Hcl).
    rewrite (pipeline_answered df classifier' n asin (firstn m results) meta rest
               E eq_refl) in Ha.
    unfold aggregate in *. rewrite loop_firstn in Ha; [exact Ha|].
    unfold m. rewrite raw_texts_length. lia.
Qed.

(** X7. When the classifier answers with fewer results than texts, all of
    them with labels and scores, the request fails with [IndexError] and
    nothing is stored in the cache. *)
Theorem short_answer_raises_IndexError (df : list Row.t)
  (classifier : nat -> list (list N) -> list string -> bool
                -> result (list ZeroShot.t))
  (w : World) (asin : string) (results : list ZeroShot.t) :
  Dict.get (cache w) asin = None ->
  product_reviews_of df asin <> [] ->
  classifier (classifier_calls w) (raw_texts_of df asin) LABELS true = Ok results ->
  (List.length results < List.length (raw_texts_of df asin))%nat ->
  Forall usable results ->
  fst (analyze_product df classifier asin w) = Raise IndexError
  /\ cache (snd (analyze_product df classifier asin w)) = cache w.
Proof.
  intros Hmiss Hrows Hcl Hshort Hall.
  apply analyze_pipeline_fails; [exact Hmiss|].
  apply (pipeline_loop_fails df classifier _ asin results); [exact Hrows | exact Hcl|].
  rewrite raw_texts_length in Hshort.
  apply (loop_fails_at results _ _ (List.length results)).
  - intros k res _ Hk. rewrite Forall_forall in Hall.
    apply Hall. now apply nth_error_In with k.
  - lia.
  - now rewrite (proj2 (nth_error_None results (List.length results))) by lia.
  - exact init_acc_ok.
  - lia.
  - rewrite raw_texts_length. lia.
Qed.

(** X8. When one of the results the loop reaches has no label or no score,
    the results before it being in order, the request fails with
    [ValueError] and nothing is stored in the cache. *)
Theorem empty_result_raises_ValueError (df : list Row.t)
  (classifier : nat -> list (list N) -> list string -> bool
                -> result (list ZeroShot.t))
  (w : World) (asin : string) (results : list ZeroShot.t) (j : nat)
  (res : ZeroShot.t) :
  Dict.get (cache w) asin = None ->
  product_reviews_of df asin <> [] ->
  classifier (classifier_calls w) (raw_texts_of df asin) LABELS true = Ok results ->
  (j < List.length (raw_texts_of df asin))%nat ->
  nth_error results j = Some res ->
  ZeroShot.labels res = [] \/ ZeroShot.scores res = [] ->
  (forall k res', (k < j)%nat -> nth_error results k = Some res' -> usable res') ->
  fst (analyze_product df classifier asin w) = Raise ValueError
  /\ cache (snd (analyze_product df classifier asin w)) = cache w.
Proof.
  intros Hmiss Hrows Hcl Hj Hres Hbad Hbefore.
  apply analyze_pipeline_fails; [exact Hmiss|].
  apply (pipeline_loop_fails df classifier _ asin results); [exact Hrows | exact Hcl|].
  rewrite raw_texts_length in Hj.
  apply (loop_fails_at results _ _ j).
  - exact Hbefore.
  - apply Nat.lt_le_incl. apply nth_error_Some. congruence.
  - rewrite Hres. destruct (usable_dec res) as [[Hl Hs]|He]; [|exact He].
    destruct Hbad; contradiction.
  - exact init_acc_ok.
  - lia.
  - rewrite raw_texts_length. lia.
Qed.

Definition silent_classifier (n : nat) (texts : list (list N))
  (labels : list string) (multi_label : bool) : result (list ZeroShot.t) :=
  Ok [].

Definition blank_classifier (n : nat) (texts : list (list N))
  (labels : list string) (multi_label : bool) : result (list ZeroShot.t) :=
  Ok (map (fun _ => ZeroShot.mk [] []) texts).

Lemma sample_has_reviews : product_reviews_of sample_df "B01" <> [].
Proof. discriminate. Defined.

Lemma analysis_iff_answer_usable_witness :
  product_reviews_of sample_df "B01" <> []
  /\ sample_classifier O (raw_texts_of sample_df "B01") LABELS true
     = sample_classifier O (raw_texts_of sample_df "B01") LABELS true
  /\ exists a, pipeline sample_df sample_classifier O "B01" = Ok (Some a).
Proof.
  refine (conj sample_has_reviews (conj eq_refl _)).
  apply (proj2 (analysis_iff_answer_usable sample_df sample_classifier O "B01" _
                  sample_has_reviews eq_refl)).
  split; [vm_compute; lia|].
  intros k res Hk Hres. vm_compute in Hk.
  destruct k as [|[|[|k]]]; try lia; vm_compute in Hres;
    injection Hres as <-; split; discriminate.
Defined.

Lemma short_answer_raises_IndexError_witness :
  Dict.get (cache empty_world) "B01" = None
  /\ product_reviews_of sample_df "B01" <> []
  /\ silent_classifier O (raw_texts_of sample_df "B01") LABELS true = Ok []
  /\ (List.length (@nil ZeroShot.t)
      < List.length (raw_texts_of sample_df "B01"))%nat
  /\ fst (analyze_product sample_df silent_classifier "B01" empty_world)
     = Raise IndexError.
Proof.
  assert (H : (List.length (@nil ZeroShot.t)
               < List.length (raw_texts_of sample_df "B01"))%nat)
    by (vm_compute; lia).
  refine (conj eq_refl (conj sample_has_reviews (conj eq_refl (conj H _)))).
  exact (proj1 (short_answer_raises_IndexError sample_df silent_classifier
                  empty_world "B01" [] eq_refl sample_has_reviews eq_refl H
                  (Forall_nil _))).
Defined.

Lemma empty_result_raises_ValueError_witness :
  Dict.get (cache empty_world) "B01" = None
  /\ product_reviews_of sample_df "B01" <> []
  /\ (0 < List.length (raw_texts_of sample_df "B01"))%nat
  /\ fst (analyze_product sample_df blank_classifier "B01" empty_world)
     = Raise ValueError.
Proof.
  assert (H : (0 < List.length (raw_texts_of sample_df "B01"))%nat)
    by (vm_compute; lia).
  refine (conj eq_refl (conj sample_has_reviews (conj H _))).
  refine (proj1 (empty_result_raises_ValueError sample_df blank_classifier
                   empty_world "B01" _ O (ZeroShot.mk [] []) eq_refl
                   sample_has_reviews eq_refl H eq_refl (or_introl eq_refl) _)).
  intros k res' Hk. lia.
Defined.

(** ** More on the returned analysis *)

(** The distinct elements of [l], each at its first place; [seen] are
    those met before. *)
Fixpoint firsts (seen l : list string) : list string :=
  match l with
  | [] => []
  | x :: r =>
      if in_dec string_dec x seen then firsts seen r
      else x :: firsts (x :: seen) r
  end.

Lemma firsts_snoc (l : list string) (x : string) :
  forall seen,
    firsts seen (l ++ [x])
    = firsts seen l ++ (if in_dec string_dec x (seen ++ l) then [] else [x]).
Proof.
  induction l as [|y l IH]; intro seen; cbn.
  - rewrite app_nil_r. now destruct (in_dec string_dec x seen).
  - destruct (in_dec string_dec y seen) as [Hy|Hy].
    + rewrite IH. f_equal.
      destruct (in_dec string_dec x (seen ++ l)) as [H|H],
               (in_dec string_dec x (seen ++ y :: l)) as [H'|H'];
        try reflexivity; exfalso.
      * apply H'. apply in_app_or in H. apply in_or_app.
        destruct H; [now left | right; now right].
      * apply H. apply in_app_or in H'. apply in_or_app.
        destruct H' as [|[<-|]]; [now left | now left | now right].
    + cbn. rewrite IH. f_equal. f_equal.
      destruct (in_dec string_dec x ((y :: seen) ++ l)) as [H|H],
               (in_dec string_dec x (seen ++ y :: l)) as [H'|H'];
        try reflexivity; exfalso.
      * apply H'. cbn in H. apply in_or_app.
        destruct H as [<-|H]; [right; now left|].
        apply in_app_or in H. destruct H; [now left | right; now right].
      * apply H. cbn. apply in_app_or in H'.
        destruct H' as [|[<-|]]; [right | now left | right];
          apply in_or_app; [now left | now right].
Qed.

Lemma In_firsts (l : list string) (x : string) :
  In x (firsts [] l) <-> In x l.
Proof.
  induction l as [|y l IH] using rev_ind; [reflexivity|].
  rewrite firsts_snoc. cbn [app]. rewrite !in_app_iff, IH.
  destruct (in_dec string_dec y l) as [H|H]; cbn; [|tauto].
  split; [tauto|]. intros [Hx|[<-|[]]]; tauto.
Qed.

Lemma loop_body_topics (results : list ZeroShot.t) (raw_texts : list (list N))
  (i : nat) (row : Row.t) (acc acc' : Acc) :
  loop_body results raw_texts i row acc = Ok acc' ->
  exists d,
    processed_reviews acc' = processed_reviews acc ++ [d]
    /\ topic_counts acc'
       = Dict.set (topic_counts acc) (ReviewDetail.topic d)
           (Dict.get_or (topic_counts acc) (ReviewDetail.topic d) 0 + 1).
Proof.
  unfold loop_body.
  destruct (getitem results i) as [res|]; [|discriminate]. cbn [rbind].
  destruct (best_of res) as [[t s]|]; [|discriminate]. cbn [rbind].
  destruct (getitem raw_texts i) as [txt|]; [|discriminate]. cbn [rbind].
  destruct (if Row.rating row >=? 4
            then incr (sentiment_counts acc) "Positive"
            else if Row.rating row <=? 2
                 then incr (sentiment_counts acc) "Negative"
                 else incr (sentiment_counts acc) "Neutral") as [sc|];
    [|discriminate].
  cbn [rbind]. intros [= <-]. eexists. split; reflexivity.
Qed.

(** The keys of the topic counts stand in the order in which the topics
    first appear among the reviews processed. *)
Definition topics_in_order (acc : Acc) : Prop :=
  Dict.keys (topic_counts acc)
  = firsts [] (map ReviewDetail.topic (processed_reviews acc)).

Lemma loop_topics_in_order (results : list ZeroShot.t)
  (raw_texts : list (list N)) (rows : list Row.t) :
  forall (i : nat) (acc acc' : Acc),
    topics_in_order acc ->
    loop results raw_texts i rows acc = Ok acc' ->
    topics_in_order acc'.
Proof.
  induction rows as [|row rest IH]; intros i acc acc' Hacc H.
  - now injection H as <-.
  - cbn [loop] in H.
    destruct (loop_body results raw_texts i row acc) as [acc1|] eqn:E1;
      [|discriminate].
    cbn [rbind] in H. apply (IH (S i) acc1 acc'); [|exact H].
    destruct (loop_body_topics _ _ _ _ _ _ E1) as (d & Hp & Ht).
    unfold topics_in_order in *. rewrite Hp, Ht, keys_set, map_app.
    cbn [map]. rewrite firsts_snoc. cbn [app]. rewrite <- Hacc.
    destruct (Dict.get (topic_counts acc) (ReviewDetail.topic d)) as [v|] eqn:Eg.
    + destruct (in_dec string_dec (ReviewDetail.topic d)
                  (map ReviewDetail.topic (processed_reviews acc))) as [Hin|Hout];
        [now rewrite app_nil_r|].
      exfalso. apply Hout. apply In_firsts. rewrite <- Hacc.
      destruct (in_dec string_dec (ReviewDetail.topic d)
                  (Dict.keys (topic_counts acc))) as [H'|H']; [exact H'|].
      apply get_None_keys in H'. congruence.
    + destruct (in_dec string_dec (ReviewDetail.topic d)
                  (map ReviewDetail.topic (processed_reviews acc))) as [Hin|Hout];
        [|reflexivity].
      exfalso. apply In_firsts in Hin. rewrite <- Hacc in Hin.
      now apply get_None_keys in Eg.
Qed.

Lemma percentages_keys (d : Dict.t Z) (total : Z) (tp : Dict.t float) :
  percentages d total = Ok tp -> Dict.keys tp = Dict.keys d.
Proof.
  revert tp. induction d as [|[k v] r IH]; intros tp H; cbn in H.
  - now injection H as <-.
  - destruct (truediv v total) as [q|]; [|discriminate]. cbn [rbind] in H.
    destruct (percentages r total) as [r'|]; [|discriminate]. cbn [rbind] in H.
    injection H as <-. cbn. f_equal. now apply IH.
Qed.

(** Everything [aggregate] puts in the record. *)
Lemma built_from_inv (df : list Row.t) (asin : string)
  (results : list ZeroShot.t) (a : ReviewAnalysis.t) :
  built_from df asin results a ->
  exists meta rest acc,
    product_reviews_of df asin = meta :: rest
    /\ loop results (raw_texts_of df asin) O (target_reviews_of df asin) init_acc
       = Ok acc
    /\ ReviewAnalysis.reviews a = processed_reviews acc
    /\ ReviewAnalysis.analyzed_count a = len (processed_reviews acc)
    /\ ReviewAnalysis.sentiment_breakdown a = sentiment_counts acc
    /\ percentages (topic_counts acc) (len (processed_reviews acc))
       = Ok (ReviewAnalysis.top_topics a)
    /\ generate_smart_summary (topic_counts acc) (sentiment_counts acc)
         (len (processed_reviews acc)) = Ok (ReviewAnalysis.ai_summary a)
    /\ ReviewAnalysis.product_title a = Row.product_title meta
    /\ ReviewAnalysis.product_image a = Row.product_image meta
    /\ ReviewAnalysis.average_rating a
       = (if PrimFloat.eqb (Row.average_rating meta) 0 then 0%float
          else Row.average_rating meta)
    /\ ReviewAnalysis.rating_number a = Row.rating_number meta.
Proof.
  intros (meta & rest & Hpr & Hagg). unfold aggregate in Hagg.
  destruct (loop results (raw_texts_of df asin) 0 (target_reviews_of df asin)
              init_acc) as [acc|] eqn:Eloop; [|discriminate].
  cbn [rbind] in Hagg.
  destruct (generate_smart_summary (topic_counts acc) (sentiment_counts acc)
              (len (processed_reviews acc))) as [txt|] eqn:Esum; [|discriminate].
  cbn [rbind] in Hagg.
  destruct (percentages (topic_counts acc) (len (processed_reviews acc)))
    as [tp|] eqn:Epct; [|discriminate].
  cbn [rbind] in Hagg. injection Hagg as <-.
  exists meta, rest, acc. cbn.
  repeat (split; [reflexivity || assumption|]).
  now destruct (Z.eqb_spec (Row.rating_number meta) 0) as [->|].
Qed.

(** X9. The product title, image, average rating and rating count of a
    returned analysis are those of the first row of the product in the
    table, whatever row the selection ranks first; an average rating of
    zero (of either sign) is returned as [0.0]. *)
Theorem metadata_from_first_table_row (df : list Row.t)
  (classifier : nat -> list (list N) -> list string -> bool
                -> result (list ZeroShot.t))
  (w : World) (asin : string) (a : ReviewAnalysis.t) :
  reachable df classifier w ->
  fst (analyze_product df classifier asin w) = Ok a ->
  exists meta rest,
    product_reviews_of df asin = meta :: rest
    /\ ReviewAnalysis.product_title a = Row.product_title meta
    /\ ReviewAnalysis.product_image a = Row.product_image meta
    /\ ReviewAnalysis.rating_number a = Row.rating_number meta
    /\ ReviewAnalysis.average_rating a
       = (if PrimFloat.eqb (Row.average_rating meta) 0 then 0%float
          else Row.average_rating meta).
Proof.
  intros Hr Ha.
  destruct (analyze_computed _ _ _ _ _ Hr Ha) as (n & results & _ & Hb).
  destruct (built_from_inv _ _ _ _ Hb)
    as (meta & rest & acc & Hpr & _ & _ & _ & _ & _ & _ & H1 & H2 & H3 & H4).
  exists meta, rest. now repeat split.
Qed.

(** X10. The keys of [top_topics] are the topics of the annotated reviews,
    each once, in the order in which they first appear in [reviews]. *)
Theorem top_topics_in_order_of_appearance (df : list Row.t)
  (classifier : nat -> list (list N) -> list string -> bool
                -> result (list ZeroShot.t))
  (w : World) (asin : string) (a : ReviewAnalysis.t) :
  reachable df classifier w ->
  fst (analyze_product df classifier asin w) = Ok a ->
  Dict.keys (ReviewAnalysis.top_topics a)
  = firsts [] (map ReviewDetail.topic (ReviewAnalysis.reviews a)).
Proof.
  intros Hr Ha.
  destruct (analyze_computed _ _ _ _ _ Hr Ha) as (n & results & _ & Hb).
  destruct (built_from_inv _ _ _ _ Hb)
    as (meta & rest & acc & _ & Hloop & Hrev & _ & _ & Hpct & _).
  rewrite (percentages_keys _ _ _ Hpct), Hrev.
  assert (H0 : topics_in_order init_acc) by reflexivity.
  apply (loop_topics_in_order _ _ _ _ _ _ H0 Hloop).
Qed.

Lemma metadata_from_first_table_row_witness :
  reachable sample_df sample_classifier empty_world
  /\ fst (analyze_product sample_df sample_classifier "B01" empty_world)
     = Ok sample_analysis
  /\ exists meta rest,
       product_reviews_of sample_df "B01" = meta :: rest
       /\ ReviewAnalysis.product_title sample_analysis = Row.product_title meta.
Proof.
  refine (conj (reach_start _ _) (conj sample_analysis_returned _)).
  destruct (metadata_from_first_table_row sample_df sample_classifier
              empty_world "B01" sample_analysis (reach_start _ _)
              sample_analysis_returned) as (meta & rest & H1 & H2 & _).
  exists meta, rest. exact (conj H1 H2).
Defined.

Lemma top_topics_in_order_of_appearance_witness :
  reachable sample_df sample_classifier empty_world
  /\ fst (analyze_product sample_df sample_classifier "B01" empty_world)
     = Ok sample_analysis
  /\ Dict.keys (ReviewAnalysis.top_topics sample_analysis)
     = firsts [] (map ReviewDetail.topic (ReviewAnalysis.reviews sample_analysis)).
Proof.
  exact (conj (reach_start _ _) (conj sample_analysis_returned
           (top_topics_in_order_of_appearance sample_df sample_classifier
              empty_world "B01" sample_analysis (reach_start _ _)
              sample_analysis_returned))).
Defined.

(** The sentiment [max] picks among the three counts: the greatest, and
    among equals the one written first in the dictionary, "Positive" before
    "Negative" before "Neutral". *)
Definition majority (positive negative neutral : Z) : string :=
  if positive <? negative
  then (if negative <? neutral then "Neutral" else "Negative")
  else (if positive <? neutral then "Neutral" else "Positive").

Lemma top_sentiment_majority (p n u : Z) :
  py_max get_gt
    (Dict.get [("Positive"%string, p); ("Negative"%string, n);
               ("Neutral"%string, u)])
    (Dict.keys [("Positive"%string, p); ("Negative"%string, n);
                ("Neutral"%string, u)])
  = Ok (majority p n u).
Proof.
  unfold majority. cbn.
  destruct (p <? n); cbn; [destruct (n <? u) | destruct (p <? u)]; reflexivity.
Qed.

(** X11. The summary of a returned analysis is the template filled with
    [analyzed_count], the sentiment of greatest count (ties going to
    "Positive", then "Negative"), and the topic that most reviews have
    (ties going to the topic that appears first in [reviews]) with the
    percentage of the reviews that have it. *)
Theorem summary_of_returned_analysis (df : list Row.t)
  (classifier : nat -> list (list N) -> list string -> bool
                -> result (list ZeroShot.t))
  (w : World) (asin : string) (a : ReviewAnalysis.t) :
  reachable df classifier w ->
  fst (analyze_product df classifier asin w) = Ok a ->
  let reviews := ReviewAnalysis.reviews a in
  let total := ReviewAnalysis.analyzed_count a in
  exists top_topic i,
    ReviewAnalysis.ai_summary a
    = summary_text total
        (majority (count_rating (fun r => 4 <=? r) reviews)
           (count_rating (fun r => r <=? 2) reviews)
           (count_rating (fun r => r =? 3) reviews))
        top_topic
        (PrimFloat.mul
           (PrimFloat.div (float_of_int (count_topic top_topic reviews))
              (float_of_int total))
           (float_of_int 100))
    /\ nth_error (firsts [] (map ReviewDetail.topic reviews)) i = Some top_topic
    /\ (forall k, count_topic k reviews <= count_topic top_topic reviews)
    /\ (forall j k, (j < i)%nat ->
          nth_error (firsts [] (map ReviewDetail.topic reviews)) j = Some k ->
          count_topic k reviews < count_topic top_topic reviews).
Proof.
  intros Hr Ha reviews total.
  destruct (analyze_computed _ _ _ _ _ Hr Ha) as (n & results & _ & Hb).
  destruct (built_from_count _ _ _ _ Hb) as [_ [H1 H50]].
  destruct (built_from_inv _ _ _ _ Hb)
    as (meta & rest & acc & _ & Hloop & Hrev & Hcount & _ & _ & Hsum & _).
  destruct (loop_ok _ _ _ _ _ _ init_acc_ok Hloop) as ([Hs Hnd Ht _] & _).
  assert (Hord : topics_in_order acc).
  { assert (H0 : topics_in_order init_acc) by reflexivity.
    apply (loop_topics_in_order _ _ _ _ _ _ H0 Hloop). }
  unfold topics_in_order in Hord.
  subst reviews total. rewrite Hrev, Hcount in *. clear Hrev Hcount.
  set (ds := processed_reviews acc) in *.
  assert (Htc : topic_counts acc <> []).
  { destruct ds as [|d r] eqn:Ed; [cbn in H1; lia|].
    intro Hnil. rewrite Hnil in Hord. cbn in Hord. discriminate. }
  destruct (max_key_first_argmax (topic_counts acc) Htc)
    as (top & v & Hmax & i & Hi & Hget & Hall & Hbefore).
  assert (Hv : v = count_topic top ds /\ 1 <= v).
  { rewrite Ht in Hget. pose proof (count_topic_nonneg top ds).
    destruct (Z.eqb_spec (count_topic top ds) 0); [discriminate|].
    injection Hget as <-. split; [reflexivity | lia]. }
  destruct Hv as [-> Hv1].
  assert (Hcnt : forall k, count_topic k ds <> 0 ->
                           Dict.get (topic_counts acc) k = Some (count_topic k ds)).
  { intros k Hk. rewrite Ht.
    now destruct (Z.eqb_spec (count_topic k ds) 0). }
  exists top, i. split; [|split; [|split]].
  - unfold generate_smart_summary in Hsum. rewrite Hmax in Hsum.
    cbn [rbind] in Hsum. unfold dict_getitem in Hsum. rewrite Hget in Hsum.
    cbn [rbind] in Hsum. unfold top_topic_pct in Hsum.
    rewrite truediv_small in Hsum
      by (pose proof (count_topic_le top ds);
          change (2 ^ 53) with 9007199254740992; lia).
    cbn [rbind] in Hsum.
    rewrite Hs in Hsum. unfold breakdown_of in Hsum.
    rewrite top_sentiment_majority in Hsum. cbn [rbind] in Hsum.
    now injection Hsum as <-.
  - now rewrite <- Hord.
  - intro k. destruct (Z.eq_dec (count_topic k ds) 0) as [E|E]; [lia|].
    apply (Hall k). now apply Hcnt.
  - intros j k Hj Hk. rewrite <- Hord in Hk.
    assert (Hin : In k (Dict.keys (topic_counts acc)))
      by now apply nth_error_In with j.
    destruct (Dict.get (topic_counts acc) k) as [v'|] eqn:Eg;
      [|now apply get_None_keys in Eg].
    pose proof (Hbefore j k v' Hj Hk Eg) as Hlt.
    rewrite Ht in Eg.
    destruct (Z.eqb_spec (count_topic k ds) 0); [discriminate|].
    now injection Eg as <-.
Qed.

Lemma summary_of_returned_analysis_witness :
  reachable sample_df sample_classifier empty_world
  /\ fst (analyze_product sample_df sample_classifier "B01" empty_world)
     = Ok sample_analysis
  /\ exists top_topic,
       forall k,
         count_topic k (ReviewAnalysis.reviews sample_analysis)
         <= count_topic top_topic (ReviewAnalysis.reviews sample_analysis).
Proof.
  refine (conj (reach_start _ _) (conj sample_analysis_returned _)).
  destruct (summary_of_returned_analysis sample_df sample_classifier
              empty_world "B01" sample_analysis (reach_start _ _)
              sample_analysis_returned) as (top & i & _ & _ & H & _).
  exists top. exact H.
Defined.

(** X12. On integers below [2^53] in absolute value,
    [generate_smart_summary] fails with [ValueError] on an empty
    [topic_counts], with [ZeroDivisionError] when the topic counts are there
    and [total_analyzed] is zero, with [ValueError] when only
    [sentiment_counts] is empty, and returns a text in every other case. *)
Theorem summary_errors (topic_counts sentiment_counts : Dict.t Z)
  (total_analyzed : Z) :
  small_counts topic_counts -> Z.abs total_analyzed < 2 ^ 53 ->
  match topic_counts, sentiment_counts with
  | [], _ =>
      generate_smart_summary topic_counts sentiment_counts total_analyzed
      = Raise ValueError
  | _ :: _, [] =>
      generate_smart_summary topic_counts sentiment_counts total_analyzed
      = Raise (if total_analyzed =? 0 then ZeroDivisionError else ValueError)
  | _ :: _, _ :: _ =>
      if total_analyzed =? 0
      then generate_smart_summary topic_counts sentiment_counts total_analyzed
           = Raise ZeroDivisionError
      else exists text,
             generate_smart_summary topic_counts sentiment_counts total_analyzed
             = Ok text
  end.
Proof.
  intros Hsm Hst.
  destruct topic_counts as [|kv tc]; [now destruct sentiment_counts|].
  destruct (max_key_first_argmax (kv :: tc)) as (k & v & Hk & _ & _ & Hv & _);
    [discriminate|].
  assert (Hzero : total_analyzed = 0 ->
            forall sc, generate_smart_summary (kv :: tc) sc total_analyzed
                       = Raise ZeroDivisionError).
  { intros -> sc. unfold generate_smart_summary, dict_getitem. rewrite Hk.
    cbn [rbind]. now rewrite Hv. }
  destruct sentiment_counts as [|s sc];
    destruct (Z.eqb_spec total_analyzed 0) as [E|E]; try now apply Hzero.
  - unfold generate_smart_summary, dict_getitem, top_topic_pct.
    rewrite Hk. cbn [rbind]. rewrite Hv. cbn [rbind].
    now rewrite (truediv_small _ _ (small_counts_get _ _ _ Hsm Hv) Hst E).
  - apply generate_smart_summary_Ok;
      [discriminate | discriminate | exact E | exact Hsm | exact Hst].
Qed.

Lemma summary_errors_witness :
  small_counts [("Service"%string, 3)]
  /\ Z.abs 0 < 2 ^ 53
  /\ generate_smart_summary [("Service"%string, 3)] [] 0
     = Raise ZeroDivisionError.
Proof.
  assert (H1 : small_counts [("Service"%string, 3)]) by (repeat constructor).
  assert (H2 : Z.abs 0 < 2 ^ 53) by reflexivity.
  exact (conj H1 (conj H2 (summary_errors [("Service"%string, 3)] [] 0 H1 H2))).
Defined.

(** * [data_ingestion.py]

    ** [extract_image_url]

    The [images] field of a product is what the JSON of the data set holds:
    usually a list of dictionaries with the keys [large], [hi_res] and
    [thumb]. *)

#[local] Unset Elimination Schemes.

Inductive pyval : Type :=
| PNone
| PBool (b : bool)
| PInt (z : Z)
| PFloat (x : float)
| PStr (s : string)
| PList (l : list pyval)
| PDict (d : list (string * pyval)).

#[local] Set Elimination Schemes.

(** [bool(v)] *)
Definition truthy (v : pyval) : bool :=
  match v with
  | PNone => false
  | PBool b => b
  | PInt z => negb (z =? 0)
  | PFloat x => negb (PrimFloat.eqb x 0)
  | PStr s => negb (String.eqb s "")
  | PList l => match l with [] => false | _ :: _ => true end
  | PDict d => match d with [] => false | _ :: _ => true end
  end.

(** What the [try] block can raise. *)
Inductive lookup_error : Type := TypeError | MissingKey.

Definition is_str (k : string) (v : pyval) : bool :=
  match v with
  | PStr s => String.eqb s k
  | _ => false
  end.

(** [k in v] for a string [k]: a key of a dictionary, a substring of a
    string, an element of a list; anything else is not iterable. *)
Definition py_in (k : string) (v : pyval) : lookup_error + bool :=
  match v with
  | PDict d => inr (existsb (fun kv => String.eqb (fst kv) k) d)
  | PStr s => inr (match index 0 k s with Some _ => true | None => false end)
  | PList l => inr (existsb (is_str k) l)
  | _ => inl TypeError
  end.

(** [v[k]] for a string [k] *)
Definition py_subscript (v : pyval) (k : string) : lookup_error + pyval :=
  match v with
  | PDict d =>
      match Dict.get d k with
      | Some x => inr x
      | None => inl MissingKey
      end
  | _ => inl TypeError
  end.

(** [if k in first_image and first_image[k]: return first_image[k]]: the
    value returned, or [None] to go on to the next line. *)
Definition try_key (first_image : pyval) (k : string)
  : lookup_error + option pyval :=
  match py_in k first_image with
  | inl e => inl e
  | inr false => inr None
  | inr true =>
      match py_subscript first_image k with
      | inl e => inl e
      | inr v => inr (if truthy v then Some v else None)
      end
  end.

Definition extract_image_url_body (image_data : pyval)
  : lookup_error + pyval :=
  match image_data with
  | PList (first_image :: _) =>
      match try_key first_image "large" with
      | inl e => inl e
      | inr (Some v) => inr v
      | inr None =>
          match try_key first_image "hi_res" with
          | inl e => inl e
          | inr (Some v) => inr v
          | inr None =>
              match try_key first_image "thumb" with
              | inl e => inl e
              | inr (Some v) => inr v
              | inr None => inr PNone
              end
          end
      end
  | _ => inr PNone
  end.

(** The bare [except:] turns every exception into [None]. *)
Definition extract_image_url (image_data : pyval) : pyval :=
  match extract_image_url_body image_data with
  | inr v => v
  | inl _ => PNone
  end.

(** The first of the values under [keys] in [d] that is truthy. *)
Fixpoint first_truthy (d : list (string * pyval)) (keys : list string)
  : option pyval :=
  match keys with
  | [] => None
  | k :: rest =>
      match Dict.get d k with
      | Some v => if truthy v then Some v else first_truthy d rest
      | None => first_truthy d rest
      end
  end.

Lemma existsb_key_get (d : list (string * pyval)) (k : string) :
  existsb (fun kv => String.eqb (fst kv) k) d
  = match Dict.get d k with Some _ => true | None => false end.
Proof.
  induction d as [|[k' v] r IH]; [reflexivity|].
  cbn. destruct (String.eqb k' k); [reflexivity | exact IH].
Qed.

Lemma try_key_dict (d : list (string * pyval)) (k : string) :
  try_key (PDict d) k
  = inr match Dict.get d k with
        | Some v => if truthy v then Some v else None
        | None => None
        end.
Proof.
  unfold try_key, py_in, py_subscript. rewrite existsb_key_get.
  now destruct (Dict.get d k).
Qed.

Lemma try_key_not_dict (v : pyval) (k : string) :
  (forall d, v <> PDict d) ->
  try_key v k = inr None \/ exists e, try_key v k = inl e.
Proof.
  intro H. unfold try_key. destruct v; cbn; try (right; eauto; fail).
  - destruct (index 0 k s); [right; eauto | now left].
  - destruct (existsb (is_str k) l); [right; eauto | now left].
  - now destruct (H d).
Qed.

(** X13. [extract_image_url] looks at the first image only: when it is a
    dictionary the result is its first non-empty value among [large],
    [hi_res] and [thumb], in this order, and [None] when there is none; for
    anything else (no list, an empty list, a first element that is not a
    dictionary) the result is [None]. So the result is [None] or a truthy
    value, never an empty string. *)
Theorem extract_image_url_first_image (image_data : pyval) :
  (forall d rest,
     image_data = PList (PDict d :: rest) ->
     extract_image_url image_data
     = match first_truthy d ["large"; "hi_res"; "thumb"]%string with
       | Some v => v
       | None => PNone
       end)
  /\ ((forall d rest, image_data <> PList (PDict d :: rest)) ->
      extract_image_url image_data = PNone)
  /\ (extract_image_url image_data = PNone
      \/ truthy (extract_image_url image_data) = true).
Proof.
  assert (Hdict : forall d rest,
            extract_image_url (PList (PDict d :: rest))
            = match first_truthy d ["large"; "hi_res"; "thumb"]%string with
              | Some v => v
              | None => PNone
              end).
  { intros d rest. unfold extract_image_url, extract_image_url_body.
    rewrite !try_key_dict. cbn [first_truthy].
    destruct (Dict.get d "large") as [v1|]; [destruct (truthy v1); [reflexivity|]|];
      (destruct (Dict.get d "hi_res") as [v2|];
       [destruct (truthy v2); [reflexivity|]|]);
      (destruct (Dict.get d "thumb") as [v3|];
       [destruct (truthy v3)|]); reflexivity. }
  assert (Hother : (forall d rest, image_data <> PList (PDict d :: rest)) ->
                   extract_image_url image_data = PNone).
  { intro H. unfold extract_image_url, extract_image_url_body.
    destruct image_data as [| | | | |[|first rest]|]; try reflexivity.
    assert (Hf : forall d, first <> PDict d)
      by (intros d E; apply (H d rest); now rewrite E).
    destruct (try_key_not_dict first "large" Hf) as [->|[e ->]]; [|reflexivity].
    destruct (try_key_not_dict first "hi_res" Hf) as [->|[e ->]]; [|reflexivity].
    destruct (try_key_not_dict first "thumb" Hf) as [->|[e ->]]; reflexivity. }
  split; [intros d rest ->; apply Hdict|]. split; [exact Hother|].
  destruct image_data as [| | | | |[|first rest]|];
    try (left; apply Hother; intros; discriminate).
  destruct first as [| | | | | |d];
    try (left; apply Hother; intros; discriminate).
  rewrite Hdict. cbn [first_truthy].
  destruct (Dict.get d "large") as [v1|];
    [destruct (truthy v1) eqn:E1; [now right|]|];
    (destruct (Dict.get d "hi_res") as [v2|];
     [destruct (truthy v2) eqn:E2; [now right|]|]);
    (destruct (Dict.get d "thumb") as [v3|];
     [destruct (truthy v3) eqn:E3; [now right|]|]); now left.
Qed.

(** ** [ingest_and_merge]

    The two downloads are the inputs; the result is [df_final], the table
    handed to [to_parquet], or the exception raised before. Writing the
    file is not modelled. A missing value ([None], NaN) of a text column is
    [None]. *)

(** A review, in the columns [cols_reviews] keeps. *)
Module Review.
Record t : Type := mk {
  rating : Z;
  text : option (list N);
  title : option string;
  parent_asin : string;
  asin : string;
  timestamp : Z;
  helpful_vote : Z
}.
End Review.

(** A product of the metadata file, in the columns the function reads. *)
Module Product.
Record t : Type := mk {
  parent_asin : string;
  title : option string;
  main_category : option string;
  categories : pyval;
  average_rating : float;
  rating_number : Z;
  store : option string;
  images : pyval
}.
End Product.

(** A product after cleaning: [cols_meta], with [title] renamed. *)
Module Meta.
Record t : Type := mk {
  parent_asin : string;
  product_title : option string;
  main_category : option string;
  categories : pyval;
  average_rating : float;
  rating_number : Z;
  store : option string;
  product_image : pyval
}.
End Meta.

(** A row of the merged table: the review ([title] renamed
    [review_title]) and the columns of its product. *)
Module Gold.
Record t : Type := mk {
  review : Review.t;
  meta : Meta.t
}.
End Gold.

Definition clean_meta (p : Product.t) : Meta.t :=
  Meta.mk (Product.parent_asin p) (Product.title p) (Product.main_category p)
    (Product.categories p) (Product.average_rating p) (Product.rating_number p)
    (Product.store p) (extract_image_url (Product.images p)).

Definition mem_string (k : string) (l : list string) : bool :=
  existsb (String.eqb k) l.

(** [drop_duplicates(subset=['parent_asin'])]: the first row of each key
    stays. *)
Fixpoint drop_duplicates (seen : list string) (l : list Meta.t) : list Meta.t :=
  match l with
  | [] => []
  | m :: r =>
      if mem_string (Meta.parent_asin m) seen then drop_duplicates seen r
      else m :: drop_duplicates (Meta.parent_asin m :: seen) r
  end.

(** [pd.merge(left, right, on='parent_asin', how='inner')]: the rows of
    [left] in their order, each with every row of [right] of the same
    key. *)
Definition merge_inner (left : list Review.t) (right : list Meta.t)
  : list Gold.t :=
  flat_map
    (fun r =>
       map (Gold.mk r)
         (filter (fun m => String.eqb (Meta.parent_asin m) (Review.parent_asin r))
            right))
    left.

Definition notna {A : Type} (x : option A) : bool :=
  match x with
  | Some _ => true
  | None => false
  end.

(** [dropna(subset=['text', 'product_title'])] *)
Definition dropna (l : list Gold.t) : list Gold.t :=
  filter (fun g => notna (Review.text (Gold.review g))
                   && notna (Meta.product_title (Gold.meta g))) l.

(** [pd.merge] checks the dtypes of the two key columns before it joins,
    and raises [ValueError] ("You are trying to merge on object and int64
    columns") when they do not go together. The reviews' [parent_asin] are
    strings; [pd.read_json] infers the dtype of the metadata's from the
    values, and reads a column of digit strings as numbers. Both the
    inference and the check are pandas's: whether the merge is refused is a
    variable here. *)
Section Ingest.
Variable merge_refused : list Review.t -> list Meta.t -> bool.

Definition pd_merge (left : list Review.t) (right : list Meta.t)
  : result (list Gold.t) :=
  if merge_refused left right then Raise ValueError
  else Ok (merge_inner left right).

Definition ingest_and_merge (ds_reviews : list Review.t)
  (df_meta : list Product.t) : result (list Gold.t) :=
  let df_meta := map clean_meta df_meta in
  let df_meta := drop_duplicates [] df_meta in
  (df_final <- pd_merge ds_reviews df_meta ;;
   Ok (dropna df_final))%py.

End Ingest.

(** The first product of the file with the key [k]. *)
Definition first_product (k : string) (df_meta : list Product.t)
  : option Product.t :=
  find (fun p => String.eqb (Product.parent_asin p) k) df_meta.

Lemma mem_string_In (k : string) (l : list string) :
  mem_string k l = true <-> In k l.
Proof.
  unfold mem_string. rewrite existsb_exists. split.
  - intros (x & Hin & E). apply String.eqb_eq in E. now subst.
  - intro H. exists k. split; [exact H | apply String.eqb_refl].
Qed.

Lemma filter_drop_duplicates (k : string) (l : list Meta.t) :
  forall seen,
    filter (fun m => String.eqb (Meta.parent_asin m) k) (drop_duplicates seen l)
    = if mem_string k seen then []
      else match find (fun m => String.eqb (Meta.parent_asin m) k) l with
           | Some m => [m]
           | None => []
           end.
Proof.
  induction l as [|m r IH]; intro seen; cbn [drop_duplicates filter find].
  - now destruct (mem_string k seen).
  - destruct (mem_string (Meta.parent_asin m) seen) eqn:Em.
    + rewrite IH. destruct (mem_string k seen) eqn:Ek; [reflexivity|].
      destruct (String.eqb_spec (Meta.parent_asin m) k) as [E|E]; [|reflexivity].
      congruence.
    + cbn [filter]. rewrite IH.
      destruct (String.eqb_spec (Meta.parent_asin m) k) as [E|E].
      * subst k. rewrite Em. cbn [mem_string existsb].
        now rewrite String.eqb_refl.
      * cbn [mem_string existsb].
        destruct (String.eqb_spec k (Meta.parent_asin m)); [congruence|].
        reflexivity.
Qed.

Lemma find_clean_meta (k : string) (df_meta : list Product.t) :
  find (fun m => String.eqb (Meta.parent_asin m) k) (map clean_meta df_meta)
  = option_map clean_meta (first_product k df_meta).
Proof.
  unfold first_product. induction df_meta as [|p r IH]; [reflexivity|].
  cbn. now destruct (String.eqb (Product.parent_asin p) k).
Qed.

(** What the join, the removal of duplicate products and [dropna] keep. *)
Definition reviews_with_product (ds_reviews : list Review.t)
  (df_meta : list Product.t) : list Gold.t :=
  flat_map
    (fun r =>
       match first_product (Review.parent_asin r) df_meta with
       | Some p =>
           if notna (Review.text r) && notna (Product.title p)
           then [Gold.mk r (clean_meta p)]
           else []
       | None => []
       end)
    ds_reviews.

Lemma dropna_merge_inner (ds_reviews : list Review.t)
  (df_meta : list Product.t) :
  dropna (merge_inner ds_reviews (drop_duplicates [] (map clean_meta df_meta)))
  = reviews_with_product ds_reviews df_meta.
Proof.
  unfold reviews_with_product, dropna, merge_inner.
  induction ds_reviews as [|r rs IH]; [reflexivity|].
  cbn [flat_map]. rewrite filter_app, IH. f_equal.
  rewrite filter_drop_duplicates, find_clean_meta. cbn [mem_string existsb].
  destruct (first_product (Review.parent_asin r) df_meta) as [p|];
    [|reflexivity].
  cbn. now destruct (notna (Review.text r) && notna (Product.title p)).
Qed.

Lemma ingest_and_merge_flat_map
  (merge_refused : list Review.t -> list Meta.t -> bool)
  (ds_reviews : list Review.t) (df_meta : list Product.t) :
  ingest_and_merge merge_refused ds_reviews df_meta
  = if merge_refused ds_reviews (drop_duplicates [] (map clean_meta df_meta))
    then Raise ValueError
    else Ok (reviews_with_product ds_reviews df_meta).
Proof.
  unfold ingest_and_merge, pd_merge.
  destruct (merge_refused ds_reviews _); [reflexivity|].
  cbn [rbind]. now rewrite dropna_merge_inner.
Qed.

(** X14. When pandas refuses the merge, [ingest_and_merge] raises
    [ValueError] and there is no table. Otherwise [df_final] is the list of
    reviews, in the order of the review file, that have a text and whose
    product (the first row of the metadata file with the review's
    [parent_asin]) is there and has a title, each joined to that product; a
    review never appears twice, and no row lacks [text] or
    [product_title]. *)
Theorem ingest_keeps_reviews_with_product
  (merge_refused : list Review.t -> list Meta.t -> bool)
  (ds_reviews : list Review.t) (df_meta : list Product.t) :
  ingest_and_merge merge_refused ds_reviews df_meta
  = (if merge_refused ds_reviews (drop_duplicates [] (map clean_meta df_meta))
     then Raise ValueError
     else Ok (flat_map
                (fun r =>
                   match first_product (Review.parent_asin r) df_meta with
                   | Some p =>
                       if notna (Review.text r) && notna (Product.title p)
                       then [Gold.mk r (clean_meta p)]
                       else []
                   | None => []
                   end)
                ds_reviews))
  /\ forall df_final,
       ingest_and_merge merge_refused ds_reviews df_meta = Ok df_final ->
       Forall (fun g => Review.text (Gold.review g) <> None
                        /\ Meta.product_title (Gold.meta g) <> None)
         df_final.
Proof.
  split; [apply ingest_and_merge_flat_map|].
  unfold ingest_and_merge, pd_merge.
  destruct (merge_refused ds_reviews _); [discriminate|].
  cbn [rbind]. intros df_final [= <-].
  unfold dropna. apply Forall_forall. intros g Hg.
  apply filter_In in Hg. destruct Hg as [_ Hg].
  apply andb_true_iff in Hg. destruct Hg as [H1 H2].
  split; [now destruct (Review.text (Gold.review g))
         | now destruct (Meta.product_title (Gold.meta g))].
Qed.

(** X15. In the table written, two rows of the same [parent_asin] carry
    the same product columns: title, image, average rating, rating count
    and the rest are those of the first row of the metadata file with that
    key. *)
Theorem ingest_product_columns_constant
  (merge_refused : list Review.t -> list Meta.t -> bool)
  (ds_reviews : list Review.t) (df_meta : list Product.t)
  (df_final : list Gold.t) (g g' : Gold.t) :
  ingest_and_merge merge_refused ds_reviews df_meta = Ok df_final ->
  In g df_final ->
  In g' df_final ->
  Review.parent_asin (Gold.review g) = Review.parent_asin (Gold.review g') ->
  Gold.meta g = Gold.meta g'
  /\ Meta.parent_asin (Gold.meta g) = Review.parent_asin (Gold.review g)
  /\ exists p,
       first_product (Review.parent_asin (Gold.review g)) df_meta = Some p
       /\ Gold.meta g = clean_meta p.
Proof.
  intro Hfinal. rewrite ingest_and_merge_flat_map in Hfinal.
  destruct (merge_refused ds_reviews _); [discriminate|].
  injection Hfinal as <-.
  assert (H : forall x, In x (reviews_with_product ds_reviews df_meta) ->
            exists p,
              first_product (Review.parent_asin (Gold.review x)) df_meta = Some p
              /\ Gold.meta x = clean_meta p).
  { intros x Hx. unfold reviews_with_product in Hx.
    apply in_flat_map in Hx. destruct Hx as (r & _ & Hx).
    destruct (first_product (Review.parent_asin r) df_meta) as [p|] eqn:Ep;
      [|contradiction].
    destruct (notna (Review.text r) && notna (Product.title p)); [|contradiction].
    destruct Hx as [<-|[]]. cbn. now exists p. }
  intros Hg Hg' Hk.
  destruct (H g Hg) as (p & Hp & Hm). destruct (H g' Hg') as (p' & Hp' & Hm').
  rewrite <- Hk in Hp'. rewrite Hp in Hp'. injection Hp' as <-.
  split; [congruence|]. split; [|now exists p].
  rewrite Hm. cbn. unfold first_product in Hp. apply find_some in Hp.
  now apply String.eqb_eq.
Qed.

Definition sample_soap : Product.t :=
  Product.mk "P1" (Some "Soap"%string) (Some "All Beauty"%string) (PList [])
    4.5%float 10 None
    (PList [PDict [("thumb"%string, PStr "t.jpg"); ("large"%string, PStr "l.jpg")]]).

Definition sample_products : list Product.t :=
  [ sample_soap;
    Product.mk "P1" (Some "Soap, old listing"%string) None (PList [])
      3.5%float 2 None PNone;
    Product.mk "P3" None None (PList []) 0%float 0 None (PList []) ].

Definition sample_reviews : list Review.t :=
  [ Review.mk 5 (Some (str "Nice")) (Some "Good"%string) "P1" "A1" 1700000000 3;
    Review.mk 2 None None "P1" "A2" 1700000001 0;
    Review.mk 4 (Some (str "fine")) None "P3" "A3" 1700000002 1;
    Review.mk 1 (Some (str "Broke")) None "P1" "A4" 1700000003 0 ].

Definition sample_gold_first : Gold.t :=
  Gold.mk (Review.mk 5 (Some (str "Nice")) (Some "Good"%string) "P1" "A1"
             1700000000 3) (clean_meta sample_soap).

Definition sample_gold_last : Gold.t :=
  Gold.mk (Review.mk 1 (Some (str "Broke")) None "P1" "A4" 1700000003 0)
    (clean_meta sample_soap).

(** The keys of the sample are strings on both sides: the merge goes
    through. *)
Definition merge_accepted (left : list Review.t) (right : list Meta.t) : bool :=
  false.

Lemma ingest_product_columns_constant_witness :
  ingest_and_merge merge_accepted sample_reviews sample_products
  = Ok [sample_gold_first; sample_gold_last]
  /\ In sample_gold_first [sample_gold_first; sample_gold_last]
  /\ In sample_gold_last [sample_gold_first; sample_gold_last]
  /\ Gold.meta sample_gold_first = Gold.meta sample_gold_last
  /\ Meta.product_image (Gold.meta sample_gold_first) = PStr "l.jpg".
Proof.
  assert (H0 : ingest_and_merge merge_accepted sample_reviews sample_products
               = Ok [sample_gold_first; sample_gold_last]) by reflexivity.
  assert (H1 : In sample_gold_first [sample_gold_first; sample_gold_last])
    by (left; reflexivity).
  assert (H2 : In sample_gold_last [sample_gold_first; sample_gold_last])
    by (right; left; reflexivity).
  refine (conj H0 (conj H1 (conj H2 (conj _ eq_refl)))).
  exact (proj1 (ingest_product_columns_constant merge_accepted sample_reviews
                  sample_products _ _ _ H0 H1 H2 eq_refl)).
Defined.

(** * The product menu ([app.py] lines 26 to 32, and [get_products])

    [groupby('parent_asin').first()] gives one row per product, the keys
    in increasing order, each column holding its first value that is not
    missing. [sort_values('rating_number', ascending=False)] sorts one
    column with quicksort, which is not stable: which of two products with
    the same [rating_number] comes first is not decided by the code, so the
    sort is a variable here, known to rearrange its rows into decreasing
    order. *)

Module MenuRow.
Record t : Type := mk {
  asin : string;
  product_title : string;
  product_image : option string;
  rating_number : Z
}.
End MenuRow.

(** [counts[asin]] *)
Definition review_count (df : list Row.t) (asin : string) : nat :=
  List.length (product_reviews_of df asin).

(** [df[df['parent_asin'].isin(valid_asins)]] *)
Definition valid_rows (df : list Row.t) : list Row.t :=
  filter (fun r => (5 <=? review_count df (Row.parent_asin r))%nat) df.

Fixpoint insert_key (k : string) (l : list string) : list string :=
  match l with
  | [] => [k]
  | x :: r => if String.leb k x then k :: l else x :: insert_key k r
  end.

Fixpoint sort_keys (l : list string) : list string :=
  match l with
  | [] => []
  | k :: r => insert_key k (sort_keys r)
  end.

(** The first image of the group that is not missing. *)
Definition first_image (rows : list Row.t) : option string :=
  match find (fun r => notna (Row.product_image r)) rows with
  | Some r => Row.product_image r
  | None => None
  end.

(** [df_valid.groupby('parent_asin').first()] *)
Definition groupby_first (df_valid : list Row.t) : list MenuRow.t :=
  flat_map
    (fun k =>
       match product_reviews_of df_valid k with
       | [] => []
       | r :: rest =>
           [MenuRow.mk k (Row.product_title r) (first_image (r :: rest))
              (Row.rating_number r)]
       end)
    (sort_keys (firsts [] (map Row.parent_asin df_valid))).

Definition by_rating_number (a b : MenuRow.t) : Prop :=
  MenuRow.rating_number b <= MenuRow.rating_number a.

Section Menu.
Variable sort_by_rating_number : list MenuRow.t -> list MenuRow.t.

Definition top_products (df : list Row.t) : list MenuRow.t :=
  head 100 (sort_by_rating_number (groupby_first (valid_rows df))).

(** [top_products[['product_title', 'product_image']].to_dict(orient='index')] *)
Definition product_menu (df : list Row.t)
  : Dict.t (string * option string) :=
  fold_left
    (fun d m =>
       Dict.set d (MenuRow.asin m)
         (MenuRow.product_title m, MenuRow.product_image m))
    (top_products df) [].

(** [GET /products] *)
Definition get_products (df : list Row.t) : list (string * string) :=
  map (fun kv => (fst kv, fst (snd kv))) (product_menu df).

End Menu.

Lemma insert_key_perm (k : string) (l : list string) :
  Permutation (insert_key k l) (k :: l).
Proof.
  induction l as [|x r IH]; cbn; [reflexivity|].
  destruct (String.leb k x); [reflexivity|].
  rewrite IH. apply perm_swap.
Qed.

Lemma sort_keys_perm (l : list string) : Permutation (sort_keys l) l.
Proof.
  induction l as [|k r IH]; cbn; [constructor|].
  rewrite insert_key_perm. now constructor.
Qed.

Lemma firsts_NoDup (l : list string) : NoDup (firsts [] l).
Proof.
  induction l as [|y l IH] using rev_ind; [constructor|].
  rewrite firsts_snoc. cbn [app].
  destruct (in_dec string_dec y l) as [H|H]; [now rewrite app_nil_r|].
  apply (Permutation_NoDup (Permutation_cons_append _ y)).
  constructor; [|exact IH]. now rewrite In_firsts.
Qed.

Lemma product_reviews_valid (df : list Row.t) (k : string) :
  product_reviews_of (valid_rows df) k
  = if (5 <=? review_count df k)%nat then product_reviews_of df k else [].
Proof.
  unfold product_reviews_of, valid_rows.
  assert (H : forall l,
            filter (fun r => String.eqb (Row.parent_asin r) k)
              (filter (fun r => (5 <=? review_count df (Row.parent_asin r))%nat) l)
            = if (5 <=? review_count df k)%nat
              then filter (fun r => String.eqb (Row.parent_asin r) k) l
              else []).
  { induction l as [|r l IH]; cbn [filter]; [now destruct (5 <=? _)%nat|].
    destruct (String.eqb_spec (Row.parent_asin r) k) as [E|E].
    - rewrite E. destruct (5 <=? review_count df k)%nat eqn:Ec; [|exact IH].
      cbn [filter]. rewrite E, String.eqb_refl, IH. reflexivity.
    - destruct (5 <=? review_count df (Row.parent_asin r))%nat; [|exact IH].
      cbn [filter]. destruct (String.eqb_spec (Row.parent_asin r) k);
        [contradiction | exact IH]. }
  apply H.
Qed.

Lemma product_reviews_nonempty (df : list Row.t) (k : string) :
  In k (map Row.parent_asin df) <-> product_reviews_of df k <> [].
Proof.
  unfold product_reviews_of. split.
  - intros H E. apply in_map_iff in H. destruct H as (r & <- & Hin).
    assert (Hf : In r (filter (fun r0 => String.eqb (Row.parent_asin r0)
                                           (Row.parent_asin r)) df))
      by (apply filter_In; split; [exact Hin | apply String.eqb_refl]).
    now rewrite E in Hf.
  - intro H.
    destruct (filter (fun r => String.eqb (Row.parent_asin r) k) df)
      as [|r l] eqn:E; [congruence|].
    assert (Hin : In r (filter (fun r => String.eqb (Row.parent_asin r) k) df))
      by (rewrite E; now left).
    apply filter_In in Hin. destruct Hin as [Hin Hk].
    apply String.eqb_eq in Hk. subst k. now apply in_map.
Qed.

(** The rows of [groupby_first], read off the table. *)
Lemma groupby_first_keys (dv : list Row.t) :
  map MenuRow.asin (groupby_first dv)
  = sort_keys (firsts [] (map Row.parent_asin dv)).
Proof.
  unfold groupby_first.
  assert (H : forall keys,
            (forall k, In k keys -> product_reviews_of dv k <> []) ->
            map MenuRow.asin
              (flat_map
                 (fun k =>
                    match product_reviews_of dv k with
                    | [] => []
                    | r :: rest =>
                        [MenuRow.mk k (Row.product_title r)
                           (first_image (r :: rest)) (Row.rating_number r)]
                    end) keys) = keys).
  { induction keys as [|k ks IH]; intro Hk; [reflexivity|].
    cbn [flat_map]. rewrite map_app, IH by (intros; apply Hk; now right).
    destruct (product_reviews_of dv k) eqn:E;
      [exfalso; apply (Hk k); [now left | exact E] | reflexivity]. }
  apply H. intros k Hk.
  apply (Permutation_in _ (sort_keys_perm _)) in Hk.
  apply (proj1 (In_firsts _ _)) in Hk. exact (proj1 (product_reviews_nonempty dv k) Hk).
Qed.

Lemma groupby_first_NoDup (dv : list Row.t) :
  NoDup (map MenuRow.asin (groupby_first dv)).
Proof.
  rewrite groupby_first_keys.
  apply (Permutation_NoDup (Permutation_sym (sort_keys_perm _))).
  apply firsts_NoDup.
Qed.

Lemma groupby_first_row (dv : list Row.t) (m : MenuRow.t) :
  In m (groupby_first dv) ->
  exists r rest,
    product_reviews_of dv (MenuRow.asin m) = r :: rest
    /\ MenuRow.product_title m = Row.product_title r
    /\ MenuRow.rating_number m = Row.rating_number r
    /\ MenuRow.product_image m = first_image (r :: rest).
Proof.
  unfold groupby_first. intro H. apply in_flat_map in H.
  destruct H as (k & _ & H).
  destruct (product_reviews_of dv k) as [|r rest] eqn:E; [contradiction|].
  destruct H as [<-|[]]. cbn. exists r, rest. now rewrite E.
Qed.

Lemma to_dict_rows (rows : list MenuRow.t) :
  forall d,
    NoDup (Dict.keys d ++ map MenuRow.asin rows) ->
    fold_left
      (fun d m =>
         Dict.set d (MenuRow.asin m)
           (MenuRow.product_title m, MenuRow.product_image m))
      rows d
    = d ++ map (fun m => (MenuRow.asin m,
                          (MenuRow.product_title m, MenuRow.product_image m)))
             rows.
Proof.
  induction rows as [|m rows IH]; intros d Hnd; cbn [fold_left map].
  - now rewrite app_nil_r.
  - assert (Hset : Dict.set d (MenuRow.asin m)
                     (MenuRow.product_title m, MenuRow.product_image m)
                   = d ++ [(MenuRow.asin m,
                            (MenuRow.product_title m, MenuRow.product_image m))]).
    { assert (Hk : ~ In (MenuRow.asin m) (Dict.keys d)).
      { intro Hin. apply NoDup_remove_2 in Hnd. apply Hnd.
        apply in_or_app. now left. }
      clear -Hk. induction d as [|[k v] r IHd]; [reflexivity|].
      cbn in *. destruct (String.eqb_spec k (MenuRow.asin m)) as [E|E];
        [exfalso; apply Hk; now left|].
      f_equal. apply IHd. tauto. }
    rewrite Hset, IH, <- app_assoc; [reflexivity|].
    unfold Dict.keys in *. rewrite map_app. cbn [map fst].
    rewrite <- app_assoc. exact Hnd.
Qed.

Lemma In_firstn {A : Type} (n : nat) (l : list A) (x : A) :
  In x (firstn n l) -> In x l.
Proof.
  intro H. rewrite <- (firstn_skipn n l). apply in_or_app. now left.
Qed.

Section MenuFacts.
Variable sort_by_rating_number : list MenuRow.t -> list MenuRow.t.
Hypothesis sort_perm :
  forall l, Permutation (sort_by_rating_number l) l.

Lemma top_products_NoDup (df : list Row.t) :
  NoDup (map MenuRow.asin (top_products sort_by_rating_number df)).
Proof.
  unfold top_products, head.
  set (s := sort_by_rating_number (groupby_first (valid_rows df))).
  assert (Hs : NoDup (map MenuRow.asin s)).
  { apply (Permutation_NoDup
             (Permutation_sym (Permutation_map MenuRow.asin (sort_perm _)))).
    apply groupby_first_NoDup. }
  rewrite <- (firstn_skipn 100 s), map_app in Hs.
  now apply NoDup_app_remove_r in Hs.
Qed.

Lemma get_products_rows (df : list Row.t) :
  get_products sort_by_rating_number df
  = map (fun m => (MenuRow.asin m, MenuRow.product_title m))
      (top_products sort_by_rating_number df).
Proof.
  unfold get_products, product_menu.
  rewrite to_dict_rows by (cbn; apply top_products_NoDup).
  cbn [app]. rewrite map_map. reflexivity.
Qed.

Lemma top_products_In (df : list Row.t) (m : MenuRow.t) :
  In m (top_products sort_by_rating_number df) ->
  In m (groupby_first (valid_rows df)).
Proof.
  unfold top_products, head. intro H. apply In_firstn in H.
  now apply (Permutation_in _ (sort_perm _)) in H.
Qed.

End MenuFacts.

Lemma StronglySorted_app {A : Type} (R : A -> A -> Prop) (l1 l2 : list A) :
  StronglySorted R (l1 ++ l2) ->
  StronglySorted R l1
  /\ forall x y, In x l1 -> In y l2 -> R x y.
Proof.
  induction l1 as [|a l1 IH]; cbn; intro H.
  - split; [constructor | intros x y []].
  - inversion H as [|? ? Hs Hall]; subst. destruct (IH Hs) as [H1 H2].
    rewrite Forall_forall in Hall. split.
    + constructor; [exact H1|]. apply Forall_forall. intros x Hx.
      apply Hall. apply in_or_app. now left.
    + intros x y [<-|Hx] Hy; [|now apply H2].
      apply Hall. apply in_or_app. now right.
Qed.

(** X16. Whatever order the sort gives to equal rating counts, the menu
    lists at most 100 products, no product twice, each with at least five
    reviews in the table and under the title of its first row; and a
    request for a listed product is never answered "not found". *)
Theorem menu_products_can_be_analyzed
  (sort_by_rating_number : list MenuRow.t -> list MenuRow.t)
  (df : list Row.t) :
  (forall l, Permutation (sort_by_rating_number l) l) ->
  (List.length (get_products sort_by_rating_number df) <= 100)%nat
  /\ NoDup (map fst (get_products sort_by_rating_number df))
  /\ forall asin title,
       In (asin, title) (get_products sort_by_rating_number df) ->
       (5 <= review_count df asin)%nat
       /\ (exists r rest,
             product_reviews_of df asin = r :: rest
             /\ title = Row.product_title r)
       /\ forall classifier w,
            reachable df classifier w ->
            fst (cached_inference df classifier asin w) <> Ok None.
Proof.
  intro Hperm. rewrite (get_products_rows _ Hperm). split; [|split].
  - rewrite length_map. unfold top_products, head. rewrite length_firstn. lia.
  - rewrite map_map. cbn [fst]. now apply top_products_NoDup.
  - intros asin title Hin. apply in_map_iff in Hin.
    destruct Hin as (m & [= <- <-] & Hm).
    apply (top_products_In _ Hperm) in Hm.
    destruct (groupby_first_row _ _ Hm) as (r & rest & Hr & Ht & _).
    rewrite product_reviews_valid in Hr.
    destruct (Nat.leb_spec 5 (review_count df (MenuRow.asin m))) as [H5|H5];
      [|discriminate].
    split; [exact H5|]. split; [now exists r, rest|].
    intros classifier w Hw Hnone.
    pose proof (proj2 (inference_sound df classifier (MenuRow.asin m) w
                         (reachable_sound _ _ _ Hw))) as Hs.
    rewrite Hnone, Hr in Hs. discriminate.
Qed.

(** X17. The menu is ranked by decreasing [rating_number]: a product with
    five reviews or more that is left out has a rating count no greater
    than any product listed, and when at most 100 products have five
    reviews, all of them are listed. *)
Theorem menu_ranked_by_rating_number
  (sort_by_rating_number : list MenuRow.t -> list MenuRow.t)
  (df : list Row.t) :
  (forall l, Permutation (sort_by_rating_number l) l) ->
  (forall l, StronglySorted by_rating_number (sort_by_rating_number l)) ->
  let top := top_products sort_by_rating_number df in
  let candidates := groupby_first (valid_rows df) in
  get_products sort_by_rating_number df
  = map (fun m => (MenuRow.asin m, MenuRow.product_title m)) top
  /\ StronglySorted by_rating_number top
  /\ (forall m m', In m candidates -> ~ In m top -> In m' top ->
        MenuRow.rating_number m <= MenuRow.rating_number m')
  /\ ((List.length candidates <= 100)%nat -> Permutation top candidates).
Proof.
  intros Hperm Hsorted top candidates.
  split; [now apply get_products_rows|].
  subst top. unfold top_products, head. fold candidates.
  pose proof (Hsorted candidates) as Hs.
  rewrite <- (firstn_skipn 100 (sort_by_rating_number candidates)) in Hs.
  destruct (StronglySorted_app _ _ _ Hs) as [H1 H2].
  split; [exact H1|]. split.
  - intros m m' Hm Hout Hin.
    apply (Permutation_in _ (Permutation_sym (Hperm candidates))) in Hm.
    rewrite <- (firstn_skipn 100 (sort_by_rating_number candidates)) in Hm.
    apply in_app_or in Hm. destruct Hm as [Hm|Hm]; [contradiction|].
    exact (H2 m' m Hin Hm).
  - intro Hlen. rewrite firstn_all2; [apply Hperm|].
    now rewrite (Permutation_length (Hperm candidates)).
Qed.

(** A sort to run the menu with: insertion by decreasing [rating_number]. *)
Fixpoint insert_menu_row (m : MenuRow.t) (l : list MenuRow.t) : list MenuRow.t :=
  match l with
  | [] => [m]
  | x :: r =>
      if MenuRow.rating_number x <? MenuRow.rating_number m then m :: l
      else x :: insert_menu_row m r
  end.

Fixpoint sample_sort (l : list MenuRow.t) : list MenuRow.t :=
  match l with
  | [] => []
  | m :: r => insert_menu_row m (sample_sort r)
  end.

Lemma insert_menu_row_perm (m : MenuRow.t) (l : list MenuRow.t) :
  Permutation (insert_menu_row m l) (m :: l).
Proof.
  induction l as [|x r IH]; cbn; [reflexivity|].
  destruct (MenuRow.rating_number x <? MenuRow.rating_number m); [reflexivity|].
  rewrite IH. apply perm_swap.
Defined.

Lemma sample_sort_perm (l : list MenuRow.t) : Permutation (sample_sort l) l.
Proof.
  induction l as [|m r IH]; cbn; [constructor|].
  rewrite insert_menu_row_perm. now constructor.
Defined.

Lemma sample_sort_sorted (l : list MenuRow.t) :
  StronglySorted by_rating_number (sample_sort l).
Proof.
  induction l as [|m r IH]; cbn; [constructor|].
  revert IH. generalize (sample_sort r). clear r.
  induction 1 as [|x s Hs IHs Hx]; cbn; [repeat constructor|].
  destruct (Z.ltb_spec (MenuRow.rating_number x) (MenuRow.rating_number m)).
  - constructor; [now constructor|].
    constructor; [unfold by_rating_number; lia|].
    revert Hx. apply Forall_impl. unfold by_rating_number. intros; lia.
  - constructor; [exact IHs|].
    apply (Permutation_Forall (Permutation_sym (insert_menu_row_perm m s))).
    constructor; [unfold by_rating_number; lia | exact Hx].
Defined.

(** Seven reviews: five of "B07", which makes the menu, and two of "B08",
    which does not. *)
Definition menu_df : list Row.t :=
  [ Row.mk "B07" (str "one") 5 0 1 "Comb" None 4.5%float 40;
    Row.mk "B08" (str "two") 4 0 2 "Clip" None 4.0%float 90;
    Row.mk "B07" (str "three") 3 1 3 "Comb" (Some "c.jpg"%string) 4.5%float 40;
    Row.mk "B07" (str "four") 2 0 4 "Comb" None 4.5%float 40;
    Row.mk "B08" (str "five") 5 2 5 "Clip" None 4.0%float 90;
    Row.mk "B07" (str "six") 1 0 6 "Comb" None 4.5%float 40;
    Row.mk "B07" (str "seven") 5 3 7 "Comb" None 4.5%float 40 ].

Lemma menu_products_can_be_analyzed_witness :
  (forall l, Permutation (sample_sort l) l)
  /\ get_products sample_sort menu_df = [("B07"%string, "Comb"%string)]
  /\ (5 <= review_count menu_df "B07")%nat
  /\ fst (cached_inference menu_df sample_classifier "B07" empty_world)
     <> Ok None.
Proof.
  assert (Hin : In ("B07"%string, "Comb"%string)
                  (get_products sample_sort menu_df)) by (left; reflexivity).
  destruct (menu_products_can_be_analyzed sample_sort menu_df sample_sort_perm)
    as (_ & _ & H).
  destruct (H _ _ Hin) as (H5 & _ & Hfound).
  exact (conj sample_sort_perm
           (conj eq_refl (conj H5 (Hfound sample_classifier empty_world
                                     (reach_start _ _))))).
Defined.

Lemma menu_ranked_by_rating_number_witness :
  (forall l, Permutation (sample_sort l) l)
  /\ (forall l, StronglySorted by_rating_number (sample_sort l))
  /\ StronglySorted by_rating_number (top_products sample_sort menu_df)
  /\ Permutation (top_products sample_sort menu_df)
       (groupby_first (valid_rows menu_df)).
Proof.
  destruct (menu_ranked_by_rating_number sample_sort menu_df sample_sort_perm
              sample_sort_sorted) as (_ & H2 & _ & H4).
  refine (conj sample_sort_perm (conj sample_sort_sorted (conj H2 (H4 _)))).
  vm_compute. lia.
Defined.
